(** * ByteRun: a stack-based virtual machine for compiled instruction streams

    Shallow embedding of [src/byterun.py] (classes [Frame], [Function],
    [VirtualMachine]) and proofs of the properties its specification states.

    Conventions of the embedding.
    - Python lists are Rocq lists in Python order: the operand stack has its
      bottom first and its top last, exactly as [self.frame.stack].
    - Objects with identity that the machine mutates (dictionaries, lists,
      [Function] instances) live in a heap; a value refers to them by address,
      so two names of one dictionary see the same updates.
    - A method is a state transformer over the machine that either returns or
      raises; what was mutated before a raise stays mutated.
    - What the source takes from its host (the opcode tables of [dis], the
      operators of [operator], attribute and iteration protocols, calls to
      host callables) is a parameter of the development.
    - What the source prints is not part of the state and is left out. *)

From Stdlib Require Import ZArith String Ascii List Bool Arith Lia.
From Stdlib Require Import DecimalString.
From Equations Require Import Equations.
Import ListNotations.

Open Scope string_scope.
Open Scope list_scope.

(** ** Values *)

(** The exception classes the machine itself raises, plus the host's. *)
Inductive exc_class : Type :=
| NameError
| UnboundLocalError
| TypeError
| KeyError
| IndexError
| ValueError
| AttributeError
| VirtualMachineError
| RecursionError
| StopIteration
| HostError (tag : nat).

(** Host values that reach the operand stack.  [VRef] is a reference to a heap
    object; [VHost] is an opaque host object compared by identity (a builtin
    function, a class, a module).  An exception instance is represented by its
    class and the argument it was built from. *)
#[warnings="-register-all"]
Inductive value : Type :=
| VNone
| VInt (n : Z)
| VBool (b : bool)
| VStr (s : string)
| VTuple (vs : list value)
| VCode (c : code)
| VExcClass (c : exc_class)
| VExcInst (c : exc_class) (arg : value)
| VRef (a : nat)
| VHost (h : nat)
with code : Type :=
| Code (co_code : list Z) (co_consts : list value) (co_names : list string)
       (co_varnames : list string) (co_argcount : nat) (co_name : string).

Definition co_code (c : code) : list Z := let 'Code x _ _ _ _ _ := c in x.
Definition co_consts (c : code) : list value := let 'Code _ x _ _ _ _ := c in x.
Definition co_names (c : code) : list string := let 'Code _ _ x _ _ _ := c in x.
Definition co_varnames (c : code) : list string := let 'Code _ _ _ x _ _ := c in x.
Definition co_argcount (c : code) : nat := let 'Code _ _ _ _ x _ := c in x.
Definition co_name (c : code) : string := let 'Code _ _ _ _ _ x := c in x.

(** [class Function]: the attributes set by [Function.__init__]. *)
Record Function : Type := mkFunction {
  func_code : code;
  func_name : value;
  func_defaults : list value;
  func_globals : value;
  func_locals : value;
  func_closure : value;
  func_doc : value
}.

(** Heap objects. *)
Inductive obj : Type :=
| ODict (items : list (value * value))
| OList (elts : list value)
| OFunction (f : Function)
| OHost (tag : nat) (fields : list value).

Definition heap_t : Type := list obj.

(** [Block = namedtuple("Block", "type, handler, stack_height")] *)
Record Block : Type := mkBlock {
  type : string;
  handler : value;
  stack_height : nat
}.

(** [class Frame].  [prev_frame] is read only by the constructor (to inherit
    the builtins) and is not kept. *)
Record Frame : Type := mkFrame {
  code_obj : code;
  global_names : value;
  local_names : value;
  stack : list value;
  block_stack : list Block;
  last_instruction : value;
  builtin_names : value
}.

Definition f_locals (f : Frame) : value := local_names f.
Definition f_globals (f : Frame) : value := global_names f.
Definition f_builtins (f : Frame) : value := builtin_names f.

(** [class VirtualMachine].  [self.frame] is always the last element of
    [self.frames] (or [None] when that list is empty): [push_frame] and
    [pop_frame] are the only writers of both, so it is derived here. *)
Record VirtualMachine : Type := mkVM {
  frames : list Frame;
  return_value : value;
  last_exception : option (value * value * value);
  heap : heap_t
}.

(** [VirtualMachine.__init__] *)
Definition VirtualMachine_init (h : heap_t) : VirtualMachine :=
  mkVM [] VNone None h.

Definition vm_frame (vm : VirtualMachine) : option Frame :=
  match frames vm with
  | [] => None
  | f :: fs => Some (last fs f)
  end.

(** ** Raising and returning *)

Inductive result (A : Type) : Type :=
| Ok (a : A)
| Raise (c : exc_class) (arg : value).
Arguments Ok {A} a.
Arguments Raise {A} c arg.

(** The state-and-exception monad of the machine's methods. *)
Definition M (A : Type) : Type := VirtualMachine -> VirtualMachine * result A.

Definition ret {A} (a : A) : M A := fun vm => (vm, Ok a).
Definition raise {A} (c : exc_class) (arg : value) : M A :=
  fun vm => (vm, Raise c arg).
Definition bind {A B} (m : M A) (k : A -> M B) : M B :=
  fun vm =>
    match m vm with
    | (vm', Ok a) => k a vm'
    | (vm', Raise c arg) => (vm', Raise c arg)
    end.
Definition get_vm : M VirtualMachine := fun vm => (vm, Ok vm).
Definition lift {A} (r : result A) : M A := fun vm => (vm, r).

Declare Scope vm_scope.
Delimit Scope vm_scope with vm.
Notation "x <- m ;; k" := (bind m (fun x => k))
  (at level 61, m at next level, right associativity) : vm_scope.
Notation "' pat <- m ;; k" := (bind m (fun x => match x with pat => k end))
  (at level 61, pat pattern, m at next level, right associativity) : vm_scope.
Notation "m ;; k" := (bind m (fun _ => k))
  (at level 61, right associativity) : vm_scope.
Open Scope vm_scope.

(** ** Python sequences *)

(** [l[i]] with Python's negative indices; [None] stands for [IndexError]. *)
Definition py_index {A} (l : list A) (i : Z) : option A :=
  let n := Z.of_nat (length l) in
  if (0 <=? i)%Z then nth_error l (Z.to_nat i)
  else if (- n <=? i)%Z then nth_error l (Z.to_nat (n + i))
  else None.

(** Where a slice bound [i] falls in a list of length [n]. *)
Definition slice_bound (n : nat) (i : Z) : nat :=
  if (i <? 0)%Z then Z.to_nat (Z.max 0 (Z.of_nat n + i))
  else Nat.min (Z.to_nat i) n.

(** [l[a:b]], [l[a:]] and the list left by [l[a:] = []]. *)
Definition py_slice {A} (l : list A) (a b : Z) : list A :=
  let lo := slice_bound (length l) a in
  let hi := slice_bound (length l) b in
  firstn (hi - lo) (skipn lo l).
Definition py_slice_from {A} (l : list A) (a : Z) : list A :=
  skipn (slice_bound (length l) a) l.
Definition py_delete_from {A} (l : list A) (a : Z) : list A :=
  firstn (slice_bound (length l) a) l.

(** [l[i] = x] for an index already resolved to a position. *)
Fixpoint list_set {A} (l : list A) (i : nat) (x : A) : list A :=
  match l, i with
  | [], _ => []
  | _ :: t, O => x :: t
  | y :: t, S j => y :: list_set t j x
  end.

(** ** Dictionaries *)

Definition exc_class_eqb (a b : exc_class) : bool :=
  match a, b with
  | NameError, NameError | UnboundLocalError, UnboundLocalError
  | TypeError, TypeError | KeyError, KeyError | IndexError, IndexError
  | ValueError, ValueError | AttributeError, AttributeError
  | VirtualMachineError, VirtualMachineError
  | RecursionError, RecursionError | StopIteration, StopIteration => true
  | HostError m, HostError n => Nat.eqb m n
  | _, _ => false
  end.

(** Equality of dictionary keys: Python's [==] on hashable values, under
    which [True == 1] and [False == 0].  Code objects are compared by their
    fields, exception instances by class and argument, and objects with
    identity by their address. *)
Fixpoint key_eqb (x y : value) {struct x} : bool :=
  match x, y with
  | VNone, VNone => true
  | VInt a, VInt b => (a =? b)%Z
  | VInt a, VBool b => (a =? Z.b2z b)%Z
  | VBool a, VInt b => (Z.b2z a =? b)%Z
  | VBool a, VBool b => Bool.eqb a b
  | VStr s, VStr t => String.eqb s t
  | VTuple xs, VTuple ys =>
      (fix go (xs ys : list value) {struct xs} : bool :=
         match xs, ys with
         | [], [] => true
         | x' :: xs', y' :: ys' => key_eqb x' y' && go xs' ys'
         | _, _ => false
         end) xs ys
  | VCode c, VCode d => code_eqb c d
  | VExcClass a, VExcClass b => exc_class_eqb a b
  | VExcInst a u, VExcInst b v => exc_class_eqb a b && key_eqb u v
  | VRef a, VRef b => Nat.eqb a b
  | VHost a, VHost b => Nat.eqb a b
  | _, _ => false
  end
with code_eqb (c d : code) {struct c} : bool :=
  match c, d with
  | Code bc ks ns vs n nm, Code bc' ks' ns' vs' n' nm' =>
      (if list_eq_dec Z.eq_dec bc bc' then true else false)
      && (fix go (xs ys : list value) {struct xs} : bool :=
            match xs, ys with
            | [], [] => true
            | x' :: xs', y' :: ys' => key_eqb x' y' && go xs' ys'
            | _, _ => false
            end) ks ks'
      && (if list_eq_dec string_dec ns ns' then true else false)
      && (if list_eq_dec string_dec vs vs' then true else false)
      && Nat.eqb n n' && String.eqb nm nm'
  end.

(** [d.get(k)], [k in d] and [d[k] = v] on the items of a dictionary, in
    insertion order; an existing key keeps its place. *)
Fixpoint dict_get (k : value) (d : list (value * value)) : option value :=
  match d with
  | [] => None
  | (k', v) :: d' => if key_eqb k' k then Some v else dict_get k d'
  end.

Definition dict_mem (k : value) (d : list (value * value)) : bool :=
  match dict_get k d with Some _ => true | None => false end.

Fixpoint dict_set (k v : value) (d : list (value * value)) : list (value * value) :=
  match d with
  | [] => [(k, v)]
  | (k', v') :: d' =>
      if key_eqb k' k then (k', v) :: d' else (k', v') :: dict_set k v d'
  end.

(** [d.update(items)] *)
Definition dict_update (d items : list (value * value)) : list (value * value) :=
  fold_left (fun acc kv => dict_set (fst kv) (snd kv) acc) items d.

(** Lists and dictionaries are unhashable, and so is a tuple that holds one. *)
Fixpoint hashable (h : heap_t) (v : value) : bool :=
  match v with
  | VRef a =>
      match nth_error h a with
      | Some (ODict _) | Some (OList _) => false
      | _ => true
      end
  | VTuple vs =>
      (fix all (vs : list value) : bool :=
         match vs with
         | [] => true
         | x :: vs' => hashable h x && all vs'
         end) vs
  | _ => true
  end.

(** The dictionary a value refers to, with its address. *)
Definition as_dict (h : heap_t) (v : value) : option (nat * list (value * value)) :=
  match v with
  | VRef a =>
      match nth_error h a with
      | Some (ODict d) => Some (a, d)
      | _ => None
      end
  | _ => None
  end.

(** ** Text of messages *)

Definition decimal (n : Z) : string := NilZero.string_of_int (Z.to_int n).

(** [pre + "%s" + post % v]: a tuple operand is the argument list of the
    format, so only a one-element tuple fits a single [%s].  The text of
    values whose [str] belongs to the host is left symbolic. *)
Definition format_s (pre post : string) (v : value) : result value :=
  let text (x : value) : value :=
    match x with
    | VStr s => VStr (pre ++ s ++ post)%string
    | VInt n => VStr (pre ++ decimal n ++ post)%string
    | VNone => VStr (pre ++ "None" ++ post)%string
    | VBool true => VStr (pre ++ "True" ++ post)%string
    | VBool false => VStr (pre ++ "False" ++ post)%string
    | _ => VTuple [VStr pre; x; VStr post]
    end in
  match v with
  | VTuple [x] => Ok (text x)
  | VTuple _ => Raise TypeError (VStr "not all arguments converted during string formatting")
  | _ => Ok (text v)
  end.

(** ** The host *)

(** The tables of the host's [dis] module that [parse_byte_and_args] reads. *)
Record Dis : Type := mkDis {
  opname : list string;
  HAVE_ARGUMENT : Z;
  hasconst : list Z;
  hasname : list Z;
  haslocal : list Z;
  hasjrel : list Z
}.

(** The operations the machine delegates to the host's value model. *)
Inductive host_op : Type :=
| HOperator (name : string)   (* [operator.<name>(x, y)] and [pow] *)
| HCompare (i : nat)          (* [COMPARE_OPERATORS[i](x, y)] *)
| HPos | HNeg | HInvert       (* [+x], [-x], [~x] *)
| HTruth                      (* [bool(x)] of a host object *)
| HGetAttr | HSetAttr         (* [getattr(obj, attr)], [setattr(obj, name, val)] *)
| HContains | HGetItem | HSetItem | HUpdate   (* on a mapping that is no dictionary *)
| HAppend                     (* [the_list.append(val)] on what is no list *)
| HIter | HNext               (* [iter(x)], [next(it)] *)
| HCall                       (* a call of a host callable on positional arguments *)
| HModuleDict                 (* [x.__dict__ if hasattr(x, '__dict__') else x] *)
| HRaise.                     (* [raise e] of a host object *)

(** A host operation reads and writes the heap, and returns or raises. *)
Definition host_t : Type :=
  host_op -> list value -> heap_t -> heap_t * result value.

(** The unwind signal [why]; [None] is the absence of a signal. *)
Inductive why_t : Type := WReturn | WBreak | WContinue | WException.

Definition why_name (w : why_t) : string :=
  match w with
  | WReturn => "return"
  | WBreak => "break"
  | WContinue => "continue"
  | WException => "exception"
  end.

Definition why_eqb (a b : why_t) : bool :=
  match a, b with
  | WReturn, WReturn | WBreak, WBreak | WContinue, WContinue
  | WException, WException => true
  | _, _ => false
  end.

(** Field updates. *)
Definition set_stack (f : Frame) (s : list value) : Frame :=
  mkFrame (code_obj f) (global_names f) (local_names f) s (block_stack f)
          (last_instruction f) (builtin_names f).
Definition set_block_stack (f : Frame) (bs : list Block) : Frame :=
  mkFrame (code_obj f) (global_names f) (local_names f) (stack f) bs
          (last_instruction f) (builtin_names f).
Definition set_last_instruction (f : Frame) (i : value) : Frame :=
  mkFrame (code_obj f) (global_names f) (local_names f) (stack f) (block_stack f)
          i (builtin_names f).
Definition set_frames (vm : VirtualMachine) (fs : list Frame) : VirtualMachine :=
  mkVM fs (return_value vm) (last_exception vm) (heap vm).
Definition set_return_value (vm : VirtualMachine) (v : value) : VirtualMachine :=
  mkVM (frames vm) v (last_exception vm) (heap vm).
Definition set_last_exception (vm : VirtualMachine) (e : option (value * value * value))
  : VirtualMachine :=
  mkVM (frames vm) (return_value vm) e (heap vm).
Definition set_heap (vm : VirtualMachine) (h : heap_t) : VirtualMachine :=
  mkVM (frames vm) (return_value vm) (last_exception vm) h.

(** The last element of a list and what is before it. *)
Definition unsnoc {A} (l : list A) : option (list A * A) :=
  match l with
  | [] => None
  | x :: t => Some (removelast l, last t x)
  end.

(** An integer operand; [bool] is a subclass of [int]. *)
Definition as_int (v : value) : option Z :=
  match v with
  | VInt n => Some n
  | VBool b => Some (Z.b2z b)
  | _ => None
  end.

(** [self.frame], which is [None] outside a run: reading an attribute of it
    then raises. *)
Definition the_frame : M Frame :=
  fun vm =>
    match vm_frame vm with
    | Some f => (vm, Ok f)
    | None => (vm, Raise AttributeError (VStr "'NoneType' object has no attribute"))
    end.

(** A write through [self.frame]. *)
Definition put_frame (f : Frame) : M unit :=
  fun vm => (set_frames vm (removelast (frames vm) ++ [f]), Ok tt).

(** Allocation of a new object. *)
Definition alloc (o : obj) : M value :=
  fun vm => (set_heap vm (heap vm ++ [o]), Ok (VRef (length (heap vm)))).

Definition heap_store (a : nat) (o : obj) : M unit :=
  fun vm => (set_heap vm (list_set (heap vm) a o), Ok tt).

Section Machine.

Variable dis : Dis.
Variable host : host_t.
(** [__builtins__] of the module that defines the machine. *)
Variable builtins : value.
(** [Function.__call__] one level of nesting further down, on positional
    arguments. *)
Variable call_function : Function -> list value -> M value.

Definition hostM (op : host_op) (args : list value) : M value :=
  fun vm =>
    let (h, r) := host op args (heap vm) in
    (set_heap vm h, r).

(** Truth of a value, as [if val:] tests it. *)
Definition truthy (v : value) : M bool :=
  match v with
  | VNone => ret false
  | VInt n => ret (negb (n =? 0)%Z)
  | VBool b => ret b
  | VStr s => ret (negb (String.eqb s ""))
  | VTuple vs => ret (negb (Nat.eqb (length vs) 0))
  | VCode _ | VExcClass _ | VExcInst _ _ => ret true
  | VRef a =>
      vm <- get_vm ;;
      match nth_error (heap vm) a with
      | Some (ODict d) => ret (negb (Nat.eqb (length d) 0))
      | Some (OList l) => ret (negb (Nat.eqb (length l) 0))
      | Some (OFunction _) => ret true
      | _ => b <- hostM HTruth [v] ;;
             match b with VBool t => ret t | _ => raise TypeError (VStr "__bool__ should return bool") end
      end
  | VHost _ =>
      b <- hostM HTruth [v] ;;
      match b with VBool t => ret t | _ => raise TypeError (VStr "__bool__ should return bool") end
  end.

(** *** Mappings: [k in ns], [ns[k]], [ns[k] = v], [ns.update(items)] *)

Definition unhashable {A} : M A := raise TypeError (VStr "unhashable type").

Definition contains (ns k : value) : M bool :=
  vm <- get_vm ;;
  match as_dict (heap vm) ns with
  | Some (_, d) => if hashable (heap vm) k then ret (dict_mem k d) else unhashable
  | None => b <- hostM HContains [ns; k] ;; truthy b
  end.

Definition getitem (ns k : value) : M value :=
  vm <- get_vm ;;
  match as_dict (heap vm) ns with
  | Some (_, d) =>
      if hashable (heap vm) k then
        match dict_get k d with
        | Some v => ret v
        | None => raise KeyError k
        end
      else unhashable
  | None => hostM HGetItem [ns; k]
  end.

Definition setitem (ns k v : value) : M unit :=
  vm <- get_vm ;;
  match as_dict (heap vm) ns with
  | Some (a, d) =>
      if hashable (heap vm) k then heap_store a (ODict (dict_set k v d))
      else unhashable
  | None => hostM HSetItem [ns; k; v] ;; ret tt
  end.

Definition update (ns : value) (items : list (value * value)) : M unit :=
  vm <- get_vm ;;
  match as_dict (heap vm) ns with
  | Some (a, d) => heap_store a (ODict (dict_update d items))
  | None =>
      hostM HUpdate [ns; VTuple (map (fun kv => VTuple [fst kv; snd kv]) items)] ;;
      ret tt
  end.

(** *** Frame manipulation *)

(** [Frame.__init__] *)
Definition Frame_init (code_obj : code) (global_names local_names : value)
  (prev_frame : option Frame) : M Frame :=
  b <- match prev_frame with
       | Some p => ret (builtin_names p)
       | None =>
           b <- getitem local_names (VStr "__builtins__") ;;
           vm <- get_vm ;;
           match as_dict (heap vm) b with
           | Some _ => ret b
           | None => hostM HModuleDict [b]
           end
       end ;;
  ret (mkFrame code_obj global_names local_names [] [] (VInt 0) b).

(** The dictionary literal of [make_frame] for a run that starts a program. *)
Definition main_namespace : list (value * value) :=
  [ (VStr "__builtins__", builtins);
    (VStr "__name__", VStr "__main__");
    (VStr "__doc__", VNone);
    (VStr "__package__", VNone) ].

(** [make_frame(code, callargs, global_names, local_names)]; an absent
    namespace argument is [None]. *)
Definition make_frame (code : code) (callargs : list (value * value))
  (global_arg local_arg : option value) : M Frame :=
  vm <- get_vm ;;
  '(globals, locals) <-
     match global_arg, local_arg with
     | None, None =>
         match vm_frame vm with
         | Some f => l <- alloc (ODict []) ;; ret (global_names f, l)
         | None => d <- alloc (ODict main_namespace) ;; ret (d, d)
         end
     | Some g, None => l <- alloc (ODict []) ;; ret (g, l)
     | None, Some l => ret (l, l)
     | Some g, Some l => ret (g, l)
     end ;;
  has <- contains locals (VStr "__builtins__") ;;
  (if has then ret tt
   else
     t <- truthy globals ;;
     g_has <- (if t then contains globals (VStr "__builtins__") else ret false) ;;
     if g_has then
       b <- getitem globals (VStr "__builtins__") ;;
       setitem locals (VStr "__builtins__") b
     else setitem locals (VStr "__builtins__") builtins) ;;
  update locals callargs ;;
  vm <- get_vm ;;
  Frame_init code globals locals (vm_frame vm).

Definition push_frame (frame : Frame) : M unit :=
  fun vm => (set_frames vm (frames vm ++ [frame]), Ok tt).

Definition pop_frame : M unit :=
  fun vm =>
    match frames vm with
    | [] => (vm, Raise IndexError (VStr "pop from empty list"))
    | _ => (set_frames vm (removelast (frames vm)), Ok tt)
    end.

(** *** Data stack manipulation *)

Definition top : M value :=
  f <- the_frame ;;
  match unsnoc (stack f) with
  | Some (_, v) => ret v
  | None => raise IndexError (VStr "list index out of range")
  end.

Definition pop : M value :=
  f <- the_frame ;;
  match unsnoc (stack f) with
  | Some (s, v) => put_frame (set_stack f s) ;; ret v
  | None => raise IndexError (VStr "pop from empty list")
  end.

Definition push (vals : list value) : M unit :=
  f <- the_frame ;;
  put_frame (set_stack f (stack f ++ vals)).

Definition popn (n : Z) : M (list value) :=
  if (n =? 0)%Z then ret []
  else
    f <- the_frame ;;
    let r := py_slice_from (stack f) (- n) in
    put_frame (set_stack f (py_delete_from (stack f) (- n))) ;;
    ret r.

(** [popn] on an operand as decoded: [if n:] tests its truth, and [-n] needs
    a number. *)
Definition popn_value (n : value) : M (list value) :=
  match as_int n with
  | Some z => popn z
  | None =>
      t <- truthy n ;;
      if t then raise TypeError (VStr "bad operand type for unary -") else ret []
  end.

(** *** Block stack manipulation *)

Definition push_block (b_type : string) (handler : value) : M unit :=
  f <- the_frame ;;
  let stack_height := length (stack f) in
  put_frame (set_block_stack f (block_stack f ++ [mkBlock b_type handler stack_height])).

Definition pop_block : M Block :=
  f <- the_frame ;;
  match unsnoc (block_stack f) with
  | Some (bs, b) => put_frame (set_block_stack f bs) ;; ret b
  | None => raise IndexError (VStr "pop from empty list")
  end.

(** [while len(self.frame.stack) > target: self.pop()]; every turn pops one
    value, so as many turns as the stack is high are enough. *)
Fixpoint unwind_pops (turns : nat) (target : nat) : M unit :=
  match turns with
  | O => ret tt
  | S turns' =>
      f <- the_frame ;;
      if (target <? length (stack f))%nat then pop ;; unwind_pops turns' target
      else ret tt
  end.

Definition unwind_block (block : Block) : M unit :=
  let offset := if String.eqb (type block) "except-handler" then 3 else 0 in
  f <- the_frame ;;
  unwind_pops (length (stack f)) (stack_height block + offset) ;;
  if String.eqb (type block) "except-handler" then
    r <- popn 3 ;;
    match r with
    | [traceback; value; exctype] =>
        fun vm => (set_last_exception vm (Some (exctype, value, traceback)), Ok tt)
    | _ => raise ValueError (VStr "not enough values to unpack (expected 3)")
    end
  else ret tt.

(** [jump] *)
Definition jump (target : value) : M unit :=
  f <- the_frame ;;
  put_frame (set_last_instruction f target).

Definition manage_block_stack (why : why_t) : M (option why_t) :=
  frame <- the_frame ;;
  match unsnoc (block_stack frame) with
  | None => raise IndexError (VStr "list index out of range")
  | Some (_, block) =>
      let kind t := String.eqb (type block) t in
      if kind "loop" && why_eqb why WContinue then
        vm <- get_vm ;;
        jump (return_value vm) ;;
        ret None
      else
        pop_block ;;
        unwind_block block ;;
        if kind "loop" && why_eqb why WBreak then
          jump (handler block) ;;
          ret None
        else if (kind "setup-except" || kind "finally") && why_eqb why WException then
          push_block "except-handler" VNone ;;
          vm <- get_vm ;;
          match last_exception vm with
          | Some (exctype, value, tb) =>
              push [tb; value; exctype] ;;
              push [tb; value; exctype] ;;
              jump (handler block) ;;
              ret None
          | None => raise TypeError (VStr "cannot unpack non-iterable NoneType object")
          end
        else if kind "finally" then
          (if why_eqb why WReturn || why_eqb why WContinue then
             vm <- get_vm ;; push [return_value vm]
           else ret tt) ;;
          push [VStr (why_name why)] ;;
          jump (handler block) ;;
          ret None
        else ret (Some why)
  end.

(** *** Bytecode helpers *)

Definition mem_Z (x : Z) (l : list Z) : bool := existsb (Z.eqb x) l.

Definition index_error {A} : M A := raise IndexError (VStr "index out of range").

(** [parse_byte_and_args]: the next opcode name and its resolved operand. *)
Definition parse_byte_and_args : M (string * list value) :=
  f <- the_frame ;;
  let co := code_obj f in
  match as_int (last_instruction f) with
  | None => raise TypeError (VStr "'>=' not supported between these operands")
  | Some opoffset =>
      if (Z.of_nat (length (co_code co)) <=? opoffset)%Z then
        ret ("RETURN_VALUE", [])
      else
        match py_index (co_code co) opoffset with
        | None => index_error
        | Some byteCode =>
            let pc := (opoffset + 1)%Z in
            put_frame (set_last_instruction f (VInt pc)) ;;
            match py_index (opname dis) byteCode with
            | None => index_error
            | Some byte_name =>
                if (HAVE_ARGUMENT dis <=? byteCode)%Z then
                  if (Z.of_nat (length (co_code co)) <=? pc + 1)%Z then
                    ret (byte_name, [VInt 0])
                  else
                    let arg_bytes := py_slice (co_code co) pc (pc + 2) in
                    let pc := (pc + 2)%Z in
                    put_frame (set_last_instruction f (VInt pc)) ;;
                    match arg_bytes with
                    | b0 :: b1 :: _ =>
                        let arg_val := Z.lor b0 (Z.shiftl b1 8) in
                        arg <-
                          (if mem_Z byteCode (hasconst dis) then
                             if (arg_val <? Z.of_nat (length (co_consts co)))%Z then
                               match py_index (co_consts co) arg_val with
                               | Some c => ret c
                               | None => index_error
                               end
                             else ret VNone
                           else if mem_Z byteCode (hasname dis) then
                             if (arg_val <? Z.of_nat (length (co_names co)))%Z then
                               match py_index (co_names co) arg_val with
                               | Some n => ret (VStr n)
                               | None => index_error
                               end
                             else ret (VInt arg_val)
                           else if mem_Z byteCode (haslocal dis) then
                             if (arg_val <? Z.of_nat (length (co_varnames co)))%Z then
                               match py_index (co_varnames co) arg_val with
                               | Some n => ret (VStr n)
                               | None => index_error
                               end
                             else ret (VInt arg_val)
                           else if mem_Z byteCode (hasjrel dis) then
                             ret (VInt (pc + arg_val))
                           else ret (VInt arg_val)) ;;
                        ret (byte_name, [arg])
                    | _ => index_error
                    end
                else ret (byte_name, [])
            end
        end
  end.

(** *** Operators *)

(** [BINARY_OPERATORS]: the operator each [BINARY_<name>] opcode applies. *)
Definition BINARY_OPERATORS : list (string * string) :=
  [ ("POWER", "pow"); ("MULTIPLY", "mul"); ("FLOOR_DIVIDE", "floordiv");
    ("TRUE_DIVIDE", "truediv"); ("MODULO", "mod"); ("ADD", "add");
    ("SUBTRACT", "sub"); ("SUBSCR", "getitem"); ("LSHIFT", "lshift");
    ("RSHIFT", "rshift"); ("AND", "and_"); ("XOR", "xor"); ("OR", "or_") ].

Fixpoint assoc {A} (k : string) (l : list (string * A)) : option A :=
  match l with
  | [] => None
  | (k', a) :: l' => if String.eqb k' k then Some a else assoc k l'
  end.

(** [x, y = self.popn(2)] *)
Definition popn_pair : M (value * value) :=
  r <- popn 2 ;;
  match r with
  | [x; y] => ret (x, y)
  | _ => raise ValueError (VStr "not enough values to unpack (expected 2)")
  end.

Definition binaryOperator (op : string) : M unit :=
  '(x, y) <- popn_pair ;;
  match assoc op BINARY_OPERATORS with
  | None => raise KeyError (VStr op)
  | Some f => r <- hostM (HOperator f) [x; y] ;; push [r]
  end.

Definition unaryOperator (op : string) : M unit :=
  x <- pop ;;
  if String.eqb op "POSITIVE" then r <- hostM HPos [x] ;; push [r]
  else if String.eqb op "NEGATIVE" then r <- hostM HNeg [x] ;; push [r]
  else if String.eqb op "NOT" then t <- truthy x ;; push [VBool (negb t)]
  else if String.eqb op "INVERT" then r <- hostM HInvert [x] ;; push [r]
  else raise VirtualMachineError (VStr ("Unknown unary operator: " ++ op)).

(** [COMPARE_OPERATORS] has eleven entries. *)
Definition byte_COMPARE_OP (opnum : value) : M unit :=
  '(x, y) <- popn_pair ;;
  match as_int opnum with
  | None => raise TypeError (VStr "list indices must be integers or slices")
  | Some i =>
      match py_index (seq 0 11) i with
      | None => index_error
      | Some k => r <- hostM (HCompare k) [x; y] ;; push [r]
      end
  end.

(** *** Stack manipulation instructions *)

Definition byte_LOAD_CONST (const : value) : M unit := push [const].

Definition byte_POP_TOP : M unit := pop ;; ret tt.

(** *** Name instructions *)

Definition byte_LOAD_NAME (name : value) : M unit :=
  frame <- the_frame ;;
  in_locals <- contains (f_locals frame) name ;;
  val <-
    (if in_locals then getitem (f_locals frame) name
     else
       in_globals <- contains (f_globals frame) name ;;
       if in_globals then getitem (f_globals frame) name
       else
         in_builtins <- contains (f_builtins frame) name ;;
         if in_builtins then getitem (f_builtins frame) name
         else
           msg <- lift (format_s "name '" "' is not defined" name) ;;
           raise NameError msg) ;;
  push [val].

Definition byte_STORE_NAME (name : value) : M unit :=
  v <- pop ;;
  frame <- the_frame ;;
  setitem (f_locals frame) name v.

Definition byte_LOAD_FAST (name : value) : M unit :=
  frame <- the_frame ;;
  in_locals <- contains (f_locals frame) name ;;
  val <-
    (if in_locals then getitem (f_locals frame) name
     else
       msg <- lift (format_s "local variable '" "' referenced before assignment" name) ;;
       raise UnboundLocalError msg) ;;
  push [val].

Definition byte_STORE_FAST (name : value) : M unit :=
  v <- pop ;;
  frame <- the_frame ;;
  setitem (f_locals frame) name v.

Definition byte_LOAD_GLOBAL (name : value) : M unit :=
  f <- the_frame ;;
  in_globals <- contains (f_globals f) name ;;
  val <-
    (if in_globals then getitem (f_globals f) name
     else
       in_builtins <- contains (f_builtins f) name ;;
       if in_builtins then getitem (f_builtins f) name
       else
         msg <- lift (format_s "global name '" "' is not defined" name) ;;
         raise NameError msg) ;;
  push [val].

(** *** Attribute and indexing *)

Definition byte_LOAD_ATTR (attr : value) : M unit :=
  obj <- pop ;;
  val <- hostM HGetAttr [obj; attr] ;;
  push [val].

Definition byte_STORE_ATTR (name : value) : M unit :=
  '(val, obj) <- popn_pair ;;
  hostM HSetAttr [obj; name; val] ;;
  ret tt.

(** *** Building instructions *)

Definition byte_BUILD_LIST (count : value) : M unit :=
  elts <- popn_value count ;;
  l <- alloc (OList elts) ;;
  push [l].

Definition byte_BUILD_MAP (size : value) : M unit :=
  d <- alloc (ODict []) ;;
  push [d].

Definition byte_STORE_MAP : M unit :=
  r <- popn 3 ;;
  match r with
  | [the_map; val; key] =>
      setitem the_map key val ;;
      push [the_map]
  | _ => raise ValueError (VStr "not enough values to unpack (expected 3)")
  end.

(** [stack[-i]] for an operand [i] *)
Definition stack_from_top (i : value) : M value :=
  match as_int i with
  | None => raise TypeError (VStr "bad operand type for unary -")
  | Some n =>
      f <- the_frame ;;
      match py_index (stack f) (- n) with
      | Some v => ret v
      | None => raise IndexError (VStr "list index out of range")
      end
  end.

Definition byte_LIST_APPEND (count : value) : M unit :=
  val <- pop ;;
  the_list <- stack_from_top count ;;
  vm <- get_vm ;;
  match the_list with
  | VRef a =>
      match nth_error (heap vm) a with
      | Some (OList l) => heap_store a (OList (l ++ [val]))
      | _ => hostM HAppend [the_list; val] ;; ret tt
      end
  | _ => hostM HAppend [the_list; val] ;; ret tt
  end.

(** *** Jumps *)

Definition byte_JUMP_FORWARD (target : value) : M unit := jump target.

Definition byte_JUMP_ABSOLUTE (target : value) : M unit := jump target.

Definition byte_POP_JUMP_IF_TRUE (target : value) : M unit :=
  val <- pop ;;
  t <- truthy val ;;
  if t then jump target else ret tt.

Definition byte_POP_JUMP_IF_FALSE (target : value) : M unit :=
  val <- pop ;;
  t <- truthy val ;;
  if negb t then jump target else ret tt.

(** *** Loops *)

Definition byte_SETUP_LOOP (dest : value) : M unit := push_block "loop" dest.

Definition byte_GET_ITER : M unit :=
  x <- pop ;;
  it <- hostM HIter [x] ;;
  push [it].

Definition byte_FOR_ITER (target : value) : M unit :=
  iterobj <- top ;;
  fun vm =>
    match hostM HNext [iterobj] vm with
    | (vm', Ok v) => push [v] vm'
    | (vm', Raise StopIteration _) => (pop ;; jump target) vm'
    | (vm', Raise c a) => (vm', Raise c a)
    end.

Definition byte_BREAK_LOOP : M (option why_t) := ret (Some WBreak).

Definition byte_POP_BLOCK : M unit := pop_block ;; ret tt.

(** *** Functions *)

(** [Function.__init__], up to the host function object it builds: the code
    must be a code object and the globals a dictionary. *)
Definition Function_init (name code globs : value) (defaults : list value)
  (closure : value) : M Function :=
  let no_attribute {A} : M A :=
    raise AttributeError (VStr "object has no attribute") in
  name_true <- truthy name ;;
  func_name <-
    (if name_true then ret name
     else match code with
          | VCode c => ret (VStr (co_name c))
          | _ => no_attribute
          end) ;;
  frame <- the_frame ;;
  match code with
  | VCode c =>
      let doc := match co_consts c with [] => VNone | k :: _ => k end in
      vm <- get_vm ;;
      match as_dict (heap vm) globs with
      | Some _ =>
          ret (mkFunction c func_name defaults globs (f_locals frame) closure doc)
      | None => raise TypeError (VStr "function() globals must be dict")
      end
  | _ => no_attribute
  end.

(** A call [func(...)] on positional arguments: a [Function] goes through its
    [__call__], an exception class builds an instance, a host object is the
    host's to call, and nothing else is callable. *)
Definition py_call (func : value) (posargs : list value) : M value :=
  let not_callable {A} : M A := raise TypeError (VStr "object is not callable") in
  match func with
  | VRef a =>
      vm <- get_vm ;;
      match nth_error (heap vm) a with
      | Some (OFunction fn) => call_function fn posargs
      | Some (OHost _ _) => hostM HCall (func :: posargs)
      | _ => not_callable
      end
  | VHost _ | VExcClass (HostError _) => hostM HCall (func :: posargs)
  | VExcClass c =>
      match posargs with
      | [a] => ret (VExcInst c a)
      | _ => ret (VExcInst c (VTuple posargs))
      end
  | _ => not_callable
  end.

Definition byte_MAKE_FUNCTION (argc : value) : M unit :=
  name <- pop ;;
  code <- pop ;;
  defaults <- popn_value argc ;;
  frame <- the_frame ;;
  let globs := f_globals frame in
  fn <- Function_init name code globs defaults VNone ;;
  r <- alloc (OFunction fn) ;;
  push [r].

Definition byte_CALL_FUNCTION (arg : value) : M unit :=
  match as_int arg with
  | None => raise TypeError (VStr "unsupported operand type(s) for divmod()")
  | Some n =>
      let lenPos := (n mod 256)%Z in
      posargs <- popn lenPos ;;
      func <- pop ;;
      retval <- py_call func posargs ;;
      push [retval]
  end.

Definition byte_RETURN_VALUE : M (option why_t) :=
  f <- the_frame ;;
  (if Nat.eqb (length (stack f)) 0 then
     fun vm => (set_return_value vm VNone, Ok tt)
   else
     v <- pop ;;
     fun vm => (set_return_value vm v, Ok tt)) ;;
  ret (Some WReturn).

(** *** Modern bytecode instructions *)

(** [RESUME], [CACHE], [PRECALL], [BEFORE_ASYNC_WITH], [GET_AWAITABLE],
    [GET_AITER], [GET_ANEXT], [BEFORE_WITH]: [pass]. *)
Definition byte_pass : M unit := ret tt.

Definition byte_CALL (arg : value) : M unit :=
  let argc := arg in
  posargs <- popn_value argc ;;
  func <- pop ;;
  retval <- py_call func posargs ;;
  push [retval].

Definition byte_COPY (arg : value) : M unit :=
  v <- stack_from_top arg ;;
  push [v].

Definition byte_SWAP (arg : value) : M unit :=
  if key_eqb arg (VInt 2) then
    below <- stack_from_top (VInt 2) ;;
    above <- stack_from_top (VInt 1) ;;
    f <- the_frame ;;
    put_frame (set_stack f (removelast (removelast (stack f)) ++ [above; below]))
  else ret tt.

Definition byte_LOAD_FAST_LOAD_FAST (arg : value) : M unit :=
  f <- the_frame ;;
  match co_varnames (code_obj f) with
  | var1_name :: var2_name :: _ =>
      val1 <- getitem (f_locals f) (VStr var1_name) ;;
      val2 <- getitem (f_locals f) (VStr var2_name) ;;
      push [val1; val2]
  | _ => raise IndexError (VStr "tuple index out of range")
  end.

(** The table [BINARY_OPS] of [byte_BINARY_OP]. *)
Definition BINARY_OPS : list (value * value) :=
  map (fun kv => (VInt (fst kv), VStr (snd kv)))
    [ (0, "add"); (1, "and_"); (2, "floordiv"); (3, "lshift"); (4, "matmul");
      (5, "mul"); (6, "mod"); (7, "or_"); (8, "pow"); (9, "rshift");
      (10, "sub"); (11, "truediv"); (12, "xor") ]%Z.

Definition byte_BINARY_OP (arg : value) : M unit :=
  f <- the_frame ;;
  if (length (stack f) <? 2)%nat then
    raise VirtualMachineError (VStr "Stack has too few items, need 2 for binary operation")
  else
    vm <- get_vm ;;
    if hashable (heap vm) arg then
      match dict_get arg BINARY_OPS with
      | Some (VStr op) =>
          r <- popn 2 ;;
          match r with
          | [y; x] =>
              result <- hostM (HOperator op) [x; y] ;;
              push [result]
          | _ => raise ValueError (VStr "not enough values to unpack (expected 2)")
          end
      | _ => raise VirtualMachineError (VStr "Unknown binary operation")
      end
    else unhashable.

(** *** Dispatch *)

(** A bound method [byte_<NAME>] applied to the decoded argument list: a
    wrong number of arguments is a [TypeError]. *)
Definition method : Type := list value -> M (option why_t).

Definition wrong_arity {A} : M A :=
  raise TypeError (VStr "wrong number of positional arguments").

Definition no_operand (m : M unit) : method :=
  fun argument => match argument with [] => m ;; ret None | _ => wrong_arity end.
Definition no_operand_why (m : M (option why_t)) : method :=
  fun argument => match argument with [] => m | _ => wrong_arity end.
Definition one_operand (m : value -> M unit) : method :=
  fun argument => match argument with [a] => m a ;; ret None | _ => wrong_arity end.
Definition optional_operand (m : M unit) : method :=
  fun argument => match argument with [] | [_] => m ;; ret None | _ => wrong_arity end.

(** The methods [byte_<NAME>] of the class, as [getattr] finds them. *)
Definition byte_handlers : list (string * method) :=
  [ ("COMPARE_OP", one_operand byte_COMPARE_OP);
    ("LOAD_CONST", one_operand byte_LOAD_CONST);
    ("POP_TOP", no_operand byte_POP_TOP);
    ("LOAD_NAME", one_operand byte_LOAD_NAME);
    ("STORE_NAME", one_operand byte_STORE_NAME);
    ("LOAD_FAST", one_operand byte_LOAD_FAST);
    ("STORE_FAST", one_operand byte_STORE_FAST);
    ("LOAD_GLOBAL", one_operand byte_LOAD_GLOBAL);
    ("LOAD_ATTR", one_operand byte_LOAD_ATTR);
    ("STORE_ATTR", one_operand byte_STORE_ATTR);
    ("BUILD_LIST", one_operand byte_BUILD_LIST);
    ("BUILD_MAP", one_operand byte_BUILD_MAP);
    ("STORE_MAP", no_operand byte_STORE_MAP);
    ("LIST_APPEND", one_operand byte_LIST_APPEND);
    ("JUMP_FORWARD", one_operand byte_JUMP_FORWARD);
    ("JUMP_ABSOLUTE", one_operand byte_JUMP_ABSOLUTE);
    ("POP_JUMP_IF_TRUE", one_operand byte_POP_JUMP_IF_TRUE);
    ("POP_JUMP_IF_FALSE", one_operand byte_POP_JUMP_IF_FALSE);
    ("SETUP_LOOP", one_operand byte_SETUP_LOOP);
    ("GET_ITER", no_operand byte_GET_ITER);
    ("FOR_ITER", one_operand byte_FOR_ITER);
    ("BREAK_LOOP", no_operand_why byte_BREAK_LOOP);
    ("POP_BLOCK", no_operand byte_POP_BLOCK);
    ("MAKE_FUNCTION", one_operand byte_MAKE_FUNCTION);
    ("CALL_FUNCTION", one_operand byte_CALL_FUNCTION);
    ("RETURN_VALUE", no_operand_why byte_RETURN_VALUE);
    ("RESUME", optional_operand byte_pass);
    ("CACHE", optional_operand byte_pass);
    ("PRECALL", optional_operand byte_pass);
    ("CALL", one_operand byte_CALL);
    ("BEFORE_ASYNC_WITH", optional_operand byte_pass);
    ("GET_AWAITABLE", optional_operand byte_pass);
    ("GET_AITER", optional_operand byte_pass);
    ("GET_ANEXT", optional_operand byte_pass);
    ("BEFORE_WITH", optional_operand byte_pass);
    ("COPY", one_operand byte_COPY);
    ("SWAP", one_operand byte_SWAP);
    ("LOAD_FAST_LOAD_FAST", one_operand byte_LOAD_FAST_LOAD_FAST);
    ("BINARY_OP", one_operand byte_BINARY_OP) ].

(** [byte_name[n:]] *)
Definition string_from (n : nat) (s : string) : string :=
  substring n (String.length s - n) s.

(** The body of the [try] in [dispatch].  The diagnostic prints are not
    part of the state and are left out. *)
Definition dispatch_try (byte_name : string) (argument : list value)
  : M (option why_t) :=
  if String.eqb byte_name "BEFORE_ASYNC_WITH" && Nat.eqb (length argument) 0 then
    byte_LOAD_FAST_LOAD_FAST (VInt 1) ;; ret None
  else
    match assoc byte_name byte_handlers with
    | None =>
        if String.prefix "UNARY_" byte_name then
          unaryOperator (string_from 6 byte_name) ;; ret None
        else if String.prefix "BINARY_" byte_name then
          binaryOperator (string_from 7 byte_name) ;; ret None
        else ret None
    | Some bytecode_fn => bytecode_fn argument
    end.

(** [dispatch]: what the body raises becomes the last exception, with no
    traceback, and the signal [exception]. *)
Definition dispatch (byte_name : string) (argument : list value)
  : VirtualMachine -> VirtualMachine * option why_t :=
  fun vm =>
    match dispatch_try byte_name argument vm with
    | (vm', Ok why) => (vm', why)
    | (vm', Raise c e) =>
        (set_last_exception vm' (Some (VExcClass c, VExcInst c e, VNone)),
         Some WException)
    end.

(** *** Execution *)

(** [frame.block_stack] for the frame that [run_frame] pushed at position
    [idx] of [self.frames]. *)
Definition blocks_at (idx : nat) (vm : VirtualMachine) : list Block :=
  match nth_error (frames vm) idx with
  | Some f => block_stack f
  | None => []
  end.

(** [while why and frame.block_stack: why = self.manage_block_stack(why)].
    A turn that leaves a signal has popped one block of the current frame, so
    one turn more than that frame has blocks is enough. *)
Fixpoint unwind_signal (turns : nat) (idx : nat) (why : option why_t)
  : M (option why_t) :=
  match why with
  | None => ret None
  | Some w =>
      vm <- get_vm ;;
      match blocks_at idx vm, turns with
      | [], _ | _, O => ret why
      | _ :: _, S turns' =>
          why' <- manage_block_stack w ;;
          unwind_signal turns' idx why'
      end
  end.

Definition current_blocks (vm : VirtualMachine) : nat :=
  match vm_frame vm with
  | Some f => length (block_stack f)
  | None => 0
  end.

(** How many more turns of the loop the cap on [instruction_count] allows. *)
Definition turns_left (instruction_count : nat) : nat := 101 - instruction_count.
Arguments turns_left : simpl never.

(** The loop of [run_frame], entered with the value of [instruction_count];
    it leaves with the signal and the count it stopped at.  A fault that is
    raised outside [dispatch] leaves the loop as it is raised. *)
Equations? run_loop (idx : nat) (instruction_count : nat) (vm : VirtualMachine)
  : VirtualMachine * result (option why_t * nat)
  by wf (turns_left instruction_count) lt :=
  run_loop idx instruction_count vm with parse_byte_and_args vm := {
    | (vm1, Raise c e) := (vm1, Raise c e);
    | (vm1, Ok (byte_name, arguments)) with dispatch byte_name arguments vm1 := {
      | (vm2, why) with unwind_signal (S (current_blocks vm2)) idx why vm2 := {
        | (vm3, Raise c e) := (vm3, Raise c e);
        | (vm3, Ok (Some w)) := (vm3, Ok (Some w, instruction_count));
        | (vm3, Ok None) with le_lt_dec (S instruction_count) 100 := {
          | left _ := run_loop idx (S instruction_count) vm3;
          | right _ := (vm3, Ok (None, S instruction_count)) } } } }.
Proof. unfold turns_left. lia. Qed.

(** [run_frame] *)
Definition run_frame (frame : Frame) : M value :=
  vm0 <- get_vm ;;
  let idx := length (frames vm0) in
  push_frame frame ;;
  '(why, _) <- run_loop idx 0 ;;
  pop_frame ;;
  match why with
  | Some WException =>
      vm <- get_vm ;;
      match last_exception vm with
      | None => raise TypeError (VStr "cannot unpack non-iterable NoneType object")
      | Some (exc, val, tb) =>
          e <- py_call exc [val] ;;
          match e, tb with
          | VExcInst c a, VNone => raise c a
          | VExcInst c a, _ =>
              hostM HSetAttr [e; VStr "__traceback__"; tb] ;;
              raise c a
          | _, _ =>
              hostM HSetAttr [e; VStr "__traceback__"; tb] ;;
              hostM HRaise [e] ;;
              raise TypeError (VStr "exceptions must derive from BaseException")
          end
      end
  | _ => vm <- get_vm ;; ret (return_value vm)
  end.

(** [run_code] *)
Definition run_code_with (code : code) (callargs : list (value * value))
  (global_arg local_arg : option value) : M value :=
  frame <- make_frame code callargs global_arg local_arg ;;
  run_frame frame.

(** Modelled from the spec: [inspect.getcallargs] belongs to the host's
    library and is not in the repository.  It binds the arguments of a call to
    the parameter names of the code unit by the convention of section 4.5, for
    a code unit whose parameters are all positional-or-keyword: positional
    arguments in order, then keyword arguments by name, then defaults for the
    trailing parameters still unbound; excess positional arguments, a keyword
    that names no parameter or one already bound, and a required parameter
    left unbound are each a [TypeError]. *)
Definition getcallargs (fn : Function) (positional : list value)
  (named : list (string * value)) : result (list (value * value)) :=
  let args := firstn (co_argcount (func_code fn)) (co_varnames (func_code fn)) in
  let defaults := func_defaults fn in
  let num_pos := length positional in
  let num_args := length args in
  let num_defaults := length defaults in
  let arg2value :=
    map (fun p => (VStr (fst p), snd p)) (combine args positional) in
  let bind_named :=
    fold_left
      (fun (acc : result (list (value * value))) (kw : string * value) =>
         match acc with
         | Raise c e => Raise c e
         | Ok a2v =>
             if negb (existsb (String.eqb (fst kw)) args) then
               Raise TypeError (VStr "got an unexpected keyword argument")
             else if dict_mem (VStr (fst kw)) a2v then
               Raise TypeError (VStr "got multiple values for argument")
             else Ok (dict_set (VStr (fst kw)) (snd kw) a2v)
         end)
      named (Ok arg2value) in
  match bind_named with
  | Raise c e => Raise c e
  | Ok arg2value =>
      if (num_args <? num_pos)%nat then
        Raise TypeError (VStr "takes fewer positional arguments than were given")
      else if (num_pos <? num_args)%nat then
        let split := (Z.of_nat num_args - Z.of_nat num_defaults)%Z in
        let req := py_slice args 0 split in
        if forallb (fun arg => dict_mem (VStr arg) arg2value) req then
          fold_left
            (fun (acc : result (list (value * value))) (p : nat * string) =>
               match acc with
               | Raise c e => Raise c e
               | Ok a2v =>
                   if dict_mem (VStr (snd p)) a2v then Ok a2v
                   else
                     match nth_error defaults (fst p) with
                     | Some d => Ok (dict_set (VStr (snd p)) d a2v)
                     | None => Raise IndexError (VStr "tuple index out of range")
                     end
               end)
            (combine (seq 0 (length (py_slice_from args split)))
                     (py_slice_from args split))
            (Ok arg2value)
        else Raise TypeError (VStr "missing required positional arguments")
      else Ok arg2value
  end.

(** The first two statements of [Function.__call__]: the arguments are bound
    and the frame is made, over a new dictionary for the locals. *)
Definition Function_call_frame (fn : Function) (args : list value)
  (kwargs : list (string * value)) : M Frame :=
  callargs <- lift (getcallargs fn args kwargs) ;;
  locals <- alloc (ODict []) ;;
  make_frame (func_code fn) callargs (Some (func_globals fn)) (Some locals).

(** [Function.__call__] on positional and keyword arguments *)
Definition Function_call (fn : Function) (args : list value)
  (kwargs : list (string * value)) : M value :=
  frame <- Function_call_frame fn args kwargs ;;
  run_frame frame.

End Machine.

(** ** Nested calls *)

(** [Function.__call__] with the host's recursion limit: a call nested deeper
    than [depth] raises [RecursionError] where it is made. *)
Fixpoint call_function (dis : Dis) (host : host_t) (builtins : value)
  (depth : nat) (fn : Function) (args : list value) {struct depth} : M value :=
  match depth with
  | O => raise RecursionError (VStr "maximum recursion depth exceeded")
  | S d =>
      Function_call dis host builtins (call_function dis host builtins d) fn args []
  end.

(** [VirtualMachine.run_code] *)
Definition run_code (dis : Dis) (host : host_t) (builtins : value) (depth : nat)
  (code : code) (callargs : list (value * value))
  (global_names local_names : option value) : M value :=
  run_code_with dis host builtins (call_function dis host builtins depth)
    code callargs global_names local_names.

(** ** Host instances *)

(** Names of the opcodes of a table given by its defined entries; [dis.opname]
    names an undefined opcode [<n>]. *)
Definition opname_table (defined : list (Z * string)) : list string :=
  map (fun n =>
         match find (fun e => (fst e =? Z.of_nat n)%Z) defined with
         | Some e => snd e
         | None => ("<" ++ decimal (Z.of_nat n) ++ ">")%string
         end)
      (seq 0 256).

(** The opcode numbering of the host that the source was last run on, the one
    its diagnostics (opcodes 1, 45 and 149) and its patch for opcode 1 refer
    to: opcode 1 is [BEFORE_ASYNC_WITH], 45 is [BINARY_OP], 149 is [RESUME],
    and an instruction is two bytes, the second being its operand.  The table
    is given for the opcodes this development meets. *)
Definition dis_wordcode : Dis :=
  mkDis
    (opname_table
       [ (0, "CACHE"); (1, "BEFORE_ASYNC_WITH"); (2, "BEFORE_WITH");
         (19, "GET_ITER"); (30, "NOP"); (32, "POP_TOP"); (36, "RETURN_VALUE");
         (45, "BINARY_OP"); (47, "BUILD_LIST"); (48, "BUILD_MAP"); (53, "CALL");
         (58, "COMPARE_OP"); (61, "COPY"); (72, "FOR_ITER"); (79, "JUMP_FORWARD");
         (82, "LOAD_ATTR"); (83, "LOAD_CONST"); (85, "LOAD_FAST");
         (88, "LOAD_FAST_LOAD_FAST"); (91, "LOAD_GLOBAL"); (92, "LOAD_NAME");
         (97, "POP_JUMP_IF_FALSE"); (100, "POP_JUMP_IF_TRUE");
         (103, "RETURN_CONST"); (108, "STORE_ATTR"); (110, "STORE_FAST");
         (114, "STORE_NAME"); (115, "SWAP"); (149, "RESUME") ]%Z)
    44
    [83; 103]%Z
    [82; 91; 92; 108; 114]%Z
    [85; 88; 110]%Z
    [72; 79; 97; 100]%Z.

(** The opcode numbering of the three-byte instruction format that the
    decoder reads: an opcode byte and, from [HAVE_ARGUMENT] on, a 16-bit
    little-endian operand.  The table is given for the opcodes that the
    machine has methods or operators for. *)
Definition dis_classic : Dis :=
  mkDis
    (opname_table
       [ (1, "POP_TOP"); (10, "UNARY_POSITIVE"); (11, "UNARY_NEGATIVE");
         (12, "UNARY_NOT"); (15, "UNARY_INVERT"); (19, "BINARY_POWER");
         (20, "BINARY_MULTIPLY"); (22, "BINARY_MODULO"); (23, "BINARY_ADD");
         (24, "BINARY_SUBTRACT"); (25, "BINARY_SUBSCR");
         (26, "BINARY_FLOOR_DIVIDE"); (27, "BINARY_TRUE_DIVIDE");
         (54, "STORE_MAP"); (62, "BINARY_LSHIFT"); (63, "BINARY_RSHIFT");
         (64, "BINARY_AND"); (65, "BINARY_XOR"); (66, "BINARY_OR");
         (68, "GET_ITER"); (80, "BREAK_LOOP"); (83, "RETURN_VALUE");
         (87, "POP_BLOCK"); (90, "STORE_NAME"); (93, "FOR_ITER");
         (95, "STORE_ATTR"); (100, "LOAD_CONST"); (101, "LOAD_NAME");
         (103, "BUILD_LIST"); (105, "BUILD_MAP"); (106, "LOAD_ATTR");
         (107, "COMPARE_OP"); (110, "JUMP_FORWARD"); (113, "JUMP_ABSOLUTE");
         (114, "POP_JUMP_IF_FALSE"); (115, "POP_JUMP_IF_TRUE");
         (116, "LOAD_GLOBAL"); (120, "SETUP_LOOP"); (124, "LOAD_FAST");
         (125, "STORE_FAST"); (131, "CALL_FUNCTION"); (132, "MAKE_FUNCTION");
         (145, "LIST_APPEND") ]%Z)
    90
    [100]%Z
    [90; 95; 101; 106; 116]%Z
    [124; 125]%Z
    [93; 110; 120]%Z.

(** A host whose values are integers: the arithmetic of [operator] on [int],
    and [TypeError] for every other operation. *)
Definition int_host : host_t :=
  fun op args h =>
    match op, args with
    | HOperator "add", [VInt a; VInt b] => (h, Ok (VInt (a + b)))
    | HOperator "sub", [VInt a; VInt b] => (h, Ok (VInt (a - b)))
    | HOperator "mul", [VInt a; VInt b] => (h, Ok (VInt (a * b)))
    | HNeg, [VInt a] => (h, Ok (VInt (- a)))
    | HPos, [VInt a] => (h, Ok (VInt a))
    | _, _ => (h, Raise TypeError (VStr "unsupported operand type(s)"))
    end.

(** ** Vocabulary of the statements *)

(** The machine after a write [f] through [self.frame]. *)
Definition with_frame (vm : VirtualMachine) (f : Frame) : VirtualMachine :=
  set_frames vm (removelast (frames vm) ++ [f]).

(** One turn of the loop of [run_frame]: fetch, dispatch, unwind. *)
Definition step (dis : Dis) (host : host_t)
  (call : Function -> list value -> M value) (idx : nat)
  : M (option why_t) :=
  fun vm =>
    match parse_byte_and_args dis vm with
    | (vm1, Raise c e) => (vm1, Raise c e)
    | (vm1, Ok (byte_name, arguments)) =>
        let (vm2, why) := dispatch host call byte_name arguments vm1 in
        unwind_signal (S (current_blocks vm2)) idx why vm2
    end.

(** At most [k] turns, from the count [n]: stop at the first signal or fault. *)
Fixpoint steps (dis : Dis) (host : host_t)
  (call : Function -> list value -> M value) (k : nat) (idx n : nat)
  (vm : VirtualMachine) : VirtualMachine * result (option why_t * nat) :=
  match k with
  | O => (vm, Ok (None, n))
  | S k' =>
      match step dis host call idx vm with
      | (vm', Raise c e) => (vm', Raise c e)
      | (vm', Ok (Some w)) => (vm', Ok (Some w, n))
      | (vm', Ok None) => steps dis host call k' idx (S n) vm'
      end
  end.

(** A machine that runs one frame of [code] at instruction [pc]. *)
Definition one_frame (code : code) (globals locals builtins : value)
  (stack : list value) (pc : Z) (h : heap_t) : VirtualMachine :=
  mkVM [mkFrame code globals locals stack [] (VInt pc) builtins] VNone None h.

(** A code unit that ends in the middle of an instruction: [LOAD_CONST]
    followed by one operand byte. *)
Definition truncated_code : code := Code [100; 0]%Z [] [] [] 0 "truncated".

(** A code unit whose only instruction is [LOAD_CONST 5], with an empty
    constant pool. *)
Definition bad_const_code : code := Code [100; 5; 0]%Z [] [] [] 0 "bad_const".

(** A frame with three distinct scopes: [x] is local, [y] is global, [len] is
    a builtin. *)
Definition scope_heap : heap_t :=
  [ ODict [(VStr "x", VInt 1)];
    ODict [(VStr "x", VInt 10); (VStr "y", VInt 2)];
    ODict [(VStr "len", VHost 0)] ].

Definition scope_vm : VirtualMachine :=
  one_frame (Code [] [] [] ["x"; "y"] 0 "scopes") (VRef 1) (VRef 0) (VRef 2)
    [] 0 scope_heap.

(** Host calls are refused: a [call_function] for statements that make none. *)
Definition no_calls : Function -> list value -> M value :=
  fun _ _ => raise RecursionError (VStr "maximum recursion depth exceeded").

(** A frame with the values 1 to 5 on its operand stack, and one whose stack
    holds an exception triple above one value. *)
Definition five_vm : VirtualMachine :=
  one_frame (Code [] [] [] [] 0 "five") VNone VNone VNone
    [VInt 1; VInt 2; VInt 3; VInt 4; VInt 5] 0 [].

Definition handler_vm : VirtualMachine :=
  one_frame (Code [] [] [] [] 0 "handler") VNone VNone VNone
    [VInt 9; VNone; VExcInst KeyError (VStr "k"); VExcClass KeyError; VInt 8] 0 [].

(** A code unit that never returns: [JUMP_ABSOLUTE 0] at offset 0. *)
Definition spin_code : code := Code [113; 0; 0]%Z [] [] [] 0 "spin".

Definition spin_frame : Frame :=
  mkFrame spin_code VNone VNone [] [] (VInt 0) VNone.

(** The code unit of [def test_addition(a, b): return a + b] in the two-byte
    instruction format ([RESUME], [LOAD_FAST_LOAD_FAST a b], [BINARY_OP +],
    [CACHE], [RETURN_VALUE]) and in the three-byte format ([LOAD_FAST a],
    [LOAD_FAST b], [BINARY_ADD], [RETURN_VALUE]). *)
Definition add_code : code :=
  Code [149; 0; 88; 1; 45; 0; 0; 0; 36; 0]%Z [VNone] [] ["a"; "b"] 2 "test_addition".

Definition add_code_classic : code :=
  Code [124; 0; 0; 124; 1; 0; 23; 83]%Z [VNone] [] ["a"; "b"] 2 "test_addition".

(** The heap of the test: the builtins at address 0 and the globals of the
    calling module at address 1. *)
Definition test_heap : heap_t :=
  [ ODict [(VStr "len", VHost 0)];
    ODict [(VStr "__name__", VStr "__main__"); (VStr "__builtins__", VRef 0)] ].

Definition add_args : list (value * value) :=
  [(VStr "a", VInt 2); (VStr "b", VInt 5)].

(** What [run_frame] does after its loop. *)
Definition leave_frame (host : host_t) (call : Function -> list value -> M value)
  (why : option why_t) : M value :=
  pop_frame ;;
  match why with
  | Some WException =>
      vm <- get_vm ;;
      match last_exception vm with
      | None => raise TypeError (VStr "cannot unpack non-iterable NoneType object")
      | Some (exc, val, tb) =>
          e <- py_call host call exc [val] ;;
          match e, tb with
          | VExcInst c a, VNone => raise c a
          | VExcInst c a, _ =>
              hostM host HSetAttr [e; VStr "__traceback__"; tb] ;;
              raise c a
          | _, _ =>
              hostM host HSetAttr [e; VStr "__traceback__"; tb] ;;
              hostM host HRaise [e] ;;
              raise TypeError (VStr "exceptions must derive from BaseException")
          end
      end
  | _ => vm <- get_vm ;; ret (return_value vm)
  end.

(** The parameter names of a function and the binding of positional
    arguments to them. *)
Definition parameters (fn : Function) : list string :=
  firstn (co_argcount (func_code fn)) (co_varnames (func_code fn)).

Definition str_items (ps : list (string * value)) : list (value * value) :=
  map (fun p => (VStr (fst p), snd p)) ps.

Definition bound_arguments (fn : Function) (args : list value)
  : list (value * value) :=
  str_items (combine (parameters fn) args).

(** [def first(a, b): return a], made in a module whose globals are at
    address 1 of [test_heap]. *)
Definition first_function : Function :=
  mkFunction (Code [124; 0; 0; 83]%Z [VNone] [] ["a"; "b"] 2 "first")
    (VStr "first") [] (VRef 1) (VRef 1) VNone VNone.

(** A machine in the middle of a run of the module. *)
Definition module_vm : VirtualMachine :=
  one_frame (Code [] [] [] [] 0 "<module>") (VRef 1) (VRef 1) (VRef 0) [] 0
    test_heap.

(** A dictionary whose keys are all strings. *)
Definition str_keys (d : list (value * value)) : Prop :=
  Forall (fun kv => exists s, fst kv = VStr s) d.

(** No method lets the call stack of the machine end shorter than it began. *)
Definition keeps_frames {A} (m : M A) : Prop :=
  forall vm vm' r, m vm = (vm', r) -> length (frames vm) <= length (frames vm').

(** The lowest of [base] and of the stack heights that the blocks of [bs]
    recorded. *)
Definition lowest_height (bs : list Block) (base : nat) : nat :=
  fold_right (fun b m => Nat.min (stack_height b) m) base bs.

(** A frame inside two nested loops, entered at the heights 1 and 3 of its
    operand stack, and a frame inside a [finally] block while a [KeyError] is
    the last exception. *)
Definition loops_vm : VirtualMachine :=
  mkVM [mkFrame (Code [] [] [] [] 0 "loops") VNone VNone
          [VInt 1; VInt 2; VInt 3; VInt 4; VInt 5]
          [mkBlock "loop" (VInt 20) 1; mkBlock "loop" (VInt 30) 3]
          (VInt 6) VNone]
       (VInt 11) None [].

Definition guarded_vm : VirtualMachine :=
  mkVM [mkFrame (Code [] [] [] [] 0 "guarded") VNone VNone
          [VInt 1; VInt 2; VInt 3] [mkBlock "finally" (VInt 40) 1] (VInt 6) VNone]
       (VInt 11)
       (Some (VExcClass KeyError, VExcInst KeyError (VStr "k"), VNone)) [].

(** A code unit in the three-byte format with one instruction of each kind of
    operand: [RETURN_VALUE] at 0, [JUMP_FORWARD 258] at 1, [LOAD_NAME 0] at 4,
    [LOAD_NAME 5] at 7 and [LOAD_FAST 1] at 10. *)
Definition operand_code : code :=
  Code [83; 110; 2; 1; 101; 0; 0; 101; 5; 0; 124; 1; 0]%Z [] ["x"] ["a"; "b"] 0
    "operands".

(** A frame over the scopes of [scope_heap] whose code loads the name [q],
    which none of them binds. *)
Definition undefined_frame : Frame :=
  mkFrame (Code [101; 0; 0]%Z [] ["q"] [] 0 "undefined") (VRef 1) (VRef 0) [] []
    (VInt 0) (VRef 2).




(** ** Basic facts *)

Lemma last_cons_default {A} (l : list A) (a d : A) : last (a :: l) d = last l a.
Proof.
  revert a d. induction l as [|b l IH]; intros a d; [reflexivity|].
  change (last (a :: b :: l) d) with (last (b :: l) d).
  rewrite (IH b d), (IH b a). reflexivity.
Qed.

Lemma unsnoc_snoc {A} (l : list A) (x : A) : unsnoc (l ++ [x]) = Some (l, x).
Proof.
  unfold unsnoc. destruct (l ++ [x]) as [|a t] eqn:E.
  - destruct l; discriminate.
  - rewrite <- E, removelast_last. f_equal. f_equal.
    rewrite <- (last_cons_default t a a), <- E. apply last_last.
Qed.

Lemma vm_frame_with_frame vm f : vm_frame (with_frame vm f) = Some f.
Proof.
  unfold vm_frame, with_frame. simpl.
  destruct (removelast (frames vm) ++ [f]) as [|a t] eqn:E.
  - destruct (removelast (frames vm)); discriminate.
  - f_equal. rewrite <- (last_cons_default t a a), <- E. apply last_last.
Qed.

Lemma with_frame_twice vm f g : with_frame (with_frame vm f) g = with_frame vm g.
Proof. unfold with_frame. simpl. rewrite removelast_last. reflexivity. Qed.

Lemma with_frame_same vm f : vm_frame vm = Some f -> with_frame vm f = vm.
Proof.
  unfold vm_frame, with_frame, set_frames. destruct vm as [fs r e h]. simpl.
  destruct fs as [|f0 fs]; [discriminate|]. intros [= <-].
  f_equal. rewrite <- (last_cons_default fs f0 f0).
  symmetry. apply app_removelast_last. discriminate.
Qed.

Lemma the_frame_ok vm f : vm_frame vm = Some f -> the_frame vm = (vm, Ok f).
Proof. unfold the_frame. now intros ->. Qed.

Lemma put_frame_eq vm f : put_frame f vm = (with_frame vm f, Ok tt).
Proof. reflexivity. Qed.

Lemma bind_ok {A B} (m : M A) (k : A -> M B) vm vm' a :
  m vm = (vm', Ok a) -> bind m k vm = k a vm'.
Proof. unfold bind. now intros ->. Qed.

(** ** The instruction decoder *)

Lemma py_index_nonneg {A} (l : list A) (i : Z) :
  (0 <= i)%Z -> py_index l i = nth_error l (Z.to_nat i).
Proof. intros H. unfold py_index. destruct (Z.leb_spec 0 i); [reflexivity|lia]. Qed.

Lemma firstn2_skipn {A} (l : list A) (i : nat) (x y : A) :
  nth_error l i = Some x -> nth_error l (S i) = Some y ->
  firstn 2 (skipn i l) = [x; y].
Proof.
  revert l. induction i as [|i IH]; intros [|a l] Hx Hy; try discriminate.
  - simpl in *. destruct l; [discriminate|]. simpl in Hy. congruence.
  - simpl. apply IH; assumption.
Qed.

Lemma py_slice_pair {A} (l : list A) (i : Z) (x y : A) :
  (0 <= i)%Z ->
  nth_error l (Z.to_nat i) = Some x -> nth_error l (S (Z.to_nat i)) = Some y ->
  py_slice l i (i + 2) = [x; y].
Proof.
  intros Hi Hx Hy.
  assert (Hlen : S (Z.to_nat i) < length l) by (apply nth_error_Some; congruence).
  unfold py_slice, slice_bound.
  destruct (Z.ltb_spec i 0); [lia|]. destruct (Z.ltb_spec (i + 2) 0); [lia|].
  replace (Nat.min (Z.to_nat i) (length l)) with (Z.to_nat i) by lia.
  replace (Nat.min (Z.to_nat (i + 2)) (length l) - Z.to_nat i) with 2 by lia.
  now apply firstn2_skipn.
Qed.

(** C4.  When the instruction pointer is at or past the end of the instruction
    stream, [parse_byte_and_args] returns the synthetic opcode [RETURN_VALUE]
    with no operand and reads and changes nothing.  When an opcode that takes
    an operand has fewer than two operand bytes after it, the decoder returns
    that opcode with the operand 0 and no fault; the pointer has moved past
    the opcode byte only, and no operand byte was consumed. *)
Theorem decode_at_end_and_short_operand
  (dis : Dis) (vm : VirtualMachine) (f : Frame) (p : Z) :
  vm_frame vm = Some f ->
  last_instruction f = VInt p ->
  ((Z.of_nat (length (co_code (code_obj f))) <= p)%Z ->
   parse_byte_and_args dis vm = (vm, Ok ("RETURN_VALUE", [])))
  /\
  (forall (byteCode : Z) (byte_name : string),
     (0 <= p)%Z ->
     nth_error (co_code (code_obj f)) (Z.to_nat p) = Some byteCode ->
     py_index (opname dis) byteCode = Some byte_name ->
     (HAVE_ARGUMENT dis <= byteCode)%Z ->
     (Z.of_nat (length (co_code (code_obj f))) - (p + 1) < 2)%Z ->
     parse_byte_and_args dis vm =
       (with_frame vm (set_last_instruction f (VInt (p + 1))),
        Ok (byte_name, [VInt 0]))).
Proof.
  intros Hf Hp. split.
  - intros Hend. unfold parse_byte_and_args.
    rewrite (bind_ok _ _ _ _ _ (the_frame_ok _ _ Hf)). rewrite Hp. cbn [as_int].
    destruct (Z.leb_spec (Z.of_nat (length (co_code (code_obj f)))) p); [reflexivity|lia].
  - intros byteCode byte_name Hp0 Hbyte Hname Harg Hshort.
    assert (Hin : Z.to_nat p < length (co_code (code_obj f)))
      by (apply nth_error_Some; congruence).
    unfold parse_byte_and_args.
    rewrite (bind_ok _ _ _ _ _ (the_frame_ok _ _ Hf)). rewrite Hp. cbn [as_int].
    destruct (Z.leb_spec (Z.of_nat (length (co_code (code_obj f)))) p); [lia|].
    rewrite (py_index_nonneg _ _ Hp0), Hbyte.
    rewrite (bind_ok _ _ _ _ _ (put_frame_eq _ _)).
    rewrite Hname.
    destruct (Z.leb_spec (HAVE_ARGUMENT dis) byteCode); [|lia].
    destruct (Z.leb_spec (Z.of_nat (length (co_code (code_obj f)))) (p + 1 + 1)); [|lia].
    reflexivity.
Qed.

Lemma decode_at_end_and_short_operand_witness :
  parse_byte_and_args dis_classic
    (one_frame truncated_code VNone VNone VNone [] 2 [])
  = (one_frame truncated_code VNone VNone VNone [] 2 [], Ok ("RETURN_VALUE", []))
  /\
  parse_byte_and_args dis_classic
    (one_frame truncated_code VNone VNone VNone [] 0 [])
  = (one_frame truncated_code VNone VNone VNone [] 1 [], Ok ("LOAD_CONST", [VInt 0])).
Proof.
  split.
  - apply (proj1 (decode_at_end_and_short_operand dis_classic
                    (one_frame truncated_code VNone VNone VNone [] 2 []) _ 2
                    eq_refl eq_refl)).
    simpl. lia.
  - apply (proj2 (decode_at_end_and_short_operand dis_classic
                    (one_frame truncated_code VNone VNone VNone [] 0 []) _ 0
                    eq_refl eq_refl) 100%Z "LOAD_CONST").
    + lia.
    + reflexivity.
    + reflexivity.
    + simpl. lia.
    + simpl. lia.
Defined.

(** C5, as the code has it.  For a constant-index opcode with its operand
    complete, an operand index at or beyond the size of the constant pool is no
    fault: the decoder returns the opcode with the operand [None] and the
    pointer past the whole instruction. *)
Theorem const_index_out_of_range_yields_none
  (dis : Dis) (vm : VirtualMachine) (f : Frame) (p : Z)
  (byteCode b0 b1 : Z) (byte_name : string) :
  vm_frame vm = Some f ->
  last_instruction f = VInt p ->
  (0 <= p)%Z ->
  nth_error (co_code (code_obj f)) (Z.to_nat p) = Some byteCode ->
  nth_error (co_code (code_obj f)) (S (Z.to_nat p)) = Some b0 ->
  nth_error (co_code (code_obj f)) (S (S (Z.to_nat p))) = Some b1 ->
  py_index (opname dis) byteCode = Some byte_name ->
  (HAVE_ARGUMENT dis <= byteCode)%Z ->
  mem_Z byteCode (hasconst dis) = true ->
  (Z.of_nat (length (co_consts (code_obj f))) <= Z.lor b0 (Z.shiftl b1 8))%Z ->
  parse_byte_and_args dis vm =
    (with_frame vm (set_last_instruction f (VInt (p + 3))),
     Ok (byte_name, [VNone])).
Proof.
  intros Hf Hp Hp0 Hbyte Hb0 Hb1 Hname Harg Hconst Hrange.
  assert (Hin : S (S (Z.to_nat p)) < length (co_code (code_obj f)))
    by (apply nth_error_Some; congruence).
  unfold parse_byte_and_args.
  rewrite (bind_ok _ _ _ _ _ (the_frame_ok _ _ Hf)). rewrite Hp. cbn [as_int].
  destruct (Z.leb_spec (Z.of_nat (length (co_code (code_obj f)))) p); [lia|].
  rewrite (py_index_nonneg _ _ Hp0), Hbyte.
  rewrite (bind_ok _ _ _ _ _ (put_frame_eq _ _)).
  rewrite Hname.
  destruct (Z.leb_spec (HAVE_ARGUMENT dis) byteCode); [|lia].
  destruct (Z.leb_spec (Z.of_nat (length (co_code (code_obj f)))) (p + 1 + 1)); [lia|].
  rewrite (bind_ok _ _ _ _ _ (put_frame_eq _ _)).
  rewrite (py_slice_pair _ (p + 1) b0 b1); try lia;
    [| replace (Z.to_nat (p + 1)) with (S (Z.to_nat p)) by lia; assumption
     | replace (Z.to_nat (p + 1)) with (S (Z.to_nat p)) by lia; assumption ].
  rewrite Hconst.
  destruct (Z.ltb_spec (Z.lor b0 (Z.shiftl b1 8))
              (Z.of_nat (length (co_consts (code_obj f))))); [lia|].
  unfold bind, ret. rewrite with_frame_twice.
  replace (p + 1 + 2)%Z with (p + 3)%Z by lia. reflexivity.
Qed.

Lemma const_index_out_of_range_yields_none_witness :
  parse_byte_and_args dis_classic
    (one_frame bad_const_code VNone VNone VNone [] 0 [])
  = (one_frame bad_const_code VNone VNone VNone [] 3 [], Ok ("LOAD_CONST", [VNone])).
Proof.
  apply (const_index_out_of_range_yields_none dis_classic
           (one_frame bad_const_code VNone VNone VNone [] 0 []) _ 0 100 5 0
           "LOAD_CONST" eq_refl eq_refl).
  - lia.
  - reflexivity.
  - reflexivity.
  - reflexivity.
  - reflexivity.
  - simpl. lia.
  - reflexivity.
  - simpl. lia.
Defined.

(** C5, as stated, fails.  [LOAD_CONST] is a constant-index opcode of the
    table, its operand index 5 is out of range for the empty constant pool, and
    decoding returns normally, with the operand [None]; no fault is raised. *)
Lemma const_index_out_of_range_no_fault :
  mem_Z 100 (hasconst dis_classic) = true
  /\ (Z.of_nat (length (co_consts bad_const_code)) <= Z.lor 5 (Z.shiftl 0 8))%Z
  /\ snd (parse_byte_and_args dis_classic
            (one_frame bad_const_code VNone VNone VNone [] 0 []))
     = Ok ("LOAD_CONST", [VNone])
  /\ forall c e,
       snd (parse_byte_and_args dis_classic
              (one_frame bad_const_code VNone VNone VNone [] 0 []))
       <> Raise c e.
Proof.
  repeat split; try reflexivity.
  - simpl. lia.
  - intros c e. vm_compute. discriminate.
Qed.

(** ** Stack and mapping primitives *)

Lemma push_eq vm f vals :
  vm_frame vm = Some f ->
  push vals vm = (with_frame vm (set_stack f (stack f ++ vals)), Ok tt).
Proof.
  intros Hf. unfold push. now rewrite (bind_ok _ _ _ _ _ (the_frame_ok _ _ Hf)).
Qed.

Lemma contains_dict host vm ns a d k :
  as_dict (heap vm) ns = Some (a, d) ->
  hashable (heap vm) k = true ->
  contains host ns k vm = (vm, Ok (dict_mem k d)).
Proof. intros Hd Hk. unfold contains, bind, get_vm. now rewrite Hd, Hk. Qed.

Lemma getitem_dict host vm ns a d k :
  as_dict (heap vm) ns = Some (a, d) ->
  hashable (heap vm) k = true ->
  getitem host ns k vm =
    match dict_get k d with
    | Some v => (vm, Ok v)
    | None => (vm, Raise KeyError k)
    end.
Proof.
  intros Hd Hk. unfold getitem, bind, get_vm. rewrite Hd, Hk.
  now destruct (dict_get k d).
Qed.

(** ** Scope resolution *)

(** C2.  [LOAD_NAME] looks the name up in the locals, then in the globals,
    then in the builtins of the frame, pushes the value of the first mapping
    that has it, and raises [NameError] when none has it.  [LOAD_FAST] looks
    in the locals only and raises [UnboundLocalError], not [NameError], when
    the name is absent there, whatever the globals and builtins hold. *)
Theorem name_resolution_order
  (host : host_t) (vm : VirtualMachine) (f : Frame) (name : string)
  (al : nat) (dl : list (value * value)) :
  vm_frame vm = Some f ->
  as_dict (heap vm) (f_locals f) = Some (al, dl) ->
  let pushed v := (with_frame vm (set_stack f (stack f ++ [v])), Ok tt) in
  (forall ag dg ab db,
     as_dict (heap vm) (f_globals f) = Some (ag, dg) ->
     as_dict (heap vm) (f_builtins f) = Some (ab, db) ->
     byte_LOAD_NAME host (VStr name) vm =
       match dict_get (VStr name) dl with
       | Some v => pushed v
       | None =>
           match dict_get (VStr name) dg with
           | Some v => pushed v
           | None =>
               match dict_get (VStr name) db with
               | Some v => pushed v
               | None =>
                   (vm, Raise NameError
                          (VStr ("name '" ++ name ++ "' is not defined")))
               end
           end
       end)
  /\
  byte_LOAD_FAST host (VStr name) vm =
    match dict_get (VStr name) dl with
    | Some v => pushed v
    | None =>
        (vm, Raise UnboundLocalError
               (VStr ("local variable '" ++ name
                      ++ "' referenced before assignment")))
    end.
Proof.
  intros Hf Hl pushed. split.
  - intros ag dg ab db Hg Hb. unfold byte_LOAD_NAME.
    rewrite (bind_ok _ _ _ _ _ (the_frame_ok _ _ Hf)).
    rewrite (bind_ok _ _ _ _ _ (contains_dict host _ _ _ _ (VStr name) Hl eq_refl)).
    unfold dict_mem. destruct (dict_get (VStr name) dl) as [v|] eqn:El.
    + unfold bind at 1. rewrite (getitem_dict host _ _ _ _ (VStr name) Hl eq_refl), El.
      now rewrite (push_eq _ _ _ Hf).
    + unfold bind at 1.
      rewrite (bind_ok _ _ _ _ _ (contains_dict host _ _ _ _ (VStr name) Hg eq_refl)).
      unfold dict_mem. destruct (dict_get (VStr name) dg) as [v|] eqn:Eg.
      * rewrite (getitem_dict host _ _ _ _ (VStr name) Hg eq_refl), Eg.
        now rewrite (push_eq _ _ _ Hf).
      * rewrite (bind_ok _ _ _ _ _ (contains_dict host _ _ _ _ (VStr name) Hb eq_refl)).
        unfold dict_mem. destruct (dict_get (VStr name) db) as [v|] eqn:Eb.
        -- rewrite (getitem_dict host _ _ _ _ (VStr name) Hb eq_refl), Eb.
           now rewrite (push_eq _ _ _ Hf).
        -- reflexivity.
  - unfold byte_LOAD_FAST.
    rewrite (bind_ok _ _ _ _ _ (the_frame_ok _ _ Hf)).
    rewrite (bind_ok _ _ _ _ _ (contains_dict host _ _ _ _ (VStr name) Hl eq_refl)).
    unfold dict_mem. destruct (dict_get (VStr name) dl) as [v|] eqn:El.
    + unfold bind at 1. rewrite (getitem_dict host _ _ _ _ (VStr name) Hl eq_refl), El.
      now rewrite (push_eq _ _ _ Hf).
    + reflexivity.
Qed.

Lemma name_resolution_order_witness :
  byte_LOAD_NAME int_host (VStr "y") scope_vm
  = (with_frame scope_vm
       (mkFrame (Code [] [] [] ["x"; "y"] 0 "scopes") (VRef 1) (VRef 0)
          [VInt 2] [] (VInt 0) (VRef 2)), Ok tt)
  /\ byte_LOAD_FAST int_host (VStr "y") scope_vm
     = (scope_vm,
        Raise UnboundLocalError
          (VStr "local variable 'y' referenced before assignment")).
Proof.
  pose proof (name_resolution_order int_host scope_vm _ "y" 0 _ eq_refl eq_refl)
    as [Hname Hfast].
  split.
  - exact (Hname 1 _ 2 _ eq_refl eq_refl).
  - exact Hfast.
Defined.

(** ** Building instructions *)

(** C10.  Whatever its operand, [BUILD_MAP] allocates a dictionary with no
    items at an address that was not in use, pushes the reference to it on top
    of the operand stack, and leaves the values below and all other objects as
    they were: nothing is popped and the operand is not read. *)
Theorem build_map_pushes_fresh_empty_dict
  (vm : VirtualMachine) (f : Frame) (size : value) :
  vm_frame vm = Some f ->
  let a := length (heap vm) in
  nth_error (heap vm) a = None
  /\ byte_BUILD_MAP size vm =
       (with_frame (set_heap vm (heap vm ++ [ODict []]))
          (set_stack f (stack f ++ [VRef a])), Ok tt)
  /\ nth_error (heap vm ++ [ODict []]) a = Some (ODict []).
Proof.
  intros Hf a. repeat split.
  - apply nth_error_None. subst a. lia.
  - unfold byte_BUILD_MAP, bind, alloc.
    assert (Hf' : vm_frame (set_heap vm (heap vm ++ [ODict []])) = Some f)
      by exact Hf.
    now rewrite (push_eq _ _ _ Hf').
  - subst a. rewrite nth_error_app2 by lia. now rewrite Nat.sub_diag.
Qed.

Lemma build_map_pushes_fresh_empty_dict_witness :
  byte_BUILD_MAP (VInt 7) scope_vm =
    (with_frame (set_heap scope_vm (scope_heap ++ [ODict []]))
       (mkFrame (Code [] [] [] ["x"; "y"] 0 "scopes") (VRef 1) (VRef 0)
          [VRef 3] [] (VInt 0) (VRef 2)), Ok tt).
Proof.
  exact (proj1 (proj2 (build_map_pushes_fresh_empty_dict scope_vm _ (VInt 7) eq_refl))).
Defined.

(** ** Dispatch *)

(** C6.  An opcode name for which the class has no method [byte_<name>] and
    which starts with neither [UNARY_] nor [BINARY_] is ignored by [dispatch]:
    the machine is left as it was, with the operand stack, the block stack and
    the instruction pointer of its frame, and no signal is produced. *)
Theorem unknown_opcode_is_ignored
  (host : host_t) (call : Function -> list value -> M value)
  (byte_name : string) (argument : list value) (vm : VirtualMachine) :
  assoc byte_name (byte_handlers host call) = None ->
  String.prefix "UNARY_" byte_name = false ->
  String.prefix "BINARY_" byte_name = false ->
  dispatch host call byte_name argument vm = (vm, None).
Proof.
  intros Hnone Hun Hbin.
  unfold dispatch, dispatch_try.
  destruct (String.eqb byte_name "BEFORE_ASYNC_WITH") eqn:E.
  - apply String.eqb_eq in E. subst. vm_compute in Hnone. discriminate.
  - cbn [andb]. rewrite Hnone, Hun, Hbin. reflexivity.
Qed.

Lemma unknown_opcode_is_ignored_witness :
  dispatch int_host no_calls "NOP" [] scope_vm = (scope_vm, None).
Proof.
  apply unknown_opcode_is_ignored; reflexivity.
Defined.



(** ** Block unwinding *)

Lemma set_stack_same f : set_stack f (stack f) = f.
Proof. now destruct f. Qed.

Lemma pop_eq vm f s v :
  vm_frame vm = Some f -> stack f = s ++ [v] ->
  pop vm = (with_frame vm (set_stack f s), Ok v).
Proof.
  intros Hf Hs. unfold pop.
  rewrite (bind_ok _ _ _ _ _ (the_frame_ok _ _ Hf)), Hs, unsnoc_snoc.
  now rewrite (bind_ok _ _ _ _ _ (put_frame_eq _ _)).
Qed.

Lemma firstn_snoc_le {A} (l : list A) (x : A) (n : nat) :
  n <= length l -> firstn n (l ++ [x]) = firstn n l.
Proof.
  intros H. rewrite firstn_app. replace (n - length l) with 0 by lia.
  simpl. apply app_nil_r.
Qed.

(** The loop of [unwind_block] cuts the stack down to the target height, and
    leaves a stack that is not higher as it is. *)
Lemma unwind_pops_truncates turns target :
  forall vm f,
    vm_frame vm = Some f ->
    length (stack f) <= turns ->
    unwind_pops turns target vm =
      (with_frame vm (set_stack f (firstn target (stack f))), Ok tt).
Proof.
  induction turns as [|turns IH]; intros vm f Hf Hlen.
  - simpl. destruct (stack f) eqn:Es; [|simpl in Hlen; lia].
    rewrite firstn_nil, <- Es, set_stack_same, (with_frame_same _ _ Hf).
    reflexivity.
  - simpl. rewrite (bind_ok _ _ _ _ _ (the_frame_ok _ _ Hf)).
    destruct (Nat.ltb_spec target (length (stack f))) as [Hlt|Hge].
    + assert (Hne : stack f <> []) by (destruct (stack f); simpl in *; [lia|discriminate]).
      destruct (exists_last Hne) as (s & v & Es).
      rewrite (bind_ok _ _ _ _ _ (pop_eq _ _ _ _ Hf Es)).
      rewrite Es, length_app in Hlt, Hlen. simpl in Hlt, Hlen.
      rewrite (IH _ _ (vm_frame_with_frame _ _)) by (simpl; lia).
      rewrite with_frame_twice, Es. simpl.
      rewrite firstn_snoc_le by lia. reflexivity.
    + rewrite firstn_all2 by lia.
      now rewrite set_stack_same, (with_frame_same _ _ Hf).
Qed.

Lemma popn_eq vm f n :
  vm_frame vm = Some f -> (n <> 0)%Z ->
  popn n vm =
    (with_frame vm (set_stack f (py_delete_from (stack f) (- n))),
     Ok (py_slice_from (stack f) (- n))).
Proof.
  intros Hf Hn. unfold popn. destruct (Z.eqb_spec n 0); [contradiction|].
  rewrite (bind_ok _ _ _ _ _ (the_frame_ok _ _ Hf)).
  now rewrite (bind_ok _ _ _ _ _ (put_frame_eq _ _)).
Qed.

Lemma skipn_firstn_add {A} (l : list A) (n m : nat) :
  skipn n (firstn (n + m) l) = firstn m (skipn n l).
Proof.
  revert l. induction n as [|n IH]; intros l; [reflexivity|].
  destruct l; simpl; [now rewrite firstn_nil|apply IH].
Qed.

(** C3.  [unwind_block] cuts the operand stack of the frame back to the
    recorded [stack_height] of the block: the values below that height stay,
    the values above go, and a stack that holds at least that many values ends
    with exactly that many.  For an [except-handler] block the three values
    above the recorded height are kept by the loop and then popped together as
    (traceback, value, type); they become the last exception, as
    (type, value, traceback). *)
Theorem unwind_block_restores_height
  (vm : VirtualMachine) (f : Frame) (block : Block) :
  vm_frame vm = Some f ->
  let h := stack_height block in
  (type block <> "except-handler" ->
   unwind_block block vm = (with_frame vm (set_stack f (firstn h (stack f))), Ok tt)
   /\ (h <= length (stack f) -> length (firstn h (stack f)) = h))
  /\
  (type block = "except-handler" ->
   forall traceback value exctype,
     firstn 3 (skipn h (stack f)) = [traceback; value; exctype] ->
     unwind_block block vm =
       (set_last_exception
          (with_frame vm (set_stack f (firstn h (stack f))))
          (Some (exctype, value, traceback)), Ok tt)
     /\ length (firstn h (stack f)) = h).
Proof.
  intros Hf h. split.
  - intros Hty. apply String.eqb_neq in Hty. split.
    + unfold unwind_block. rewrite Hty.
      rewrite (bind_ok _ _ _ _ _ (the_frame_ok _ _ Hf)).
      rewrite (bind_ok _ _ _ _ _ (unwind_pops_truncates _ _ _ _ Hf (le_n _))).
      now rewrite Nat.add_0_r.
    + intros Hle. apply firstn_length_le. exact Hle.
  - intros Hty traceback value exctype Htop.
    assert (Hlen : h + 3 <= length (stack f)).
    { assert (H3 : length (firstn 3 (skipn h (stack f))) = 3) by now rewrite Htop.
      rewrite length_firstn, length_skipn in H3. lia. }
    split; [|apply firstn_length_le; lia].
    unfold unwind_block. rewrite Hty, (proj2 (String.eqb_eq _ _) eq_refl).
    rewrite (bind_ok _ _ _ _ _ (the_frame_ok _ _ Hf)).
    rewrite (bind_ok _ _ _ _ _ (unwind_pops_truncates _ _ _ _ Hf (le_n _))).
    fold h.
    rewrite (bind_ok _ _ _ _ _
               (popn_eq _ _ 3 (vm_frame_with_frame _ _) ltac:(discriminate))).
    rewrite with_frame_twice. cbn [stack set_stack].
    unfold py_slice_from, py_delete_from, slice_bound.
    rewrite firstn_length_le by lia.
    change (- (3) <? 0)%Z with true. cbv iota.
    replace (Z.to_nat (Z.max 0 (Z.of_nat (h + 3) + - (3)))) with h by lia.
    rewrite skipn_firstn_add, Htop.
    rewrite firstn_firstn. replace (Nat.min h (h + 3)) with h by lia.
    reflexivity.
Qed.

Lemma unwind_block_restores_height_witness :
  unwind_block (mkBlock "loop" (VInt 0) 2) five_vm
  = (with_frame five_vm
       (mkFrame (Code [] [] [] [] 0 "five") VNone VNone [VInt 1; VInt 2] []
          (VInt 0) VNone), Ok tt)
  /\ unwind_block (mkBlock "except-handler" VNone 1) handler_vm
     = (set_last_exception
          (with_frame handler_vm
             (mkFrame (Code [] [] [] [] 0 "handler") VNone VNone [VInt 9] []
                (VInt 0) VNone))
          (Some (VExcClass KeyError, VExcInst KeyError (VStr "k"), VNone)), Ok tt).
Proof.
  split.
  - exact (proj1 (proj1 (unwind_block_restores_height five_vm _
                           (mkBlock "loop" (VInt 0) 2) eq_refl)
                    ltac:(discriminate))).
  - exact (proj1 (proj2 (unwind_block_restores_height handler_vm _
                           (mkBlock "except-handler" VNone 1) eq_refl)
                    eq_refl _ _ _ eq_refl)).
Defined.

(** ** The turns of the unwinding loop are enough *)

Lemma current_blocks_with_frame vm f :
  current_blocks (with_frame vm f) = length (block_stack f).
Proof. unfold current_blocks. now rewrite vm_frame_with_frame. Qed.

Lemma current_blocks_frame vm f :
  vm_frame vm = Some f -> current_blocks vm = length (block_stack f).
Proof. unfold current_blocks. now intros ->. Qed.

Lemma pop_blocks vm vm' r :
  pop vm = (vm', r) -> current_blocks vm' = current_blocks vm.
Proof.
  unfold pop, the_frame, bind.
  destruct (vm_frame vm) as [f|] eqn:Hf; [|now intros [= <- _]].
  destruct (unsnoc (stack f)) as [[s v]|]; [|now intros [= <- _]].
  rewrite put_frame_eq. intros [= <- _].
  now rewrite current_blocks_with_frame, (current_blocks_frame _ _ Hf).
Qed.

Lemma unwind_pops_blocks turns target : forall vm vm' r,
  unwind_pops turns target vm = (vm', r) -> current_blocks vm' = current_blocks vm.
Proof.
  induction turns as [|turns IH]; intros vm vm' r; simpl.
  - now intros [= <- _].
  - unfold bind at 1, the_frame.
    destruct (vm_frame vm) as [f|]; [|now intros [= <- _]].
    destruct (target <? length (stack f))%nat; [|now intros [= <- _]].
    unfold bind. destruct (pop vm) as [vm1 [v|c e]] eqn:E; apply pop_blocks in E.
    + intros H. apply IH in H. congruence.
    + intros [= <- _]. exact E.
Qed.

Lemma popn_blocks n vm vm' r :
  popn n vm = (vm', r) -> current_blocks vm' = current_blocks vm.
Proof.
  unfold popn. destruct (n =? 0)%Z; [now intros [= <- _]|].
  unfold bind, the_frame.
  destruct (vm_frame vm) as [f|] eqn:Hf; [|now intros [= <- _]].
  rewrite put_frame_eq. intros [= <- _].
  now rewrite current_blocks_with_frame, (current_blocks_frame _ _ Hf).
Qed.

Lemma unwind_block_blocks block vm vm' r :
  unwind_block block vm = (vm', r) -> current_blocks vm' = current_blocks vm.
Proof.
  unfold unwind_block, bind at 1, the_frame.
  destruct (vm_frame vm) as [f|]; [|now intros [= <- _]].
  unfold bind at 1.
  destruct (unwind_pops _ _ vm) as [vm1 [[]|c e]] eqn:E1;
    apply unwind_pops_blocks in E1; [|intros [= <- _]; exact E1].
  destruct (String.eqb (type block) "except-handler"); [|intros [= <- _]; exact E1].
  unfold bind.
  destruct (popn 3 vm1) as [vm2 [l|c e]] eqn:E2; apply popn_blocks in E2;
    [|intros [= <- _]; congruence].
  destruct l as [|t [|v [|x [|]]]]; intros [= <- _]; simpl; try congruence.
  unfold current_blocks, vm_frame in *. simpl. congruence.
Qed.

(** A turn that leaves a signal has popped one block of the current frame. *)
Lemma manage_block_stack_leaves_signal w vm vm' w' :
  manage_block_stack w vm = (vm', Ok (Some w')) ->
  current_blocks vm = S (current_blocks vm').
Proof.
  unfold manage_block_stack, bind at 1, the_frame.
  destruct (vm_frame vm) as [f|] eqn:Hf; [|discriminate].
  destruct (unsnoc (block_stack f)) as [[bs block]|] eqn:Hb; [|discriminate].
  assert (Hlen : length (block_stack f) = S (length bs)).
  { unfold unsnoc in Hb. destruct (block_stack f) as [|x l] eqn:E; [discriminate|].
    injection Hb as <- _.
    assert (H : x :: l = removelast (x :: l) ++ [last (x :: l) x])
      by (apply app_removelast_last; discriminate).
    apply (f_equal (@length _)) in H. rewrite length_app in H.
    simpl in H |- *. lia. }
  destruct (_ && _).
  { unfold bind at 1, get_vm. unfold bind.
    destruct (jump (return_value vm) vm) as [? [|]]; discriminate. }
  unfold bind at 1, pop_block, bind at 1, the_frame. rewrite Hf, Hb.
  unfold bind at 1. rewrite put_frame_eq. unfold ret.
  set (vm1 := with_frame vm (set_block_stack f bs)).
  assert (H1 : current_blocks vm1 = length bs)
    by (unfold vm1; now rewrite current_blocks_with_frame).
  unfold bind at 1.
  destruct (unwind_block block vm1) as [vm2 [[]|c e]] eqn:E; [|discriminate].
  apply unwind_block_blocks in E.
  destruct (_ && _).
  { unfold bind. destruct (jump (handler block) vm2) as [? [|]]; discriminate. }
  destruct (_ && _).
  { unfold bind at 1.
    destruct (push_block "except-handler" VNone vm2) as [va [|]]; [|discriminate].
    unfold bind at 1, get_vm.
    destruct (last_exception va) as [[[? ?] ?]|]; [|discriminate].
    unfold bind at 1. destruct (push _ va) as [vb [|]]; [|discriminate].
    unfold bind at 1. destruct (push _ vb) as [vc [|]]; [|discriminate].
    unfold bind. destruct (jump _ vc) as [? [|]]; discriminate. }
  destruct (String.eqb (type block) "finally").
  { unfold bind at 1.
    match goal with
    | |- context [(if ?c then ?x else ?y) vm2] =>
        destruct ((if c then x else y) vm2) as [va [|]]; [|discriminate]
    end.
    unfold bind at 1. destruct (push _ va) as [vb [|]]; [|discriminate].
    unfold bind. destruct (jump _ vb) as [? [|]]; discriminate. }
  intros [= <- _]. rewrite (current_blocks_frame _ _ Hf). lia.
Qed.

Lemma unwind_signal_none turns idx vm : unwind_signal turns idx None vm = (vm, Ok None).
Proof. now destruct turns. Qed.

Lemma unwind_signal_turn turns idx w vm :
  unwind_signal (S turns) idx (Some w) vm
  = match blocks_at idx vm with
    | [] => (vm, Ok (Some w))
    | _ :: _ =>
        match manage_block_stack w vm with
        | (vm', Ok why') => unwind_signal turns idx why' vm'
        | (vm', Raise c e) => (vm', Raise c e)
        end
    end.
Proof.
  cbn [unwind_signal]. unfold bind at 1, get_vm.
  destruct (blocks_at idx vm); reflexivity.
Qed.

(** More turns than one above the number of blocks of the current frame
    change nothing: the loop has ended by then. *)
Lemma unwind_signal_turns_enough k : forall vm,
  current_blocks vm = k ->
  forall extra idx why,
    unwind_signal (S k + extra) idx why vm = unwind_signal (S k) idx why vm.
Proof.
  induction k as [|k IH]; intros vm Hk extra idx [w|];
    try (now rewrite !unwind_signal_none);
    change (S ?n + extra) with (S (n + extra)); rewrite !unwind_signal_turn;
    destruct (blocks_at idx vm); try reflexivity;
    destruct (manage_block_stack w vm) as [vm' [[w'|]|c e]] eqn:E;
    try reflexivity; try (now rewrite !unwind_signal_none);
    apply manage_block_stack_leaves_signal in E.
  - lia.
  - apply (IH vm'). lia.
Qed.

(** ** The execution loop *)

Lemma run_loop_step dis host call idx n vm :
  run_loop dis host call idx n vm =
    match step dis host call idx vm with
    | (vm', Raise c e) => (vm', Raise c e)
    | (vm', Ok (Some w)) => (vm', Ok (Some w, n))
    | (vm', Ok None) =>
        if (S n <=? 100)%nat then run_loop dis host call idx (S n) vm'
        else (vm', Ok (None, S n))
    end.
Proof.
  rewrite run_loop_equation_1. unfold step.
  destruct (parse_byte_and_args dis vm) as [vm1 [[byte_name arguments]|c e]];
    [|reflexivity].
  cbn -[unwind_signal Nat.leb le_lt_dec].
  destruct (dispatch host call byte_name arguments vm1) as [vm2 why].
  cbn -[unwind_signal Nat.leb le_lt_dec].
  destruct (unwind_signal (S (current_blocks vm2)) idx why vm2)
    as [vm3 [[w|]|c e]]; cbn -[unwind_signal Nat.leb le_lt_dec]; try reflexivity.
  destruct (le_lt_dec (S n) 100) as [Hle|Hgt]; cbn -[unwind_signal Nat.leb le_lt_dec].
  - destruct (Nat.leb_spec (S n) 100); [reflexivity|lia].
  - destruct (Nat.leb_spec (S n) 100); [lia|reflexivity].
Qed.

Lemma run_loop_is_steps dis host call idx k :
  forall n vm, n + k = 101 -> 0 < k ->
  run_loop dis host call idx n vm = steps dis host call k idx n vm.
Proof.
  induction k as [|k IH]; intros n vm Hn Hk; [lia|].
  rewrite run_loop_step. cbn [steps].
  destruct (step dis host call idx vm) as [vm' [[w|]|c e]]; try reflexivity.
  destruct (Nat.leb_spec (S n) 100).
  - apply IH; lia.
  - assert (k = 0) by lia. subst k. reflexivity.
Qed.

Lemma steps_no_signal_count dis host call idx k :
  forall n vm vm' m,
    steps dis host call k idx n vm = (vm', Ok (None, m)) -> m = n + k.
Proof.
  induction k as [|k IH]; intros n vm vm' m H; cbn [steps] in H.
  - injection H as _ <-. lia.
  - destruct (step dis host call idx vm) as [vm1 [[w|]|c e]]; try discriminate.
    apply IH in H. lia.
Qed.

Lemma run_frame_leave dis host call frame vm :
  run_frame dis host call frame vm =
    match steps dis host call 101 (length (frames vm)) 0
            (set_frames vm (frames vm ++ [frame])) with
    | (vm', Ok (why, _)) => leave_frame host call why vm'
    | (vm', Raise c e) => (vm', Raise c e)
    end.
Proof.
  rewrite <- run_loop_is_steps by lia.
  unfold run_frame, bind at 1, get_vm.
  unfold bind at 1, push_frame.
  unfold bind at 1.
  destruct (run_loop dis host call (length (frames vm)) 0
              (set_frames vm (frames vm ++ [frame]))) as [vm' [[why n]|c e]];
    reflexivity.
Qed.



(** ** The call stack never shrinks inside a frame *)

Lemma keeps_ret {A} (a : A) : keeps_frames (ret a).
Proof. intros vm vm' r [= <- _]. lia. Qed.

Lemma keeps_raise {A} c e : keeps_frames (@raise A c e).
Proof. intros vm vm' r [= <- _]. lia. Qed.

Lemma keeps_lift {A} (x : result A) : keeps_frames (lift x).
Proof. intros vm vm' r [= <- _]. lia. Qed.

Lemma keeps_get_vm : keeps_frames get_vm.
Proof. intros vm vm' r [= <- _]. lia. Qed.

Lemma keeps_bind {A B} (m : M A) (k : A -> M B) :
  keeps_frames m -> (forall a, keeps_frames (k a)) -> keeps_frames (bind m k).
Proof.
  intros Hm Hk vm vm' r. unfold bind.
  destruct (m vm) as [vm1 [a|c e]] eqn:E; intros H.
  - apply Hm in E. apply Hk in H. lia.
  - injection H as <- _. now apply Hm in E.
Qed.

Lemma keeps_the_frame : keeps_frames the_frame.
Proof.
  intros vm vm' r. unfold the_frame. destruct (vm_frame vm); intros [= <- _]; lia.
Qed.

Lemma keeps_put_frame f : keeps_frames (put_frame f).
Proof.
  intros vm vm' r [= <- _]. simpl. rewrite length_app. simpl.
  destruct (frames vm) as [|x l]; [simpl; lia|].
  assert (H : x :: l = removelast (x :: l) ++ [last (x :: l) x])
    by (apply app_removelast_last; discriminate).
  apply (f_equal (@length _)) in H. rewrite length_app in H.
  simpl in H |- *. lia.
Qed.

Lemma keeps_heap_only {A} (m : M A) :
  (forall vm, frames (fst (m vm)) = frames vm) -> keeps_frames m.
Proof. intros H vm vm' r E. specialize (H vm). rewrite E in H. simpl in H. rewrite H. lia. Qed.

Lemma keeps_alloc o : keeps_frames (alloc o).
Proof. now apply keeps_heap_only. Qed.

Lemma keeps_heap_store a o : keeps_frames (heap_store a o).
Proof. now apply keeps_heap_only. Qed.

Lemma keeps_hostM host op args : keeps_frames (hostM host op args).
Proof.
  apply keeps_heap_only. intros vm. unfold hostM.
  now destruct (host op args (heap vm)).
Qed.

Lemma keeps_push_frame f : keeps_frames (push_frame f).
Proof. intros vm vm' r [= <- _]. simpl. rewrite length_app. lia. Qed.

Create HintDb keeps.
#[local] Hint Resolve keeps_ret keeps_raise keeps_lift keeps_get_vm keeps_the_frame
  keeps_put_frame keeps_alloc keeps_heap_store keeps_hostM : keeps.

Ltac keeps_frames_step :=
  match goal with
  | |- keeps_frames (bind _ _) => apply keeps_bind; [|intros]
  | |- keeps_frames (match ?x with _ => _ end) => destruct x
  | |- keeps_frames (fun vm => (set_return_value vm _, _)) =>
      apply keeps_heap_only; reflexivity
  | |- keeps_frames (fun vm => (set_last_exception vm _, _)) =>
      apply keeps_heap_only; reflexivity
  | |- keeps_frames _ => solve [auto with keeps]
  end.

Ltac keeps := repeat keeps_frames_step.

Lemma keeps_truthy host v : keeps_frames (truthy host v).
Proof. unfold truthy. destruct v; keeps. Qed.
#[local] Hint Resolve keeps_truthy : keeps.

Lemma keeps_contains host ns k : keeps_frames (contains host ns k).
Proof. unfold contains, unhashable. keeps. Qed.
Lemma keeps_getitem host ns k : keeps_frames (getitem host ns k).
Proof. unfold getitem, unhashable. keeps. Qed.
Lemma keeps_setitem host ns k v : keeps_frames (setitem host ns k v).
Proof. unfold setitem, unhashable. keeps. Qed.
Lemma keeps_update host ns items : keeps_frames (update host ns items).
Proof. unfold update. keeps. Qed.
#[local] Hint Resolve keeps_contains keeps_getitem keeps_setitem keeps_update : keeps.

Lemma keeps_top : keeps_frames top.
Proof. unfold top. keeps. Qed.
Lemma keeps_pop : keeps_frames pop.
Proof. unfold pop. keeps. Qed.
Lemma keeps_push vals : keeps_frames (push vals).
Proof. unfold push. keeps. Qed.
Lemma keeps_popn n : keeps_frames (popn n).
Proof. unfold popn. keeps. Qed.
#[local] Hint Resolve keeps_top keeps_pop keeps_push keeps_popn : keeps.
Lemma keeps_popn_value host n : keeps_frames (popn_value host n).
Proof. unfold popn_value. keeps. Qed.
Lemma keeps_popn_pair : keeps_frames popn_pair.
Proof. unfold popn_pair. keeps. Qed.
Lemma keeps_stack_from_top i : keeps_frames (stack_from_top i).
Proof. unfold stack_from_top. keeps. Qed.
Lemma keeps_jump t : keeps_frames (jump t).
Proof. unfold jump. keeps. Qed.
Lemma keeps_push_block t h : keeps_frames (push_block t h).
Proof. unfold push_block. keeps. Qed.
Lemma keeps_pop_block : keeps_frames pop_block.
Proof. unfold pop_block. keeps. Qed.
#[local] Hint Resolve keeps_popn_value keeps_popn_pair keeps_stack_from_top keeps_jump
  keeps_push_block keeps_pop_block : keeps.

Lemma keeps_unwind_pops turns target : keeps_frames (unwind_pops turns target).
Proof. induction turns; simpl; keeps. Qed.
#[local] Hint Resolve keeps_unwind_pops : keeps.

Lemma keeps_unwind_block b : keeps_frames (unwind_block b).
Proof. unfold unwind_block. keeps. Qed.
#[local] Hint Resolve keeps_unwind_block : keeps.

Lemma keeps_manage_block_stack w : keeps_frames (manage_block_stack w).
Proof. unfold manage_block_stack. keeps. Qed.
#[local] Hint Resolve keeps_manage_block_stack : keeps.

Lemma keeps_unwind_signal turns idx why : keeps_frames (unwind_signal turns idx why).
Proof. revert why. induction turns; intros why; simpl; keeps. Qed.

Lemma keeps_parse dis : keeps_frames (parse_byte_and_args dis).
Proof. unfold parse_byte_and_args, index_error. keeps. Qed.
#[local] Hint Resolve keeps_unwind_signal keeps_parse : keeps.

Section KeepsFrames.

Variable dis : Dis.
Variable host : host_t.
Variable builtins : value.
Variable call : Function -> list value -> M value.
Hypothesis keeps_call : forall fn args, keeps_frames (call fn args).

Lemma keeps_py_call func posargs : keeps_frames (py_call host call func posargs).
Proof. unfold py_call. keeps. Qed.

Lemma keeps_Function_init name code globs defaults closure :
  keeps_frames (Function_init host name code globs defaults closure).
Proof. unfold Function_init. keeps. Qed.

#[local] Hint Resolve keeps_py_call keeps_Function_init : keeps.

Lemma keeps_byte_FOR_ITER target : keeps_frames (byte_FOR_ITER host target).
Proof.
  unfold byte_FOR_ITER. apply keeps_bind; [auto with keeps|]. intros it vm vm' r.
  destruct (hostM host HNext [it] vm) as [vm1 [v|c e]] eqn:E;
    apply keeps_hostM in E; intros H.
  - apply keeps_push in H. lia.
  - destruct c; try (injection H as <- _; lia).
    assert (K : keeps_frames (pop ;; jump target)) by keeps.
    apply K in H. lia.
Qed.

#[local] Hint Resolve keeps_byte_FOR_ITER : keeps.

Lemma keeps_handlers name m :
  assoc name (byte_handlers host call) = Some m ->
  forall argument, keeps_frames (m argument).
Proof.
  unfold byte_handlers. cbn [assoc].
  repeat match goal with
         | |- (if ?b then _ else _) = _ -> _ =>
             destruct b;
             [ intros [= <-] argument;
               unfold no_operand, no_operand_why, one_operand, optional_operand,
                 wrong_arity, byte_COMPARE_OP, byte_LOAD_CONST, byte_POP_TOP,
                 byte_LOAD_NAME, byte_STORE_NAME, byte_LOAD_FAST, byte_STORE_FAST,
                 byte_LOAD_GLOBAL, byte_LOAD_ATTR, byte_STORE_ATTR, byte_BUILD_LIST,
                 byte_BUILD_MAP, byte_STORE_MAP, byte_LIST_APPEND, byte_JUMP_FORWARD,
                 byte_JUMP_ABSOLUTE, byte_POP_JUMP_IF_TRUE, byte_POP_JUMP_IF_FALSE,
                 byte_SETUP_LOOP, byte_GET_ITER, byte_BREAK_LOOP, byte_POP_BLOCK,
                 byte_MAKE_FUNCTION, byte_CALL_FUNCTION, byte_RETURN_VALUE,
                 byte_pass, byte_CALL, byte_COPY, byte_SWAP,
                 byte_LOAD_FAST_LOAD_FAST, byte_BINARY_OP, index_error, unhashable;
               keeps
             | ]
         end.
  discriminate.
Qed.

Lemma keeps_dispatch_try name argument :
  keeps_frames (dispatch_try host call name argument).
Proof.
  unfold dispatch_try.
  destruct (_ && _).
  - unfold byte_LOAD_FAST_LOAD_FAST. keeps.
  - destruct (assoc name (byte_handlers host call)) as [m|] eqn:E.
    + exact (keeps_handlers _ _ E argument).
    + unfold unaryOperator, binaryOperator. keeps.
Qed.

Lemma dispatch_keeps name argument vm vm' why :
  dispatch host call name argument vm = (vm', why) ->
  length (frames vm) <= length (frames vm').
Proof.
  unfold dispatch.
  destruct (dispatch_try host call name argument vm) as [vm1 [w|c e]] eqn:E;
    apply keeps_dispatch_try in E; intros [= <- _]; simpl; lia.
Qed.

Lemma keeps_step idx : keeps_frames (step dis host call idx).
Proof.
  intros vm vm' r. unfold step.
  destruct (parse_byte_and_args dis vm) as [vm1 [[name argument]|c e]] eqn:E1;
    apply keeps_parse in E1; [|intros [= <- _]; lia].
  destruct (dispatch host call name argument vm1) as [vm2 why] eqn:E2.
  apply dispatch_keeps in E2. intros E3. apply keeps_unwind_signal in E3. lia.
Qed.

Lemma steps_keep k idx : forall n vm vm' r,
  steps dis host call k idx n vm = (vm', r) ->
  length (frames vm) <= length (frames vm').
Proof.
  induction k as [|k IH]; intros n vm vm' r; cbn [steps].
  - intros [= <- _]. lia.
  - destruct (step dis host call idx vm) as [vm1 [[w|]|c e]] eqn:E;
      apply keeps_step in E; intros H.
    + injection H as <- _. lia.
    + apply IH in H. lia.
    + injection H as <- _. lia.
Qed.

Lemma keeps_leave_frame why vm vm' r :
  leave_frame host call why vm = (vm', r) ->
  length (frames vm) <= S (length (frames vm')).
Proof.
  unfold leave_frame, bind at 1, pop_frame.
  destruct (frames vm) as [|x l] eqn:E; [intros [= <- _]; rewrite E; simpl; lia|].
  intros H.
  assert (K : keeps_frames
                match why with
                | Some WException =>
                    vm <- get_vm ;;
                    match last_exception vm with
                    | None => raise TypeError (VStr "cannot unpack non-iterable NoneType object")
                    | Some (exc, val, tb) =>
                        e <- py_call host call exc [val] ;;
                        match e, tb with
                        | VExcInst c a, VNone => raise c a
                        | VExcInst c a, _ =>
                            hostM host HSetAttr [e; VStr "__traceback__"; tb] ;;
                            raise c a
                        | _, _ =>
                            hostM host HSetAttr [e; VStr "__traceback__"; tb] ;;
                            hostM host HRaise [e] ;;
                            raise TypeError (VStr "exceptions must derive from BaseException")
                        end
                    end
                | _ => vm <- get_vm ;; ret (return_value vm)
                end) by keeps.
  apply K in H. simpl in H.
  assert (H' : x :: l = removelast (x :: l) ++ [last (x :: l) x])
    by (apply app_removelast_last; discriminate).
  apply (f_equal (@length _)) in H'. rewrite length_app in H'.
  simpl in H' |- *. lia.
Qed.

Lemma keeps_run_frame frame : keeps_frames (run_frame dis host call frame).
Proof.
  intros vm vm' r. rewrite run_frame_leave.
  destruct (steps dis host call 101 (length (frames vm)) 0
              (set_frames vm (frames vm ++ [frame]))) as [vm1 [[why n]|c e]] eqn:E;
    apply steps_keep in E; simpl in E; rewrite length_app in E; simpl in E.
  - intros H. apply keeps_leave_frame in H. lia.
  - intros [= <- _]. lia.
Qed.

Lemma keeps_make_frame code callargs g l :
  keeps_frames (make_frame host builtins code callargs g l).
Proof. unfold make_frame, Frame_init. keeps. Qed.

Lemma keeps_Function_call fn args kwargs :
  keeps_frames (Function_call dis host builtins call fn args kwargs).
Proof.
  unfold Function_call, Function_call_frame.
  pose proof keeps_make_frame. pose proof keeps_run_frame. keeps.
Qed.

End KeepsFrames.

Lemma keeps_call_function dis host builtins depth :
  forall fn args, keeps_frames (call_function dis host builtins depth fn args).
Proof.
  induction depth as [|d IH]; intros fn args; simpl.
  - apply keeps_raise.
  - now apply keeps_Function_call.
Qed.

(** ** The instruction cap *)

(** C8.  The loop of [run_frame] is the bounded iteration of at most 101
    fetch-dispatch turns, whatever the code unit and the state: it ends at the
    first signal or fault, and otherwise after the turn that takes
    [instruction_count] to 101, past the cap of 100.  When it ends on the cap
    there is no signal, and [run_frame] pops the frame and returns
    [self.return_value] as a normal result. *)
Theorem run_frame_stops_at_instruction_cap
  (dis : Dis) (host : host_t) (builtins : value) (depth : nat)
  (frame : Frame) (vm : VirtualMachine) :
  let call := call_function dis host builtins depth in
  let idx := length (frames vm) in
  let entered := set_frames vm (frames vm ++ [frame]) in
  run_loop dis host call idx 0 entered = steps dis host call 101 idx 0 entered
  /\
  forall vm' n,
    run_loop dis host call idx 0 entered = (vm', Ok (None, n)) ->
    n = 101
    /\ run_frame dis host call frame vm =
         (set_frames vm' (removelast (frames vm')), Ok (return_value vm')).
Proof.
  intros call idx entered.
  assert (Hsteps : run_loop dis host call idx 0 entered
                   = steps dis host call 101 idx 0 entered)
    by (apply run_loop_is_steps; lia).
  split; [exact Hsteps|].
  intros vm' n Hrun. rewrite Hsteps in Hrun. split.
  - now apply steps_no_signal_count in Hrun.
  - rewrite run_frame_leave. fold idx entered call. rewrite Hrun.
    apply (steps_keep dis host call (keeps_call_function dis host builtins depth))
      in Hrun.
    unfold entered in Hrun. simpl in Hrun. rewrite length_app in Hrun.
    simpl in Hrun.
    unfold leave_frame, bind, pop_frame, get_vm, ret.
    destruct (frames vm'); [simpl in Hrun; lia|reflexivity].
Qed.

Lemma run_frame_stops_at_instruction_cap_witness :
  run_frame dis_classic int_host (call_function dis_classic int_host VNone 10)
    spin_frame (VirtualMachine_init [])
  = (VirtualMachine_init [], Ok VNone).
Proof.
  refine (proj2 (proj2 (run_frame_stops_at_instruction_cap dis_classic int_host
                          VNone 10 spin_frame (VirtualMachine_init []))
                   (mkVM [spin_frame] VNone None []) 101 _)).
  vm_compute. reflexivity.
Defined.

(** ** The addition scenario *)

Ltac eval_make_frame :=
  match goal with
  | |- context [make_frame ?h ?b ?c ?a ?g ?l ?v] =>
      let r := eval vm_compute in (make_frame h b c a g l v) in
      change (make_frame h b c a g l v) with r
  end.

Ltac eval_step :=
  cbn [steps];
  match goal with
  | |- context [step ?d ?h ?c ?i ?v] =>
      let r := eval vm_compute in (step d h c i v) in
      replace (step d h c i v) with r by (vm_compute; reflexivity)
  end.

(** C1.  [run_code] on the code unit of [test_addition] with the call
    arguments [a = 2] and [b = 5] returns 7, in either instruction format, for
    every host on which [operator.add] of two integers is their sum. *)
Theorem add_2_5_returns_7 (host : host_t) (builtins : value) (depth : nat) :
  (forall h a b,
     host (HOperator "add") [VInt a; VInt b] h = (h, Ok (VInt (a + b)))) ->
  snd (run_code dis_wordcode host builtins depth add_code add_args
         (Some (VRef 1)) None (VirtualMachine_init test_heap)) = Ok (VInt 7)
  /\ snd (run_code dis_classic host builtins depth add_code_classic add_args
            (Some (VRef 1)) None (VirtualMachine_init test_heap)) = Ok (VInt 7).
Proof.
  intros Hadd. split.
  - unfold run_code, run_code_with, bind at 1.
    eval_make_frame. cbv beta iota.
    rewrite run_frame_leave.
    generalize (call_function dis_wordcode host builtins depth); intros call.
    eval_step. cbv beta iota.
    eval_step. cbv beta iota.
    eval_step. rewrite Hadd. cbv beta iota.
    eval_step. cbv beta iota.
    eval_step. cbv beta iota.
    reflexivity.
  - unfold run_code, run_code_with, bind at 1.
    eval_make_frame. cbv beta iota.
    rewrite run_frame_leave.
    generalize (call_function dis_classic host builtins depth); intros call.
    eval_step. cbv beta iota.
    eval_step. cbv beta iota.
    eval_step. rewrite Hadd. cbv beta iota.
    eval_step. cbv beta iota.
    reflexivity.
Qed.

Lemma add_2_5_returns_7_witness :
  snd (run_code dis_wordcode int_host (VRef 0) 10 add_code add_args
         (Some (VRef 1)) None (VirtualMachine_init test_heap)) = Ok (VInt 7)
  /\ snd (run_code dis_classic int_host (VRef 0) 10 add_code_classic add_args
            (Some (VRef 1)) None (VirtualMachine_init test_heap)) = Ok (VInt 7).
Proof.
  apply (add_2_5_returns_7 int_host (VRef 0) 10).
  intros h a b. reflexivity.
Defined.

(** ** Calls *)

Lemma dict_get_str_items (ps : list (string * value)) (n : string) :
  dict_get (VStr n) (str_items ps) = assoc n ps.
Proof.
  induction ps as [|[k v] ps IH]; [reflexivity|].
  simpl. now rewrite IH.
Qed.

Lemma dict_get_set_str d k v n :
  str_keys d ->
  dict_get (VStr n) (dict_set (VStr k) v d)
  = if String.eqb k n then Some v else dict_get (VStr n) d.
Proof.
  induction 1 as [|[k' v'] d [s Hs] Hd IH]; simpl.
  - reflexivity.
  - simpl in Hs. subst k'. simpl.
    destruct (String.eqb_spec s k) as [->|Hne]; simpl.
    + now destruct (String.eqb k n).
    + rewrite IH. destruct (String.eqb_spec s n) as [->|]; [|reflexivity].
      destruct (String.eqb_spec k n); [congruence|reflexivity].
Qed.

Lemma str_keys_set d k v : str_keys d -> str_keys (dict_set (VStr k) v d).
Proof.
  induction 1 as [|[k' v'] d Hk Hd IH]; simpl.
  - repeat constructor. now exists k.
  - destruct (key_eqb k' (VStr k)); constructor; assumption.
Qed.

Lemma assoc_not_in {A} (n : string) (ps : list (string * A)) :
  ~ In n (map fst ps) -> assoc n ps = None.
Proof.
  induction ps as [|[k v] ps IH]; [reflexivity|]. simpl. intros H.
  destruct (String.eqb_spec k n); [tauto|]. apply IH. tauto.
Qed.

Lemma dict_get_update_str d (ps : list (string * value)) (n : string) :
  str_keys d -> NoDup (map fst ps) ->
  dict_get (VStr n) (dict_update d (str_items ps))
  = match assoc n ps with
    | Some v => Some v
    | None => dict_get (VStr n) d
    end.
Proof.
  revert d. induction ps as [|[k v] ps IH]; intros d Hd Hnd; [reflexivity|].
  inversion Hnd as [|? ? Hk Hnd']; subst.
  unfold dict_update in *. simpl.
  rewrite (IH _ (str_keys_set _ _ _ Hd) Hnd'), dict_get_set_str by assumption.
  destruct (String.eqb_spec k n) as [->|]; [|reflexivity].
  now rewrite (assoc_not_in _ _ Hk).
Qed.

Lemma assoc_combine_nth (ps : list string) (vs : list value) i p v :
  NoDup ps -> nth_error ps i = Some p -> nth_error vs i = Some v ->
  assoc p (combine ps vs) = Some v.
Proof.
  revert vs i. induction ps as [|q ps IH]; intros vs i Hnd Hp Hv.
  - destruct i; discriminate.
  - destruct vs as [|w vs]; [destruct i; discriminate|].
    inversion Hnd as [|? ? Hq Hnd']; subst. simpl.
    destruct i as [|i]; simpl in Hp, Hv.
    + injection Hp as ->. injection Hv as ->. now rewrite String.eqb_refl.
    + destruct (String.eqb_spec q p) as [->|].
      * exfalso. apply Hq. eapply nth_error_In; eassumption.
      * eapply IH; eassumption.
Qed.

Lemma assoc_combine_short (ps : list string) (vs : list value) p :
  NoDup ps -> nth_error ps (length vs) = Some p ->
  assoc p (combine ps vs) = None.
Proof.
  revert vs. induction ps as [|q ps IH]; intros vs Hnd Hp.
  - reflexivity.
  - inversion Hnd as [|? ? Hq Hnd']; subst.
    destruct vs as [|w vs]; [reflexivity|]. simpl in *.
    destruct (String.eqb_spec q p) as [->|].
    + exfalso. apply Hq. eapply nth_error_In; eassumption.
    + now apply IH.
Qed.

Lemma list_set_end {A} (l : list A) (x y : A) :
  list_set (l ++ [x]) (length l) y = l ++ [y].
Proof. induction l as [|a l IH]; [reflexivity|]. simpl. now rewrite IH. Qed.

Lemma py_slice_all {A} (l : list A) :
  py_slice l 0 (Z.of_nat (length l)) = l.
Proof.
  unfold py_slice, slice_bound. simpl.
  destruct (Z.ltb_spec (Z.of_nat (length l)) 0); [lia|].
  rewrite Nat2Z.id, Nat.min_id, Nat.sub_0_r. apply firstn_all.
Qed.

Lemma getcallargs_too_few fn args :
  NoDup (parameters fn) ->
  func_defaults fn = [] ->
  length args < length (parameters fn) ->
  getcallargs fn args []
  = Raise TypeError (VStr "missing required positional arguments").
Proof.
  intros Hnd Hdef Hlen. unfold getcallargs. fold (parameters fn).
  rewrite Hdef. cbn [fold_left length].
  destruct (Nat.ltb_spec (length (parameters fn)) (length args)); [lia|].
  destruct (Nat.ltb_spec (length args) (length (parameters fn))); [|lia].
  rewrite Z.sub_0_r, py_slice_all.
  destruct (forallb _ (parameters fn)) eqn:Hall; [exfalso|reflexivity].
  rewrite forallb_forall in Hall.
  destruct (nth_error (parameters fn) (length args)) as [p|] eqn:Hp;
    [|apply nth_error_None in Hp; lia].
  specialize (Hall p (nth_error_In _ _ Hp)).
  unfold dict_mem in Hall.
  change (map _ (combine (parameters fn) args))
    with (str_items (combine (parameters fn) args)) in Hall.
  rewrite dict_get_str_items, (assoc_combine_short _ _ _ Hnd Hp) in Hall.
  discriminate.
Qed.

Lemma getcallargs_exact fn args :
  length args = length (parameters fn) ->
  getcallargs fn args [] = Ok (bound_arguments fn args).
Proof.
  intros Hlen. unfold getcallargs. fold (parameters fn). cbn [fold_left].
  rewrite Hlen, Nat.ltb_irrefl. reflexivity.
Qed.

Lemma as_dict_app h l ns a d :
  as_dict h ns = Some (a, d) -> as_dict (h ++ l) ns = Some (a, d).
Proof.
  unfold as_dict. destruct ns; try discriminate.
  destruct (nth_error h a0) as [o|] eqn:E; [|discriminate].
  rewrite nth_error_app1 by (apply nth_error_Some; congruence).
  now rewrite E.
Qed.

Lemma as_dict_new h d : as_dict (h ++ [ODict d]) (VRef (length h)) = Some (length h, d).
Proof. unfold as_dict. rewrite nth_error_app2, Nat.sub_diag by lia. reflexivity. Qed.

Lemma truthy_dict host vm ns a d :
  as_dict (heap vm) ns = Some (a, d) ->
  truthy host ns vm = (vm, Ok (negb (Nat.eqb (length d) 0))).
Proof.
  unfold as_dict. destruct ns; try discriminate.
  destruct (nth_error (heap vm) a0) as [[]|] eqn:E; try discriminate.
  intros [= <- <-]. unfold truthy, bind, get_vm. now rewrite E.
Qed.

Lemma setitem_dict host vm ns a d k v :
  as_dict (heap vm) ns = Some (a, d) ->
  hashable (heap vm) k = true ->
  setitem host ns k v vm
  = (set_heap vm (list_set (heap vm) a (ODict (dict_set k v d))), Ok tt).
Proof. intros Hd Hk. unfold setitem, bind, get_vm. now rewrite Hd, Hk. Qed.

Lemma update_dict host vm ns a d items :
  as_dict (heap vm) ns = Some (a, d) ->
  update host ns items vm
  = (set_heap vm (list_set (heap vm) a (ODict (dict_update d items))), Ok tt).
Proof. intros Hd. unfold update, bind, get_vm. now rewrite Hd. Qed.

Lemma dict_get_empty_length k d : length d = 0 -> dict_get k d = None.
Proof. destruct d; [reflexivity|discriminate]. Qed.

Lemma bind_ret {A B} (a : A) (k : A -> M B) vm : bind (ret a) k vm = k a vm.
Proof. reflexivity. Qed.

Lemma bind_get {B} (k : VirtualMachine -> M B) vm : bind get_vm k vm = k vm vm.
Proof. reflexivity. Qed.

(** The frame that a call makes, up to the constructor of [Frame]. *)
Lemma call_frame_prepared host builtins fn args vm g dg :
  as_dict (heap vm) (func_globals fn) = Some (g, dg) ->
  length args = length (parameters fn) ->
  Function_call_frame host builtins fn args [] vm
  = Frame_init host (func_code fn) (func_globals fn) (VRef (length (heap vm)))
      (vm_frame vm)
      (set_heap vm
         (heap vm ++
          [ODict (dict_update
                    [(VStr "__builtins__",
                      match dict_get (VStr "__builtins__") dg with
                      | Some v => v
                      | None => builtins
                      end)]
                    (bound_arguments fn args))])).
Proof.
  intros Hg Hlen. unfold Function_call_frame.
  rewrite (getcallargs_exact _ _ Hlen). unfold lift, bind at 1.
  unfold bind at 1, alloc. unfold make_frame.
  set (vm0 := set_heap vm (heap vm ++ [ODict []])).
  rewrite bind_get, bind_ret.
  assert (Hl0 : as_dict (heap vm0) (VRef (length (heap vm))) = Some (length (heap vm), []))
    by apply as_dict_new.
  assert (Hg0 : as_dict (heap vm0) (func_globals fn) = Some (g, dg))
    by (apply as_dict_app; exact Hg).
  rewrite (bind_ok _ _ _ _ _
             (contains_dict host _ _ _ _ (VStr "__builtins__") Hl0 eq_refl)).
  cbn [dict_mem dict_get].
  set (b := match dict_get (VStr "__builtins__") dg with
            | Some v => v
            | None => builtins
            end).
  assert (Hstore : forall v,
    setitem host (VRef (length (heap vm))) (VStr "__builtins__") v vm0
    = (set_heap vm (heap vm ++ [ODict [(VStr "__builtins__", v)]]), Ok tt)).
  { intros v.
    rewrite (setitem_dict host _ _ _ _ (VStr "__builtins__") v Hl0 eq_refl).
    unfold vm0. cbn [heap set_heap dict_set]. now rewrite list_set_end. }
  assert (Hset :
    (t <- truthy host (func_globals fn) ;;
     g_has <- (if t then contains host (func_globals fn) (VStr "__builtins__")
               else ret false) ;;
     (if g_has
      then b0 <- getitem host (func_globals fn) (VStr "__builtins__") ;;
           setitem host (VRef (length (heap vm))) (VStr "__builtins__") b0
      else setitem host (VRef (length (heap vm))) (VStr "__builtins__") builtins)) vm0
    = (set_heap vm (heap vm ++ [ODict [(VStr "__builtins__", b)]]), Ok tt)).
  { rewrite (bind_ok _ _ _ _ _ (truthy_dict host _ _ _ _ Hg0)).
    destruct (Nat.eqb_spec (length dg) 0) as [Hz|Hnz]; cbn [negb].
    - rewrite bind_ret. subst b.
      rewrite (dict_get_empty_length _ _ Hz). apply Hstore.
    - rewrite (bind_ok _ _ _ _ _
                 (contains_dict host _ _ _ _ (VStr "__builtins__") Hg0 eq_refl)).
      unfold dict_mem. subst b.
      destruct (dict_get (VStr "__builtins__") dg) as [v|] eqn:Eg.
      + unfold bind at 1.
        rewrite (getitem_dict host _ _ _ _ (VStr "__builtins__") Hg0 eq_refl), Eg.
        apply Hstore.
      + apply Hstore. }
  rewrite (bind_ok _ _ _ _ _ Hset).
  set (vm1 := set_heap vm (heap vm ++ [ODict [(VStr "__builtins__", b)]])).
  assert (Hl1 : as_dict (heap vm1) (VRef (length (heap vm)))
                = Some (length (heap vm), [(VStr "__builtins__", b)]))
    by apply as_dict_new.
  rewrite (bind_ok _ _ _ _ _ (update_dict host _ _ _ _ (bound_arguments fn args) Hl1)).
  rewrite bind_get. unfold vm1. cbn [heap set_heap].
  rewrite list_set_end. reflexivity.
Qed.

Lemma map_fst_combine {A B} (l : list A) (l' : list B) :
  length l' = length l -> map fst (combine l l') = l.
Proof.
  revert l'. induction l as [|a l IH]; intros [|b l'] H; try discriminate;
    [reflexivity|].
  simpl. f_equal. apply IH. now injection H.
Qed.

Lemma Frame_init_with_caller host code globals locals caller vm :
  Frame_init host code globals locals (Some caller) vm
  = (vm, Ok (mkFrame code globals locals [] [] (VInt 0) (builtin_names caller))).
Proof. reflexivity. Qed.

(** C7, as the code has it.  A call with fewer positional arguments than the
    function has parameters, no keyword arguments and no defaults raises
    [TypeError] before any frame is made and leaves the machine as it was.  A
    call with as many arguments as parameters makes a frame with empty stacks
    at instruction 0 whose locals are a new dictionary at an address that was
    not in use.  That dictionary holds every parameter bound to its argument
    and, besides the bound arguments, the entry [__builtins__] that
    [make_frame] puts there (taken from the globals of the function when they
    have one, else from the machine's own module), unless a parameter of that
    name replaces it; it holds nothing else. *)
Theorem call_binds_arguments_in_fresh_frame
  (dis : Dis) (host : host_t) (builtins : value)
  (call : Function -> list value -> M value)
  (fn : Function) (args : list value) (vm : VirtualMachine)
  (g : nat) (dg : list (value * value)) :
  NoDup (parameters fn) ->
  as_dict (heap vm) (func_globals fn) = Some (g, dg) ->
  (func_defaults fn = [] ->
   length args < length (parameters fn) ->
   Function_call dis host builtins call fn args [] vm
   = (vm, Raise TypeError (VStr "missing required positional arguments")))
  /\
  (length args = length (parameters fn) ->
   let a := length (heap vm) in
   let b := match dict_get (VStr "__builtins__") dg with
            | Some v => v
            | None => builtins
            end in
   let locals := dict_update [(VStr "__builtins__", b)] (bound_arguments fn args) in
   let vm1 := set_heap vm (heap vm ++ [ODict locals]) in
   nth_error (heap vm) a = None
   /\ Function_call_frame host builtins fn args [] vm
      = Frame_init host (func_code fn) (func_globals fn) (VRef a) (vm_frame vm) vm1
   /\ (forall caller,
         vm_frame vm = Some caller ->
         Function_call_frame host builtins fn args [] vm
         = (vm1, Ok (mkFrame (func_code fn) (func_globals fn) (VRef a) [] []
                       (VInt 0) (builtin_names caller))))
   /\ (forall i p v,
         nth_error (parameters fn) i = Some p ->
         nth_error args i = Some v ->
         dict_get (VStr p) locals = Some v)
   /\ (forall n,
         dict_get (VStr n) locals
         = match assoc n (combine (parameters fn) args) with
           | Some v => Some v
           | None => if String.eqb "__builtins__" n then Some b else None
           end)).
Proof.
  intros Hnd Hg. split.
  - intros Hdef Hlen. unfold Function_call, Function_call_frame.
    rewrite (getcallargs_too_few _ _ Hnd Hdef Hlen). reflexivity.
  - intros Hlen a b locals vm1.
    assert (Hkeys : str_keys [(VStr "__builtins__", b)])
      by (repeat constructor; now exists "__builtins__").
    assert (Hnd' : NoDup (map fst (combine (parameters fn) args))).
    { now rewrite map_fst_combine. }
    assert (Hget : forall n,
      dict_get (VStr n) locals
      = match assoc n (combine (parameters fn) args) with
        | Some v => Some v
        | None => if String.eqb "__builtins__" n then Some b else None
        end).
    { intros n. unfold locals, bound_arguments.
      now rewrite (dict_get_update_str _ _ n Hkeys Hnd'). }
    repeat split.
    + apply nth_error_None. subst a. lia.
    + exact (call_frame_prepared host builtins fn args vm g dg Hg Hlen).
    + intros caller Hcaller.
      rewrite (call_frame_prepared host builtins fn args vm g dg Hg Hlen), Hcaller.
      apply Frame_init_with_caller.
    + intros i p v Hp Hv. rewrite Hget.
      now rewrite (assoc_combine_nth _ _ _ _ _ Hnd Hp Hv).
    + exact Hget.
Qed.

Lemma call_binds_arguments_in_fresh_frame_witness :
  Function_call dis_classic int_host (VRef 0) no_calls first_function
    [VInt 2] [] module_vm
  = (module_vm, Raise TypeError (VStr "missing required positional arguments"))
  /\ Function_call_frame int_host (VRef 0) first_function [VInt 2; VInt 5] []
       module_vm
     = (set_heap module_vm
          (test_heap ++
           [ODict [(VStr "__builtins__", VRef 0); (VStr "a", VInt 2);
                   (VStr "b", VInt 5)]]),
        Ok (mkFrame (func_code first_function) (VRef 1) (VRef 2) [] [] (VInt 0)
              (VRef 0))).
Proof.
  assert (Hnd : NoDup (parameters first_function)).
  { repeat constructor; simpl; intuition discriminate. }
  pose proof (call_binds_arguments_in_fresh_frame dis_classic int_host (VRef 0)
                no_calls first_function [VInt 2] module_vm 1 _ Hnd eq_refl)
    as [Hfew _].
  pose proof (call_binds_arguments_in_fresh_frame dis_classic int_host (VRef 0)
                no_calls first_function [VInt 2; VInt 5] module_vm 1 _ Hnd eq_refl)
    as [_ Hexact].
  split.
  - apply Hfew; [reflexivity|simpl; lia].
  - destruct (Hexact eq_refl) as (_ & _ & Hframe & _).
    exact (Hframe _ eq_refl).
Defined.

(** C7, as stated, fails.  A call of [first] with exactly its two arguments
    makes a frame whose locals, at the new address 2, are not the bound
    arguments alone: they hold [__builtins__] as well. *)
Lemma call_locals_hold_builtins_too :
  Function_call_frame int_host (VRef 0) first_function [VInt 2; VInt 5] []
    module_vm
  = (set_heap module_vm
       (test_heap ++
        [ODict [(VStr "__builtins__", VRef 0); (VStr "a", VInt 2);
                (VStr "b", VInt 5)]]),
     Ok (mkFrame (func_code first_function) (VRef 1) (VRef 2) [] [] (VInt 0)
           (VRef 0)))
  /\ bound_arguments first_function [VInt 2; VInt 5]
     = [(VStr "a", VInt 2); (VStr "b", VInt 5)]
  /\ dict_get (VStr "__builtins__")
       [(VStr "__builtins__", VRef 0); (VStr "a", VInt 2); (VStr "b", VInt 5)]
     = Some (VRef 0)
  /\ dict_get (VStr "__builtins__")
       (bound_arguments first_function [VInt 2; VInt 5]) = None.
Proof. repeat split. Qed.

(** ** The operand stack *)

Lemma set_stack_twice f s t : set_stack (set_stack f s) t = set_stack f t.
Proof. reflexivity. Qed.

Lemma slice_bound_neg n (k : nat) :
  0 < k -> slice_bound n (- Z.of_nat k) = n - k.
Proof.
  intros Hk. unfold slice_bound.
  destruct (Z.ltb_spec (- Z.of_nat k) 0); lia.
Qed.

(** X1.  Values pushed together come back together: [popn] of as many values
    as [push] has just pushed returns them in the order they were pushed and
    leaves the machine as it was before the push, and so does [pop] after the
    push of one value. *)
Theorem popn_undoes_push (vm : VirtualMachine) (f : Frame) (vals : list value) :
  vm_frame vm = Some f ->
  vals <> [] ->
  (push vals ;; popn (Z.of_nat (length vals))) vm = (vm, Ok vals)
  /\ forall v, (push [v] ;; pop) vm = (vm, Ok v).
Proof.
  intros Hf Hne. split.
  - rewrite (bind_ok _ _ _ _ _ (push_eq _ _ vals Hf)).
    assert (Hn : (Z.of_nat (length vals) <> 0)%Z) by (destruct vals; simpl; [congruence|lia]).
    rewrite (popn_eq _ _ _ (vm_frame_with_frame _ _) Hn).
    rewrite with_frame_twice, set_stack_twice.
    change (stack (set_stack f (stack f ++ vals))) with (stack f ++ vals).
    unfold py_slice_from, py_delete_from.
    rewrite slice_bound_neg by (destruct vals; simpl; [congruence|lia]).
    rewrite length_app, Nat.add_sub.
    rewrite firstn_app, firstn_all, Nat.sub_diag, skipn_app, skipn_all, Nat.sub_diag.
    simpl. rewrite app_nil_r.
    now rewrite set_stack_same, (with_frame_same _ _ Hf).
  - intros v. rewrite (bind_ok _ _ _ _ _ (push_eq _ _ [v] Hf)).
    rewrite (pop_eq _ (set_stack f (stack f ++ [v])) (stack f) v
               (vm_frame_with_frame _ _) eq_refl).
    rewrite with_frame_twice, set_stack_twice.
    now rewrite set_stack_same, (with_frame_same _ _ Hf).
Qed.

Lemma popn_undoes_push_witness :
  (push [VInt 6; VInt 7] ;; popn 2) five_vm = (five_vm, Ok [VInt 6; VInt 7])
  /\ (push [VInt 6] ;; pop) five_vm = (five_vm, Ok (VInt 6)).
Proof.
  pose proof (popn_undoes_push five_vm _ [VInt 6; VInt 7] eq_refl
                ltac:(discriminate)) as [H1 H2].
  split; [exact H1|exact (H2 (VInt 6))].
Defined.

(** X2.  [popn] never faults on a short stack: for a positive count it splits
    the stack into what stays and what is returned, the returned values being
    the top ones in stack order, as many as asked for or as many as there
    are.  [pop] and [top], on an empty stack, raise [IndexError] and change
    nothing. *)
Theorem popn_takes_what_is_there (vm : VirtualMachine) (f : Frame) (n : nat) :
  vm_frame vm = Some f ->
  0 < n ->
  let keep := length (stack f) - n in
  popn (Z.of_nat n) vm
  = (with_frame vm (set_stack f (firstn keep (stack f))), Ok (skipn keep (stack f)))
  /\ length (skipn keep (stack f)) = Nat.min n (length (stack f))
  /\ (stack f = [] ->
      pop vm = (vm, Raise IndexError (VStr "pop from empty list"))
      /\ top vm = (vm, Raise IndexError (VStr "list index out of range"))).
Proof.
  intros Hf Hn keep. repeat split.
  - rewrite (popn_eq _ _ _ Hf) by lia.
    unfold py_slice_from, py_delete_from. now rewrite slice_bound_neg.
  - rewrite length_skipn. lia.
  - unfold pop. rewrite (bind_ok _ _ _ _ _ (the_frame_ok _ _ Hf)), H. reflexivity.
  - unfold top. rewrite (bind_ok _ _ _ _ _ (the_frame_ok _ _ Hf)), H. reflexivity.
Qed.

Lemma popn_takes_what_is_there_witness :
  popn 7 five_vm
  = (one_frame (Code [] [] [] [] 0 "five") VNone VNone VNone [] 0 [],
     Ok [VInt 1; VInt 2; VInt 3; VInt 4; VInt 5])
  /\ pop scope_vm = (scope_vm, Raise IndexError (VStr "pop from empty list"))
  /\ top scope_vm = (scope_vm, Raise IndexError (VStr "list index out of range")).
Proof.
  pose proof (popn_takes_what_is_there five_vm _ 7 eq_refl ltac:(lia)) as [H1 _].
  pose proof (popn_takes_what_is_there scope_vm _ 1 eq_refl ltac:(lia))
    as [_ [_ H2]].
  split; [exact H1|exact (H2 eq_refl)].
Defined.

(** ** The block stack *)

Lemma push_block_eq vm f t h :
  vm_frame vm = Some f ->
  push_block t h vm
  = (with_frame vm
       (set_block_stack f (block_stack f ++ [mkBlock t h (length (stack f))])),
     Ok tt).
Proof.
  intros Hf. unfold push_block.
  now rewrite (bind_ok _ _ _ _ _ (the_frame_ok _ _ Hf)).
Qed.

Lemma pop_block_eq vm f bs b :
  vm_frame vm = Some f -> block_stack f = bs ++ [b] ->
  pop_block vm = (with_frame vm (set_block_stack f bs), Ok b).
Proof.
  intros Hf Hb. unfold pop_block.
  rewrite (bind_ok _ _ _ _ _ (the_frame_ok _ _ Hf)), Hb, unsnoc_snoc.
  now rewrite (bind_ok _ _ _ _ _ (put_frame_eq _ _)).
Qed.

Lemma jump_eq vm f target :
  vm_frame vm = Some f ->
  jump target vm = (with_frame vm (set_last_instruction f target), Ok tt).
Proof.
  intros Hf. unfold jump.
  now rewrite (bind_ok _ _ _ _ _ (the_frame_ok _ _ Hf)).
Qed.

Lemma unwind_block_plain vm f block :
  vm_frame vm = Some f ->
  String.eqb (type block) "except-handler" = false ->
  unwind_block block vm
  = (with_frame vm (set_stack f (firstn (stack_height block) (stack f))), Ok tt).
Proof.
  intros Hf Hty. unfold unwind_block. rewrite Hty.
  rewrite (bind_ok _ _ _ _ _ (the_frame_ok _ _ Hf)).
  rewrite (bind_ok _ _ _ _ _ (unwind_pops_truncates _ _ _ _ Hf (le_n _))).
  now rewrite Nat.add_0_r.
Qed.

(** The first part of [manage_block_stack] when the top block is not left in
    place: the block is popped and the stack is unwound to its height. *)
Lemma pop_and_unwind vm f bs block :
  vm_frame vm = Some f ->
  block_stack f = bs ++ [block] ->
  String.eqb (type block) "except-handler" = false ->
  (pop_block ;; unwind_block block) vm
  = (with_frame vm
       (set_stack (set_block_stack f bs) (firstn (stack_height block) (stack f))),
     Ok tt).
Proof.
  intros Hf Hb Hty.
  rewrite (bind_ok _ _ _ _ _ (pop_block_eq _ _ _ _ Hf Hb)).
  rewrite (unwind_block_plain _ _ _ (vm_frame_with_frame _ _) Hty).
  now rewrite with_frame_twice.
Qed.

Lemma manage_block_stack_unwinds vm f bs block why :
  vm_frame vm = Some f ->
  block_stack f = bs ++ [block] ->
  String.eqb (type block) "except-handler" = false ->
  String.eqb (type block) "loop" && why_eqb why WContinue = false ->
  manage_block_stack why vm
  = (let kind t := String.eqb (type block) t in
     if kind "loop" && why_eqb why WBreak then
       jump (handler block) ;; ret None
     else if (kind "setup-except" || kind "finally") && why_eqb why WException then
       push_block "except-handler" VNone ;;
       vm <- get_vm ;;
       match last_exception vm with
       | Some (exctype, value, tb) =>
           push [tb; value; exctype] ;;
           push [tb; value; exctype] ;;
           jump (handler block) ;;
           ret None
       | None => raise TypeError (VStr "cannot unpack non-iterable NoneType object")
       end
     else if kind "finally" then
       (if why_eqb why WReturn || why_eqb why WContinue then
          vm <- get_vm ;; push [return_value vm]
        else ret tt) ;;
       push [VStr (why_name why)] ;;
       jump (handler block) ;;
       ret None
     else ret (Some why))
      (with_frame vm
         (set_stack (set_block_stack f bs) (firstn (stack_height block) (stack f)))).
Proof.
  intros Hf Hb Hty Hcont. unfold manage_block_stack.
  rewrite (bind_ok _ _ _ _ _ (the_frame_ok _ _ Hf)), Hb, unsnoc_snoc.
  cbv zeta. rewrite Hcont.
  pose proof (pop_and_unwind _ _ _ _ Hf Hb Hty) as H.
  unfold bind at 1. unfold bind at 1 in H.
  destruct (pop_block vm) as [vm1 [b|c e]]; [|discriminate].
  unfold bind at 1. rewrite H. reflexivity.
Qed.

Lemma firstn_app_exact {A} (l l' : list A) : firstn (length l) (l ++ l') = l.
Proof. rewrite firstn_app, firstn_all, Nat.sub_diag. simpl. apply app_nil_r. Qed.

(** X3.  A block records the height of the operand stack at the moment it is
    pushed, and [pop_block] gives back the block that [push_block] has just
    pushed and leaves the machine as before the push; on an empty block stack
    [pop_block] raises [IndexError]. *)
Theorem pop_block_undoes_push_block
  (vm : VirtualMachine) (f : Frame) (b_type : string) (target : value) :
  vm_frame vm = Some f ->
  (push_block b_type target ;; pop_block) vm
  = (vm, Ok (mkBlock b_type target (length (stack f))))
  /\ (block_stack f = [] ->
      pop_block vm = (vm, Raise IndexError (VStr "pop from empty list"))).
Proof.
  intros Hf. split.
  - rewrite (bind_ok _ _ _ _ _ (push_block_eq _ _ b_type target Hf)).
    rewrite (pop_block_eq _
               (set_block_stack f
                  (block_stack f ++ [mkBlock b_type target (length (stack f))]))
               (block_stack f) _ (vm_frame_with_frame _ _) eq_refl).
    rewrite with_frame_twice.
    replace (set_block_stack _ (block_stack f)) with f by now destruct f.
    now rewrite (with_frame_same _ _ Hf).
  - intros Hb. unfold pop_block.
    now rewrite (bind_ok _ _ _ _ _ (the_frame_ok _ _ Hf)), Hb.
Qed.

Lemma pop_block_undoes_push_block_witness :
  (push_block "loop" (VInt 4) ;; pop_block) five_vm
  = (five_vm, Ok (mkBlock "loop" (VInt 4) 5))
  /\ pop_block five_vm = (five_vm, Raise IndexError (VStr "pop from empty list")).
Proof.
  pose proof (pop_block_undoes_push_block five_vm _ "loop" (VInt 4) eq_refl)
    as [H1 H2].
  split; [exact H1|exact (H2 eq_refl)].
Defined.

(** X4.  A [break] leaves a loop as it was entered: after [SETUP_LOOP] has
    pushed its block, whatever has been pushed on the operand stack since,
    [manage_block_stack] on the signal [break] pops the block, drops those
    values, jumps to the target of the block and consumes the signal; all that
    is left of the loop is the new instruction pointer. *)
Theorem break_leaves_the_loop
  (vm : VirtualMachine) (f : Frame) (dest : value) (pushed : list value) :
  vm_frame vm = Some f ->
  (push_block "loop" dest ;; push pushed ;; manage_block_stack WBreak) vm
  = (with_frame vm (set_last_instruction f dest), Ok None).
Proof.
  intros Hf.
  rewrite (bind_ok _ _ _ _ _ (push_block_eq _ _ "loop" dest Hf)).
  rewrite (bind_ok _ _ _ _ _ (push_eq _ _ pushed (vm_frame_with_frame _ _))).
  rewrite with_frame_twice.
  rewrite (manage_block_stack_unwinds _
             (set_stack
                (set_block_stack f
                   (block_stack f ++ [mkBlock "loop" dest (length (stack f))]))
                (stack f ++ pushed))
             (block_stack f)
             (mkBlock "loop" dest (length (stack f))) WBreak
             (vm_frame_with_frame _ _) eq_refl eq_refl eq_refl).
  cbn [type handler stack_height String.eqb Ascii.eqb Bool.eqb andb why_eqb].
  rewrite with_frame_twice.
  rewrite (bind_ok _ _ _ _ _ (jump_eq _ _ dest (vm_frame_with_frame _ _))).
  rewrite with_frame_twice. unfold ret. f_equal. f_equal.
  destruct f as [co g l s bs pc b]. cbn. now rewrite firstn_app_exact.
Qed.

Lemma break_leaves_the_loop_witness :
  (push_block "loop" (VInt 20) ;; push [VInt 8; VInt 9] ;;
   manage_block_stack WBreak) five_vm
  = (one_frame (Code [] [] [] [] 0 "five") VNone VNone VNone
       [VInt 1; VInt 2; VInt 3; VInt 4; VInt 5] 20 [], Ok None).
Proof.
  exact (break_leaves_the_loop five_vm _ (VInt 20) [VInt 8; VInt 9] eq_refl).
Defined.

(** X5.  A [return] or an [exception] is not consumed by a loop block:
    [manage_block_stack] pops the block, cuts the operand stack to the height
    of the block, leaves the instruction pointer alone and hands the signal
    back for the next block. *)
Theorem loop_block_passes_return_and_exception
  (vm : VirtualMachine) (f : Frame) (bs : list Block) (block : Block)
  (why : why_t) :
  vm_frame vm = Some f ->
  block_stack f = bs ++ [block] ->
  type block = "loop" ->
  why = WReturn \/ why = WException ->
  manage_block_stack why vm
  = (with_frame vm
       (set_stack (set_block_stack f bs) (firstn (stack_height block) (stack f))),
     Ok (Some why)).
Proof.
  intros Hf Hb Hty Hwhy.
  rewrite (manage_block_stack_unwinds _ _ bs block why Hf Hb);
    rewrite Hty; destruct Hwhy; subst why; reflexivity.
Qed.

Lemma loop_block_passes_return_and_exception_witness :
  manage_block_stack WReturn loops_vm
  = (mkVM [mkFrame (Code [] [] [] [] 0 "loops") VNone VNone
             [VInt 1; VInt 2; VInt 3] [mkBlock "loop" (VInt 20) 1] (VInt 6) VNone]
          (VInt 11) None [],
     Ok (Some WReturn)).
Proof.
  exact (loop_block_passes_return_and_exception loops_vm _
           [mkBlock "loop" (VInt 20) 1] (mkBlock "loop" (VInt 30) 3) WReturn
           eq_refl eq_refl eq_refl (or_introl eq_refl)).
Defined.

(** X6.  A [continue] in a loop keeps the loop: the block stays on the block
    stack, the operand stack is not touched, the instruction pointer becomes
    [self.return_value], and the signal is consumed. *)
Theorem continue_keeps_the_loop
  (vm : VirtualMachine) (f : Frame) (bs : list Block) (block : Block) :
  vm_frame vm = Some f ->
  block_stack f = bs ++ [block] ->
  type block = "loop" ->
  manage_block_stack WContinue vm
  = (with_frame vm (set_last_instruction f (return_value vm)), Ok None).
Proof.
  intros Hf Hb Hty. unfold manage_block_stack.
  rewrite (bind_ok _ _ _ _ _ (the_frame_ok _ _ Hf)), Hb, unsnoc_snoc.
  cbv zeta. rewrite Hty. cbn [String.eqb Ascii.eqb Bool.eqb andb why_eqb].
  unfold bind at 1, get_vm.
  now rewrite (bind_ok _ _ _ _ _ (jump_eq _ _ _ Hf)).
Qed.

Lemma continue_keeps_the_loop_witness :
  manage_block_stack WContinue loops_vm
  = (mkVM [mkFrame (Code [] [] [] [] 0 "loops") VNone VNone
             [VInt 1; VInt 2; VInt 3; VInt 4; VInt 5]
             [mkBlock "loop" (VInt 20) 1; mkBlock "loop" (VInt 30) 3]
             (VInt 11) VNone]
          (VInt 11) None [],
     Ok None).
Proof.
  exact (continue_keeps_the_loop loops_vm _
           [mkBlock "loop" (VInt 20) 1] (mkBlock "loop" (VInt 30) 3)
           eq_refl eq_refl eq_refl).
Defined.

(** X7.  An [exception] that meets a [setup-except] or [finally] block is
    caught: the block is replaced by an [except-handler] block recorded at the
    height of the old block, the current fault is pushed twice as
    (traceback, value, type), the pointer goes to the target of the old block,
    and the signal is consumed.  Unwinding the new block afterwards brings the
    stack back to that height and finds the same fault again. *)
Theorem exception_enters_handler
  (vm : VirtualMachine) (f : Frame) (bs : list Block) (block : Block)
  (exctype value tb : value) :
  vm_frame vm = Some f ->
  block_stack f = bs ++ [block] ->
  type block = "setup-except" \/ type block = "finally" ->
  last_exception vm = Some (exctype, value, tb) ->
  stack_height block <= length (stack f) ->
  let h := stack_height block in
  let below := firstn h (stack f) in
  let entered :=
    with_frame vm
      (mkFrame (code_obj f) (global_names f) (local_names f)
         (below ++ [tb; value; exctype; tb; value; exctype])
         (bs ++ [mkBlock "except-handler" VNone h])
         (handler block) (builtin_names f)) in
  manage_block_stack WException vm = (entered, Ok None)
  /\ unwind_block (mkBlock "except-handler" VNone h) entered
     = (with_frame vm
          (mkFrame (code_obj f) (global_names f) (local_names f) below
             (bs ++ [mkBlock "except-handler" VNone h])
             (handler block) (builtin_names f)), Ok tt).
Proof.
  intros Hf Hb Hty Hexc Hh h below entered.
  assert (Hlen : length below = h) by (apply firstn_length_le; exact Hh).
  split.
  - assert (Hnh : String.eqb (type block) "except-handler" = false)
      by (destruct Hty as [-> | ->]; reflexivity).
    assert (Hnc : String.eqb (type block) "loop" && why_eqb WException WContinue = false)
      by (destruct Hty as [-> | ->]; reflexivity).
    rewrite (manage_block_stack_unwinds _ _ bs block WException Hf Hb Hnh Hnc).
    cbv zeta.
    assert (Hcatch :
      String.eqb (type block) "loop" = false
      /\ String.eqb (type block) "setup-except" || String.eqb (type block) "finally"
         = true)
      by (destruct Hty as [-> | ->]; split; reflexivity).
    destruct Hcatch as [-> ->]. cbn [andb why_eqb].
    rewrite (bind_ok _ _ _ _ _
               (push_block_eq _ _ "except-handler" VNone (vm_frame_with_frame _ _))).
    rewrite with_frame_twice. unfold bind at 1, get_vm.
    replace (last_exception (with_frame vm _)) with (last_exception vm) by reflexivity.
    rewrite Hexc.
    rewrite (bind_ok _ _ _ _ _ (push_eq _ _ _ (vm_frame_with_frame _ _))).
    rewrite with_frame_twice.
    rewrite (bind_ok _ _ _ _ _ (push_eq _ _ _ (vm_frame_with_frame _ _))).
    rewrite with_frame_twice.
    rewrite (bind_ok _ _ _ _ _ (jump_eq _ _ _ (vm_frame_with_frame _ _))).
    rewrite with_frame_twice. unfold ret, entered. f_equal. f_equal.
    subst below h. destruct f as [co g l s bks pc b].
    unfold set_last_instruction, set_stack, set_block_stack. cbn in *.
    rewrite Hlen, <- app_assoc. reflexivity.
  - unfold unwind_block, entered.
    cbn [type stack_height String.eqb Ascii.eqb Bool.eqb].
    rewrite (bind_ok _ _ _ _ _ (the_frame_ok _ _ (vm_frame_with_frame _ _))).
    rewrite (bind_ok _ _ _ _ _
               (unwind_pops_truncates _ _ _ _ (vm_frame_with_frame _ _) (le_n _))).
    rewrite with_frame_twice.
    rewrite (bind_ok _ _ _ _ _
               (popn_eq _ _ 3 (vm_frame_with_frame _ _) ltac:(discriminate))).
    rewrite with_frame_twice. cbn [stack set_stack].
    replace (firstn (h + 3) (below ++ [tb; value; exctype; tb; value; exctype]))
      with (below ++ [tb; value; exctype])
      by (rewrite firstn_app, Hlen, firstn_all2 by lia;
          now replace (h + 3 - h) with 3 by lia).
    unfold py_slice_from, py_delete_from.
    rewrite length_app, Hlen. cbn [length].
    change (- (3))%Z with (- Z.of_nat 3)%Z.
    rewrite (slice_bound_neg (h + 3) 3) by lia.
    replace (h + 3 - 3) with h by lia.
    assert (Hs : skipn h (below ++ [tb; value; exctype]) = [tb; value; exctype])
      by (rewrite skipn_app, Hlen, Nat.sub_diag, (skipn_all2 below) by lia;
          reflexivity).
    assert (Hk : firstn h (below ++ [tb; value; exctype]) = below)
      by (rewrite firstn_app, Hlen, Nat.sub_diag, firstn_all2 by lia;
          apply app_nil_r).
    rewrite Hs, Hk. cbv beta iota.
    f_equal. destruct vm as [fs r e hp]. cbn in Hexc. subst e. reflexivity.
Qed.

Lemma exception_enters_handler_witness :
  manage_block_stack WException guarded_vm
  = (mkVM [mkFrame (Code [] [] [] [] 0 "guarded") VNone VNone
             [VInt 1;
              VNone; VExcInst KeyError (VStr "k"); VExcClass KeyError;
              VNone; VExcInst KeyError (VStr "k"); VExcClass KeyError]
             [mkBlock "except-handler" VNone 1] (VInt 40) VNone]
          (VInt 11)
          (Some (VExcClass KeyError, VExcInst KeyError (VStr "k"), VNone)) [],
     Ok None).
Proof.
  exact (proj1 (exception_enters_handler guarded_vm _ []
                  (mkBlock "finally" (VInt 40) 1)
                  (VExcClass KeyError) (VExcInst KeyError (VStr "k")) VNone
                  eq_refl eq_refl (or_intror eq_refl) eq_refl ltac:(simpl; lia))).
Defined.

(** X8.  A [finally] block takes over every signal but [exception]: the block
    is popped, the stack is cut to its height, the pending return value is
    pushed for [return] and [continue] (and not for [break]), then the name of
    the signal, the pointer goes to the target of the block, and the signal is
    consumed. *)
Theorem finally_takes_over_the_signal
  (vm : VirtualMachine) (f : Frame) (bs : list Block) (block : Block)
  (why : why_t) :
  vm_frame vm = Some f ->
  block_stack f = bs ++ [block] ->
  type block = "finally" ->
  why <> WException ->
  manage_block_stack why vm
  = (with_frame vm
       (mkFrame (code_obj f) (global_names f) (local_names f)
          (firstn (stack_height block) (stack f)
           ++ (if why_eqb why WBreak then [] else [return_value vm])
           ++ [VStr (why_name why)])
          bs (handler block) (builtin_names f)),
     Ok None).
Proof.
  intros Hf Hb Hty Hwhy.
  rewrite (manage_block_stack_unwinds _ _ bs block why Hf Hb)
    by (rewrite Hty; reflexivity).
  cbv zeta. rewrite Hty.
  cbn [String.eqb Ascii.eqb Bool.eqb andb orb].
  set (f1 := set_stack (set_block_stack f bs) (firstn (stack_height block) (stack f))).
  assert (Hfinish : forall s,
    (push [VStr (why_name why)] ;; jump (handler block) ;; ret None)
      (with_frame vm (set_stack f1 s))
    = (with_frame vm
         (mkFrame (code_obj f) (global_names f) (local_names f)
            (s ++ [VStr (why_name why)]) bs (handler block) (builtin_names f)),
       @Ok (option why_t) None)).
  { intros s.
    rewrite (bind_ok _ _ _ _ _ (push_eq _ _ _ (vm_frame_with_frame _ _))).
    rewrite with_frame_twice.
    rewrite (bind_ok _ _ _ _ _ (jump_eq _ _ _ (vm_frame_with_frame _ _))).
    rewrite with_frame_twice. reflexivity. }
  destruct why; try contradiction; cbn [why_eqb orb].
  - unfold bind at 1. unfold bind at 1, get_vm.
    rewrite (push_eq _ _ _ (vm_frame_with_frame _ _)), with_frame_twice.
    change (return_value (with_frame vm f1)) with (return_value vm).
    rewrite (Hfinish (stack f1 ++ [return_value vm])).
    unfold f1. cbn [stack set_stack]. now rewrite <- app_assoc.
  - unfold bind at 1, ret.
    pose proof (Hfinish (stack f1)) as H. rewrite set_stack_same in H.
    etransitivity; [exact H|reflexivity].
  - unfold bind at 1. unfold bind at 1, get_vm.
    rewrite (push_eq _ _ _ (vm_frame_with_frame _ _)), with_frame_twice.
    change (return_value (with_frame vm f1)) with (return_value vm).
    rewrite (Hfinish (stack f1 ++ [return_value vm])).
    unfold f1. cbn [stack set_stack]. now rewrite <- app_assoc.
Qed.

Lemma finally_takes_over_the_signal_witness :
  manage_block_stack WReturn guarded_vm
  = (mkVM [mkFrame (Code [] [] [] [] 0 "guarded") VNone VNone
             [VInt 1; VInt 11; VStr "return"] [] (VInt 40) VNone]
          (VInt 11)
          (Some (VExcClass KeyError, VExcInst KeyError (VStr "k"), VNone)) [],
     Ok None).
Proof.
  exact (finally_takes_over_the_signal guarded_vm _ []
           (mkBlock "finally" (VInt 40) 1) WReturn
           eq_refl eq_refl eq_refl ltac:(discriminate)).
Defined.

(** X9.  Unwinding an [except-handler] block needs its three values: with
    fewer than three values on the operand stack [unwind_block] raises
    [ValueError], after it has removed every value from the stack, and the
    last exception stays what it was. *)
Theorem unwind_handler_needs_three_values
  (vm : VirtualMachine) (f : Frame) (block : Block) :
  vm_frame vm = Some f ->
  type block = "except-handler" ->
  length (stack f) < 3 ->
  exists msg,
    unwind_block block vm = (with_frame vm (set_stack f []), Raise ValueError msg).
Proof.
  intros Hf Hty Hlen. eexists. unfold unwind_block. rewrite Hty.
  cbn [String.eqb Ascii.eqb Bool.eqb].
  rewrite (bind_ok _ _ _ _ _ (the_frame_ok _ _ Hf)).
  rewrite (bind_ok _ _ _ _ _ (unwind_pops_truncates _ _ _ _ Hf (le_n _))).
  rewrite firstn_all2 by lia.
  rewrite set_stack_same, (with_frame_same _ _ Hf).
  rewrite (bind_ok _ _ _ _ _ (popn_eq _ _ 3 Hf ltac:(discriminate))).
  unfold py_slice_from, py_delete_from.
  change (- (3))%Z with (- Z.of_nat 3)%Z. rewrite slice_bound_neg by lia.
  replace (length (stack f) - 3) with 0 by lia. cbn [firstn skipn].
  destruct (stack f) as [|a [|b [|c s]]]; try reflexivity.
  simpl in Hlen. lia.
Qed.

Lemma unwind_handler_needs_three_values_witness :
  exists msg,
    unwind_block (mkBlock "except-handler" VNone 0)
      (one_frame (Code [] [] [] [] 0 "short") VNone VNone VNone
         [VInt 1; VInt 2] 0 [])
    = (one_frame (Code [] [] [] [] 0 "short") VNone VNone VNone [] 0 [],
       Raise ValueError msg).
Proof.
  exact (unwind_handler_needs_three_values
           (one_frame (Code [] [] [] [] 0 "short") VNone VNone VNone
              [VInt 1; VInt 2] 0 [])
           _ (mkBlock "except-handler" VNone 0) eq_refl eq_refl
           ltac:(simpl; lia)).
Defined.

Lemma blocks_at_current idx vm f :
  S idx = length (frames vm) -> vm_frame vm = Some f ->
  blocks_at idx vm = block_stack f.
Proof.
  unfold blocks_at, vm_frame. intros Hidx.
  destruct (frames vm) as [|x l] eqn:E; [discriminate|]. intros [= <-].
  assert (H : x :: l = removelast (x :: l) ++ [last l x]).
  { rewrite <- (last_cons_default l x x). apply app_removelast_last. discriminate. }
  assert (Hlen : length (removelast (x :: l)) = idx).
  { apply (f_equal (@length _)) in H. rewrite length_app in H.
    simpl in H, Hidx |- *. lia. }
  rewrite H, nth_error_app2 by lia.
  now rewrite Hlen, Nat.sub_diag.
Qed.

Lemma frames_with_frame_length vm f :
  frames vm <> [] -> length (frames (with_frame vm f)) = length (frames vm).
Proof.
  intros Hne. unfold with_frame. simpl. rewrite length_app. simpl.
  pose proof (app_removelast_last f Hne) as H.
  apply (f_equal (@length _)) in H. rewrite length_app in H. simpl in H. lia.
Qed.

Lemma lowest_height_le_base (bs : list Block) (base : nat) :
  lowest_height bs base <= base.
Proof. induction bs as [|b bs IH]; simpl; lia. Qed.

Lemma lowest_height_snoc bs b base :
  lowest_height (bs ++ [b]) base = lowest_height bs (Nat.min (stack_height b) base).
Proof. unfold lowest_height. now rewrite fold_right_app. Qed.

Lemma vm_frame_frames vm f : vm_frame vm = Some f -> frames vm <> [].
Proof. unfold vm_frame. destruct (frames vm); [discriminate|]. intros _. discriminate. Qed.

Lemma unwind_signal_turn_snoc turns idx w vm bs b :
  blocks_at idx vm = bs ++ [b] ->
  unwind_signal (S turns) idx (Some w) vm
  = match manage_block_stack w vm with
    | (vm', Ok why') => unwind_signal turns idx why' vm'
    | (vm', Raise c e) => (vm', Raise c e)
    end.
Proof. intros H. rewrite unwind_signal_turn, H. now destruct bs. Qed.

(** X10.  A [return] or an [exception] raised inside nested loops leaves all
    of them: the unwinding loop of [run_frame] pops every loop block of the
    frame, the operand stack keeps only the values below the lowest of the
    heights the blocks recorded, the instruction pointer is not moved and the
    signal is still pending afterwards. *)
Theorem signal_leaves_nested_loops (why : why_t) :
  why = WReturn \/ why = WException ->
  forall (bs : list Block) (vm : VirtualMachine) (f : Frame) (idx : nat),
  vm_frame vm = Some f ->
  S idx = length (frames vm) ->
  block_stack f = bs ->
  Forall (fun b => type b = "loop") bs ->
  unwind_signal (S (length bs)) idx (Some why) vm
  = (with_frame vm
       (set_stack (set_block_stack f [])
          (firstn (lowest_height bs (length (stack f))) (stack f))),
     Ok (Some why)).
Proof.
  intros Hwhy bs. induction bs as [|b bs IH] using rev_ind;
    intros vm f idx Hf Hidx Hb Hloops.
  - rewrite unwind_signal_turn, (blocks_at_current _ _ _ Hidx Hf), Hb.
    cbn [lowest_height fold_right]. rewrite firstn_all.
    rewrite <- Hb. replace (set_stack (set_block_stack f (block_stack f)) (stack f))
      with f by now destruct f.
    now rewrite (with_frame_same _ _ Hf).
  - rewrite (unwind_signal_turn_snoc _ _ _ _ bs b)
      by now rewrite (blocks_at_current _ _ _ Hidx Hf).
    apply Forall_app in Hloops. destruct Hloops as [Hbs Hb1].
    inversion Hb1 as [|? ? Hty _]; subst x l.
    assert (Hstep : manage_block_stack why vm
      = (with_frame vm
           (set_stack (set_block_stack f bs) (firstn (stack_height b) (stack f))),
         Ok (Some why))).
    { rewrite (manage_block_stack_unwinds _ _ bs b why Hf Hb);
        rewrite Hty; destruct Hwhy; subst why; reflexivity. }
    rewrite Hstep.
    set (f1 := set_stack (set_block_stack f bs) (firstn (stack_height b) (stack f))).
    rewrite length_app, Nat.add_1_r.
    rewrite (IH (with_frame vm f1) f1 idx (vm_frame_with_frame _ _)
               ltac:(rewrite frames_with_frame_length;
                     [exact Hidx|exact (vm_frame_frames _ _ Hf)])
               eq_refl Hbs).
    rewrite with_frame_twice. f_equal. f_equal.
    unfold f1. cbn [stack set_stack set_block_stack].
    rewrite lowest_height_snoc, length_firstn, firstn_firstn.
    pose proof (lowest_height_le_base bs (Nat.min (stack_height b) (length (stack f)))).
    rewrite Nat.min_l by lia. reflexivity.
Qed.

Lemma signal_leaves_nested_loops_witness :
  unwind_signal 3 0 (Some WReturn) loops_vm
  = (mkVM [mkFrame (Code [] [] [] [] 0 "loops") VNone VNone [VInt 1] []
             (VInt 6) VNone]
          (VInt 11) None [],
     Ok (Some WReturn)).
Proof.
  exact (signal_leaves_nested_loops WReturn (or_introl eq_refl)
           [mkBlock "loop" (VInt 20) 1; mkBlock "loop" (VInt 30) 3]
           loops_vm _ 0 eq_refl eq_refl eq_refl
           ltac:(repeat constructor)).
Defined.

(** ** Names *)

Lemma nth_error_list_set_same {A} (l : list A) (i : nat) (x : A) :
  i < length l -> nth_error (list_set l i x) i = Some x.
Proof.
  revert i. induction l as [|a l IH]; intros [|i] H; simpl in *; try lia.
  - reflexivity.
  - apply IH. lia.
Qed.

Lemma nth_error_list_set_other {A} (l : list A) (i j : nat) (x : A) :
  i <> j -> nth_error (list_set l i x) j = nth_error l j.
Proof.
  revert i j. induction l as [|a l IH]; intros [|i] [|j] H; simpl; try reflexivity.
  - lia.
  - apply IH. lia.
Qed.

Lemma as_dict_address h ns a d : as_dict h ns = Some (a, d) -> ns = VRef a.
Proof.
  unfold as_dict. destruct ns; try discriminate.
  destruct (nth_error h a0) as [[]|]; try discriminate. now intros [= <- _].
Qed.

Lemma as_dict_stored h ns a d d' :
  as_dict h ns = Some (a, d) ->
  as_dict (list_set h a (ODict d')) ns = Some (a, d').
Proof.
  intros H. pose proof (as_dict_address _ _ _ _ H) as ->.
  unfold as_dict in *.
  destruct (nth_error h a) as [o|] eqn:E; [|discriminate].
  rewrite nth_error_list_set_same; [reflexivity|].
  apply nth_error_Some. congruence.
Qed.

Lemma as_dict_not_stored h ns a d b o :
  as_dict h ns = Some (a, d) -> a <> b ->
  as_dict (list_set h b o) ns = Some (a, d).
Proof.
  intros H Hne. pose proof (as_dict_address _ _ _ _ H) as ->.
  unfold as_dict in *. rewrite nth_error_list_set_other by congruence. exact H.
Qed.

Lemma dict_get_set_same k v d :
  key_eqb k k = true -> dict_get k (dict_set k v d) = Some v.
Proof.
  intros Hk. induction d as [|[k' v'] d IH]; simpl.
  - now rewrite Hk.
  - destruct (key_eqb k' k) eqn:E; simpl; rewrite E; [reflexivity|exact IH].
Qed.

(** What [STORE_NAME] and [STORE_FAST] do on a frame whose locals are a
    dictionary. *)
Lemma store_local_eq host vm f s v a d name :
  vm_frame vm = Some f ->
  stack f = s ++ [v] ->
  as_dict (heap vm) (f_locals f) = Some (a, d) ->
  byte_STORE_FAST host (VStr name) vm
  = (set_heap (with_frame vm (set_stack f s))
       (list_set (heap vm) a (ODict (dict_set (VStr name) v d))), Ok tt)
  /\ byte_STORE_NAME host (VStr name) vm = byte_STORE_FAST host (VStr name) vm.
Proof.
  intros Hf Hs Hd. split; [|reflexivity].
  unfold byte_STORE_FAST.
  rewrite (bind_ok _ _ _ _ _ (pop_eq _ _ _ _ Hf Hs)).
  rewrite (bind_ok _ _ _ _ _ (the_frame_ok _ _ (vm_frame_with_frame _ _))).
  exact (setitem_dict host (with_frame vm (set_stack f s)) _ a d (VStr name) v
           Hd eq_refl).
Qed.

(** X11.  A stored local is the one loaded: [STORE_FAST] of a name followed
    by [LOAD_FAST] of the same name puts the stored value back on top of the
    stack, whatever the dictionary of the locals held before; all that has
    changed is that dictionary, which now binds the name to the value. *)
Theorem stored_local_is_loaded
  (host : host_t) (vm : VirtualMachine) (f : Frame) (s : list value) (v : value)
  (a : nat) (d : list (value * value)) (name : string) :
  vm_frame vm = Some f ->
  stack f = s ++ [v] ->
  as_dict (heap vm) (f_locals f) = Some (a, d) ->
  (byte_STORE_FAST host (VStr name) ;; byte_LOAD_FAST host (VStr name)) vm
  = (set_heap vm (list_set (heap vm) a (ODict (dict_set (VStr name) v d))), Ok tt).
Proof.
  intros Hf Hs Hd.
  rewrite (bind_ok _ _ _ _ _ (proj1 (store_local_eq host _ _ _ _ _ _ name Hf Hs Hd))).
  set (h' := list_set (heap vm) a (ODict (dict_set (VStr name) v d))).
  set (vm1 := set_heap (with_frame vm (set_stack f s)) h').
  assert (Hf1 : vm_frame vm1 = Some (set_stack f s)) by apply vm_frame_with_frame.
  assert (Hd1 : as_dict (heap vm1) (f_locals (set_stack f s))
                = Some (a, dict_set (VStr name) v d))
    by (apply as_dict_stored with (d := d); exact Hd).
  unfold byte_LOAD_FAST.
  rewrite (bind_ok _ _ _ _ _ (the_frame_ok _ _ Hf1)).
  rewrite (bind_ok _ _ _ _ _ (contains_dict host _ _ _ _ (VStr name) Hd1 eq_refl)).
  unfold dict_mem. rewrite dict_get_set_same by apply String.eqb_refl.
  rewrite (bind_ok _ _ (vm1) vm1 v).
  2:{ rewrite (getitem_dict host _ _ _ _ (VStr name) Hd1 eq_refl).
      now rewrite dict_get_set_same by apply String.eqb_refl. }
  rewrite (push_eq _ _ _ Hf1).
  unfold vm1. cbn [stack set_stack]. rewrite set_stack_twice, <- Hs, set_stack_same.
  change (with_frame (set_heap (with_frame vm (set_stack f s)) h') f)
    with (set_heap (with_frame (with_frame vm (set_stack f s)) f) h').
  now rewrite with_frame_twice, (with_frame_same _ _ Hf).
Qed.

Lemma stored_local_is_loaded_witness :
  (byte_STORE_FAST int_host (VStr "z") ;; byte_LOAD_FAST int_host (VStr "z"))
    (one_frame (Code [] [] [] ["x"; "y"] 0 "scopes") (VRef 1) (VRef 0) (VRef 2)
       [VInt 7] 0 scope_heap)
  = (one_frame (Code [] [] [] ["x"; "y"] 0 "scopes") (VRef 1) (VRef 0) (VRef 2)
       [VInt 7] 0
       [ ODict [(VStr "x", VInt 1); (VStr "z", VInt 7)];
         ODict [(VStr "x", VInt 10); (VStr "y", VInt 2)];
         ODict [(VStr "len", VHost 0)] ],
     Ok tt).
Proof.
  exact (stored_local_is_loaded int_host
           (one_frame (Code [] [] [] ["x"; "y"] 0 "scopes") (VRef 1) (VRef 0)
              (VRef 2) [VInt 7] 0 scope_heap)
           _ [] (VInt 7) 0 _ "z" eq_refl eq_refl eq_refl).
Defined.

(** X12.  At module level, where the locals of the frame are its globals, a
    name stored by [STORE_NAME] is found by [LOAD_GLOBAL]; in a frame whose
    locals are another dictionary than its globals, [STORE_NAME] leaves the
    globals as they were. *)
Theorem store_name_reaches_globals_only_when_shared
  (host : host_t) (vm : VirtualMachine) (f : Frame) (s : list value) (v : value)
  (a : nat) (d : list (value * value)) (name : string) :
  vm_frame vm = Some f ->
  stack f = s ++ [v] ->
  as_dict (heap vm) (f_locals f) = Some (a, d) ->
  (f_globals f = f_locals f ->
   (byte_STORE_NAME host (VStr name) ;; byte_LOAD_GLOBAL host (VStr name)) vm
   = (set_heap vm (list_set (heap vm) a (ODict (dict_set (VStr name) v d))), Ok tt))
  /\
  (forall ag dg,
     as_dict (heap vm) (f_globals f) = Some (ag, dg) -> ag <> a ->
     as_dict (heap (fst (byte_STORE_NAME host (VStr name) vm))) (f_globals f)
     = Some (ag, dg)).
Proof.
  intros Hf Hs Hd.
  pose proof (store_local_eq host _ _ _ _ _ _ name Hf Hs Hd) as [Hfast Hname].
  rewrite <- Hname in Hfast. clear Hname. split.
  - intros Hshared.
    rewrite (bind_ok _ _ _ _ _ Hfast).
    set (h' := list_set (heap vm) a (ODict (dict_set (VStr name) v d))).
    set (vm1 := set_heap (with_frame vm (set_stack f s)) h').
    assert (Hf1 : vm_frame vm1 = Some (set_stack f s)) by apply vm_frame_with_frame.
    assert (Hd1 : as_dict (heap vm1) (f_globals (set_stack f s))
                  = Some (a, dict_set (VStr name) v d)).
    { change (f_globals (set_stack f s)) with (f_globals f). rewrite Hshared.
      apply as_dict_stored with (d := d). exact Hd. }
    unfold byte_LOAD_GLOBAL.
    rewrite (bind_ok _ _ _ _ _ (the_frame_ok _ _ Hf1)).
    rewrite (bind_ok _ _ _ _ _ (contains_dict host _ _ _ _ (VStr name) Hd1 eq_refl)).
    unfold dict_mem. rewrite dict_get_set_same by apply String.eqb_refl.
    rewrite (bind_ok _ _ (vm1) vm1 v).
    2:{ rewrite (getitem_dict host _ _ _ _ (VStr name) Hd1 eq_refl).
        now rewrite dict_get_set_same by apply String.eqb_refl. }
    rewrite (push_eq _ _ _ Hf1).
    unfold vm1. cbn [stack set_stack]. rewrite set_stack_twice, <- Hs, set_stack_same.
    change (with_frame (set_heap (with_frame vm (set_stack f s)) h') f)
      with (set_heap (with_frame (with_frame vm (set_stack f s)) f) h').
    now rewrite with_frame_twice, (with_frame_same _ _ Hf).
  - intros ag dg Hg Hne. rewrite Hfast. cbn [fst heap set_heap].
    apply as_dict_not_stored; assumption.
Qed.

Lemma store_name_reaches_globals_only_when_shared_witness :
  (byte_STORE_NAME int_host (VStr "z") ;; byte_LOAD_GLOBAL int_host (VStr "z"))
    (one_frame (Code [] [] [] [] 0 "<module>") (VRef 1) (VRef 1) (VRef 0)
       [VInt 7] 0 test_heap)
  = (one_frame (Code [] [] [] [] 0 "<module>") (VRef 1) (VRef 1) (VRef 0)
       [VInt 7] 0
       [ ODict [(VStr "len", VHost 0)];
         ODict [(VStr "__name__", VStr "__main__"); (VStr "__builtins__", VRef 0);
                (VStr "z", VInt 7)] ],
     Ok tt)
  /\ as_dict
       (heap (fst (byte_STORE_NAME int_host (VStr "z")
                     (one_frame (Code [] [] [] ["x"; "y"] 0 "scopes") (VRef 1)
                        (VRef 0) (VRef 2) [VInt 7] 0 scope_heap))))
       (VRef 1)
     = Some (1, [(VStr "x", VInt 10); (VStr "y", VInt 2)]).
Proof.
  split.
  - exact (proj1 (store_name_reaches_globals_only_when_shared int_host
                    (one_frame (Code [] [] [] [] 0 "<module>") (VRef 1) (VRef 1)
                       (VRef 0) [VInt 7] 0 test_heap)
                    _ [] (VInt 7) 1 _ "z" eq_refl eq_refl eq_refl) eq_refl).
  - exact (proj2 (store_name_reaches_globals_only_when_shared int_host
                    (one_frame (Code [] [] [] ["x"; "y"] 0 "scopes") (VRef 1)
                       (VRef 0) (VRef 2) [VInt 7] 0 scope_heap)
                    _ [] (VInt 7) 0 _ "z" eq_refl eq_refl eq_refl)
             1 _ eq_refl ltac:(discriminate)).
Defined.

(** X13.  [LOAD_GLOBAL] resolves a name in the globals and then in the
    builtins, and never in the locals: whatever the locals of the frame are,
    a name bound in neither of the two raises [NameError] and leaves the
    machine as it was. *)
Theorem load_global_skips_locals
  (host : host_t) (vm : VirtualMachine) (f : Frame) (name : string)
  (ag ab : nat) (dg db : list (value * value)) :
  vm_frame vm = Some f ->
  as_dict (heap vm) (f_globals f) = Some (ag, dg) ->
  as_dict (heap vm) (f_builtins f) = Some (ab, db) ->
  let pushed v := (with_frame vm (set_stack f (stack f ++ [v])), Ok tt) in
  byte_LOAD_GLOBAL host (VStr name) vm =
    match dict_get (VStr name) dg with
    | Some v => pushed v
    | None =>
        match dict_get (VStr name) db with
        | Some v => pushed v
        | None =>
            (vm, Raise NameError
                   (VStr ("global name '" ++ name ++ "' is not defined")))
        end
    end.
Proof.
  intros Hf Hg Hb pushed. unfold byte_LOAD_GLOBAL.
  rewrite (bind_ok _ _ _ _ _ (the_frame_ok _ _ Hf)).
  rewrite (bind_ok _ _ _ _ _ (contains_dict host _ _ _ _ (VStr name) Hg eq_refl)).
  unfold dict_mem.
  destruct (dict_get (VStr name) dg) as [v|] eqn:Eg.
  - rewrite (bind_ok _ _ vm vm v).
    + now rewrite (push_eq _ _ _ Hf).
    + now rewrite (getitem_dict host _ _ _ _ (VStr name) Hg eq_refl), Eg.
  - unfold bind at 1.
    rewrite (bind_ok _ _ _ _ _ (contains_dict host _ _ _ _ (VStr name) Hb eq_refl)).
    unfold dict_mem.
    destruct (dict_get (VStr name) db) as [v|] eqn:Eb.
    + rewrite (getitem_dict host _ _ _ _ (VStr name) Hb eq_refl), Eb.
      now rewrite (push_eq _ _ _ Hf).
    + reflexivity.
Qed.

Lemma load_global_skips_locals_witness :
  byte_LOAD_GLOBAL int_host (VStr "x") scope_vm
  = (one_frame (Code [] [] [] ["x"; "y"] 0 "scopes") (VRef 1) (VRef 0) (VRef 2)
       [VInt 10] 0 scope_heap, Ok tt).
Proof.
  exact (load_global_skips_locals int_host scope_vm _ "x" 1 2 _ _
           eq_refl eq_refl eq_refl).
Defined.

(** ** Operators *)







(** ** Operands of the decoder *)

Lemma byte_pair_value (b0 b1 : Z) :
  (0 <= b0 < 256)%Z -> Z.lor b0 (Z.shiftl b1 8) = (b0 + 256 * b1)%Z.
Proof.
  intros Hb0.
  assert (Hland : Z.land b0 (Z.shiftl b1 8) = 0%Z).
  { apply Z.bits_inj'. intros n Hn. rewrite Z.land_spec, Z.bits_0.
    destruct (Z.ltb_spec n 8).
    - rewrite (Z.shiftl_spec_low b1 8 n) by lia. apply andb_false_r.
    - assert (Hsmall : Z.testbit b0 n = false).
      { apply Z.testbit_false; [lia|].
        rewrite Z.div_small; [reflexivity|].
        assert (Hpow : (2 ^ 8 <= 2 ^ n)%Z) by (apply Z.pow_le_mono_r; lia).
        change (2 ^ 8)%Z with 256%Z in Hpow. lia. }
      now rewrite Hsmall. }
  rewrite <- (Z.lxor_lor _ _ Hland), <- (Z.add_nocarry_lxor _ _ Hland).
  rewrite Z.shiftl_mul_pow2 by lia. change (2 ^ 8)%Z with 256%Z. lia.
Qed.

(** The decoder on an instruction that has its two operand bytes: what is
    left is the resolution of the operand. *)
Lemma parse_with_operand dis vm f p byteCode b0 b1 byte_name :
  vm_frame vm = Some f ->
  last_instruction f = VInt p ->
  (0 <= p)%Z ->
  nth_error (co_code (code_obj f)) (Z.to_nat p) = Some byteCode ->
  nth_error (co_code (code_obj f)) (S (Z.to_nat p)) = Some b0 ->
  nth_error (co_code (code_obj f)) (S (S (Z.to_nat p))) = Some b1 ->
  py_index (opname dis) byteCode = Some byte_name ->
  (HAVE_ARGUMENT dis <= byteCode)%Z ->
  parse_byte_and_args dis vm
  = (let co := code_obj f in
     let arg_val := Z.lor b0 (Z.shiftl b1 8) in
     arg <-
       (if mem_Z byteCode (hasconst dis) then
          if (arg_val <? Z.of_nat (length (co_consts co)))%Z then
            match py_index (co_consts co) arg_val with
            | Some c => ret c
            | None => index_error
            end
          else ret VNone
        else if mem_Z byteCode (hasname dis) then
          if (arg_val <? Z.of_nat (length (co_names co)))%Z then
            match py_index (co_names co) arg_val with
            | Some n => ret (VStr n)
            | None => index_error
            end
          else ret (VInt arg_val)
        else if mem_Z byteCode (haslocal dis) then
          if (arg_val <? Z.of_nat (length (co_varnames co)))%Z then
            match py_index (co_varnames co) arg_val with
            | Some n => ret (VStr n)
            | None => index_error
            end
          else ret (VInt arg_val)
        else if mem_Z byteCode (hasjrel dis) then
          ret (VInt (p + 3 + arg_val))
        else ret (VInt arg_val)) ;;
     ret (byte_name, [arg]))
      (with_frame vm (set_last_instruction f (VInt (p + 3)))).
Proof.
  intros Hf Hp Hp0 Hbyte Hb0 Hb1 Hname Harg.
  assert (Hin : S (S (Z.to_nat p)) < length (co_code (code_obj f)))
    by (apply nth_error_Some; congruence).
  unfold parse_byte_and_args.
  rewrite (bind_ok _ _ _ _ _ (the_frame_ok _ _ Hf)). rewrite Hp. cbn [as_int].
  destruct (Z.leb_spec (Z.of_nat (length (co_code (code_obj f)))) p); [lia|].
  rewrite (py_index_nonneg _ _ Hp0), Hbyte.
  rewrite (bind_ok _ _ _ _ _ (put_frame_eq _ _)).
  rewrite Hname.
  destruct (Z.leb_spec (HAVE_ARGUMENT dis) byteCode); [|lia].
  destruct (Z.leb_spec (Z.of_nat (length (co_code (code_obj f)))) (p + 1 + 1)); [lia|].
  rewrite (bind_ok _ _ _ _ _ (put_frame_eq _ _)).
  rewrite (py_slice_pair _ (p + 1) b0 b1); try lia;
    [| replace (Z.to_nat (p + 1)) with (S (Z.to_nat p)) by lia; assumption
     | replace (Z.to_nat (p + 1)) with (S (Z.to_nat p)) by lia; assumption ].
  rewrite with_frame_twice.
  replace (p + 1 + 2)%Z with (p + 3)%Z by lia. reflexivity.
Qed.

(** X16.  The plain cases of the decoder.  An opcode below [HAVE_ARGUMENT]
    is returned with an empty argument list and moves the pointer by one.  An
    opcode from [HAVE_ARGUMENT] on, followed by the bytes [b0] and [b1], moves
    the pointer by three and has the operand [b0 + 256 * b1], the 16-bit
    little-endian value; for an opcode of [dis.hasjrel] the operand is counted
    from the instruction that follows, and the argument is the target
    [p + 3 + b0 + 256 * b1]. *)
Theorem decode_raw_and_relative_operands
  (dis : Dis) (vm : VirtualMachine) (f : Frame) (p byteCode : Z)
  (byte_name : string) :
  vm_frame vm = Some f ->
  last_instruction f = VInt p ->
  (0 <= p)%Z ->
  nth_error (co_code (code_obj f)) (Z.to_nat p) = Some byteCode ->
  py_index (opname dis) byteCode = Some byte_name ->
  ((byteCode < HAVE_ARGUMENT dis)%Z ->
   parse_byte_and_args dis vm
   = (with_frame vm (set_last_instruction f (VInt (p + 1))), Ok (byte_name, [])))
  /\
  (forall b0 b1,
     (HAVE_ARGUMENT dis <= byteCode)%Z ->
     nth_error (co_code (code_obj f)) (S (Z.to_nat p)) = Some b0 ->
     nth_error (co_code (code_obj f)) (S (S (Z.to_nat p))) = Some b1 ->
     (0 <= b0 < 256)%Z ->
     mem_Z byteCode (hasconst dis) = false ->
     mem_Z byteCode (hasname dis) = false ->
     mem_Z byteCode (haslocal dis) = false ->
     parse_byte_and_args dis vm
     = (with_frame vm (set_last_instruction f (VInt (p + 3))),
        Ok (byte_name,
            [VInt (if mem_Z byteCode (hasjrel dis)
                   then p + 3 + (b0 + 256 * b1)
                   else b0 + 256 * b1)%Z]))).
Proof.
  intros Hf Hp Hp0 Hbyte Hname. split.
  - intros Hlow.
    assert (Hin : Z.to_nat p < length (co_code (code_obj f)))
      by (apply nth_error_Some; congruence).
    unfold parse_byte_and_args.
    rewrite (bind_ok _ _ _ _ _ (the_frame_ok _ _ Hf)). rewrite Hp. cbn [as_int].
    destruct (Z.leb_spec (Z.of_nat (length (co_code (code_obj f)))) p); [lia|].
    rewrite (py_index_nonneg _ _ Hp0), Hbyte.
    rewrite (bind_ok _ _ _ _ _ (put_frame_eq _ _)).
    rewrite Hname.
    destruct (Z.leb_spec (HAVE_ARGUMENT dis) byteCode); [lia|reflexivity].
  - intros b0 b1 Harg Hb0 Hb1 Hbyte0 Hc Hn Hl.
    rewrite (parse_with_operand dis vm f p byteCode b0 b1 byte_name) by assumption.
    cbv zeta. rewrite Hc, Hn, Hl, (byte_pair_value b0 b1 Hbyte0).
    now destruct (mem_Z byteCode (hasjrel dis)).
Qed.

Lemma decode_raw_and_relative_operands_witness :
  parse_byte_and_args dis_classic
    (one_frame operand_code VNone VNone VNone [] 0 [])
  = (one_frame operand_code VNone VNone VNone [] 1 [], Ok ("RETURN_VALUE", []))
  /\ parse_byte_and_args dis_classic
       (one_frame operand_code VNone VNone VNone [] 1 [])
     = (one_frame operand_code VNone VNone VNone [] 4 [],
        Ok ("JUMP_FORWARD", [VInt 262])).
Proof.
  split.
  - exact (proj1 (decode_raw_and_relative_operands dis_classic
                    (one_frame operand_code VNone VNone VNone [] 0 []) _ 0 83
                    "RETURN_VALUE" eq_refl eq_refl ltac:(lia) eq_refl eq_refl)
             eq_refl).
  - exact (proj2 (decode_raw_and_relative_operands dis_classic
                    (one_frame operand_code VNone VNone VNone [] 1 []) _ 1 110
                    "JUMP_FORWARD" eq_refl eq_refl ltac:(lia) eq_refl eq_refl)
             2%Z 1%Z ltac:(vm_compute; congruence) eq_refl eq_refl ltac:(lia)
             eq_refl eq_refl eq_refl).
Defined.

(** X17.  Names and locals: an opcode of [dis.hasname] whose operand is an
    index into [co_names] gets the name at that index, and an opcode of
    [dis.haslocal] the variable name at that index in [co_varnames]; an index
    past the end of the table is no fault: the argument is then the index
    itself, an integer where the instruction expects a name. *)
Theorem decode_name_operands
  (dis : Dis) (vm : VirtualMachine) (f : Frame) (p byteCode b0 b1 : Z)
  (byte_name : string) :
  vm_frame vm = Some f ->
  last_instruction f = VInt p ->
  (0 <= p)%Z ->
  nth_error (co_code (code_obj f)) (Z.to_nat p) = Some byteCode ->
  nth_error (co_code (code_obj f)) (S (Z.to_nat p)) = Some b0 ->
  nth_error (co_code (code_obj f)) (S (S (Z.to_nat p))) = Some b1 ->
  py_index (opname dis) byteCode = Some byte_name ->
  (HAVE_ARGUMENT dis <= byteCode)%Z ->
  (0 <= b0 < 256)%Z -> (0 <= b1)%Z ->
  mem_Z byteCode (hasconst dis) = false ->
  let index := Z.to_nat (b0 + 256 * b1) in
  let decoded (table : list string) :=
    (with_frame vm (set_last_instruction f (VInt (p + 3))),
     Ok (byte_name,
         [match nth_error table index with
          | Some name => VStr name
          | None => VInt (b0 + 256 * b1)
          end])) in
  (mem_Z byteCode (hasname dis) = true ->
   parse_byte_and_args dis vm = decoded (co_names (code_obj f)))
  /\
  (mem_Z byteCode (hasname dis) = false ->
   mem_Z byteCode (haslocal dis) = true ->
   parse_byte_and_args dis vm = decoded (co_varnames (code_obj f))).
Proof.
  intros Hf Hp Hp0 Hbyte Hb0 Hb1 Hname Harg Hbyte0 Hbyte1 Hc index decoded.
  assert (Hresolve : forall table : list string,
    (if (b0 + 256 * b1 <? Z.of_nat (length table))%Z
     then match py_index table (b0 + 256 * b1) with
          | Some n => ret (VStr n)
          | None => index_error
          end
     else ret (VInt (b0 + 256 * b1)))
    = ret match nth_error table index with
          | Some name => VStr name
          | None => VInt (b0 + 256 * b1)
          end).
  { intros table. unfold index.
    destruct (Z.ltb_spec (b0 + 256 * b1) (Z.of_nat (length table))) as [Hlt|Hge].
    - rewrite py_index_nonneg by lia.
      destruct (nth_error table (Z.to_nat (b0 + 256 * b1))) eqn:E; [reflexivity|].
      apply nth_error_None in E. lia.
    - assert (E : nth_error table (Z.to_nat (b0 + 256 * b1)) = None)
        by (apply nth_error_None; lia).
      now rewrite E. }
  split.
  - intros Hn.
    rewrite (parse_with_operand dis vm f p byteCode b0 b1 byte_name) by assumption.
    cbv zeta. rewrite Hc, Hn, (byte_pair_value b0 b1 Hbyte0), Hresolve.
    reflexivity.
  - intros Hn Hl.
    rewrite (parse_with_operand dis vm f p byteCode b0 b1 byte_name) by assumption.
    cbv zeta. rewrite Hc, Hn, Hl, (byte_pair_value b0 b1 Hbyte0), Hresolve.
    reflexivity.
Qed.

Lemma decode_name_operands_witness :
  parse_byte_and_args dis_classic
    (one_frame operand_code VNone VNone VNone [] 4 [])
  = (one_frame operand_code VNone VNone VNone [] 7 [],
     Ok ("LOAD_NAME", [VStr "x"]))
  /\ parse_byte_and_args dis_classic
       (one_frame operand_code VNone VNone VNone [] 7 [])
     = (one_frame operand_code VNone VNone VNone [] 10 [],
        Ok ("LOAD_NAME", [VInt 5]))
  /\ parse_byte_and_args dis_classic
       (one_frame operand_code VNone VNone VNone [] 10 [])
     = (one_frame operand_code VNone VNone VNone [] 13 [],
        Ok ("LOAD_FAST", [VStr "b"])).
Proof.
  split; [|split].
  - exact (proj1 (decode_name_operands dis_classic
                    (one_frame operand_code VNone VNone VNone [] 4 []) _ 4 101 0 0
                    "LOAD_NAME" eq_refl eq_refl ltac:(lia) eq_refl eq_refl eq_refl
                    eq_refl ltac:(vm_compute; congruence) ltac:(lia) ltac:(lia)
                    eq_refl)
             eq_refl).
  - exact (proj1 (decode_name_operands dis_classic
                    (one_frame operand_code VNone VNone VNone [] 7 []) _ 7 101 5 0
                    "LOAD_NAME" eq_refl eq_refl ltac:(lia) eq_refl eq_refl eq_refl
                    eq_refl ltac:(vm_compute; congruence) ltac:(lia) ltac:(lia)
                    eq_refl)
             eq_refl).
  - exact (proj2 (decode_name_operands dis_classic
                    (one_frame operand_code VNone VNone VNone [] 10 []) _ 10 124 1 0
                    "LOAD_FAST" eq_refl eq_refl ltac:(lia) eq_refl eq_refl eq_refl
                    eq_refl ltac:(vm_compute; congruence) ltac:(lia) ltac:(lia)
                    eq_refl)
             eq_refl eq_refl).
Defined.

(** ** Frames *)

Lemma str_keys_main builtins : str_keys (main_namespace builtins).
Proof.
  repeat constructor; cbn [fst]; eexists; reflexivity.
Qed.

(** X18.  The namespaces [make_frame] gives a frame when it is passed none.
    For the first frame of a machine, globals and locals are one and the same
    new dictionary, which holds [__builtins__], [__name__], [__doc__] and
    [__package__] and then the call arguments; the builtins of the frame are
    those of the machine's module, here a dictionary, as long as no call
    argument is named [__builtins__].  Under a running frame whose globals
    are a dictionary, the globals are those of that frame, its builtins are
    inherited, and the locals are a new dictionary of their own that holds
    [__builtins__] (from the globals when they have it) and the call
    arguments. *)
Theorem make_frame_default_namespaces
  (host : host_t) (builtins : value) (code : code) (vm : VirtualMachine) :
  let a := length (heap vm) in
  (forall ps ab db,
     vm_frame vm = None ->
     as_dict (heap vm) builtins = Some (ab, db) ->
     NoDup (map fst ps) ->
     ~ In "__builtins__" (map fst ps) ->
     make_frame host builtins code (str_items ps) None None vm
     = (set_heap vm
          (heap vm ++ [ODict (dict_update (main_namespace builtins) (str_items ps))]),
        Ok (mkFrame code (VRef a) (VRef a) [] [] (VInt 0) builtins)))
  /\
  (forall callargs f ag dg,
     vm_frame vm = Some f ->
     as_dict (heap vm) (global_names f) = Some (ag, dg) ->
     let b := match dict_get (VStr "__builtins__") dg with
              | Some v => v
              | None => builtins
              end in
     make_frame host builtins code callargs None None vm
     = (set_heap vm
          (heap vm ++ [ODict (dict_update [(VStr "__builtins__", b)] callargs)]),
        Ok (mkFrame code (global_names f) (VRef a) [] [] (VInt 0)
              (builtin_names f)))).
Proof.
  intros a. split.
  - intros ps ab db Hnone Hb Hnd Hnot. unfold make_frame.
    rewrite bind_get, Hnone.
    unfold bind at 1. unfold bind at 1, alloc, ret.
    set (vm0 := set_heap vm (heap vm ++ [ODict (main_namespace builtins)])).
    assert (Hl0 : as_dict (heap vm0) (VRef a) = Some (a, main_namespace builtins))
      by apply as_dict_new.
    rewrite (bind_ok _ _ _ _ _
               (contains_dict host _ _ _ _ (VStr "__builtins__") Hl0 eq_refl)).
    change (dict_mem (VStr "__builtins__") (main_namespace builtins)) with true.
    cbv iota. unfold bind at 1. cbv beta iota.
    rewrite (bind_ok _ _ _ _ _ (update_dict host _ _ _ _ (str_items ps) Hl0)).
    rewrite bind_get. unfold vm0, a. cbn [heap set_heap]. rewrite list_set_end.
    fold a. set (d := dict_update (main_namespace builtins) (str_items ps)).
    set (vm1 := set_heap (set_heap vm (heap vm ++ [ODict (main_namespace builtins)]))
                  (heap vm ++ [ODict d])).
    change (vm_frame vm1) with (vm_frame vm). rewrite Hnone.
    unfold Frame_init.
    assert (Hl1 : as_dict (heap vm1) (VRef a) = Some (a, d)) by apply as_dict_new.
    assert (Hget : dict_get (VStr "__builtins__") d = Some builtins).
    { unfold d.
      rewrite (dict_get_update_str _ _ _ (str_keys_main builtins) Hnd).
      now rewrite (assoc_not_in _ _ Hnot). }
    unfold bind at 1. unfold bind at 1.
    rewrite (getitem_dict host _ _ _ _ (VStr "__builtins__") Hl1 eq_refl), Hget.
    rewrite bind_get.
    assert (Hb1 : as_dict (heap vm1) builtins = Some (ab, db))
      by (apply as_dict_app; exact Hb).
    rewrite Hb1. reflexivity.
  - intros callargs f ag dg Hf Hg b. unfold make_frame.
    rewrite bind_get, Hf.
    unfold bind at 1. unfold bind at 1, alloc, ret.
    set (vm0 := set_heap vm (heap vm ++ [ODict []])).
    assert (Hl0 : as_dict (heap vm0) (VRef a) = Some (a, [])) by apply as_dict_new.
    assert (Hg0 : as_dict (heap vm0) (global_names f) = Some (ag, dg))
      by (apply as_dict_app; exact Hg).
    rewrite (bind_ok _ _ _ _ _
               (contains_dict host _ _ _ _ (VStr "__builtins__") Hl0 eq_refl)).
    cbn [dict_mem dict_get].
    assert (Hstore : forall v,
      setitem host (VRef a) (VStr "__builtins__") v vm0
      = (set_heap vm (heap vm ++ [ODict [(VStr "__builtins__", v)]]), Ok tt)).
    { intros v.
      rewrite (setitem_dict host _ _ _ _ (VStr "__builtins__") v Hl0 eq_refl).
      unfold vm0, a. cbn [heap set_heap dict_set]. now rewrite list_set_end. }
    assert (Hset :
      (t <- truthy host (global_names f) ;;
       g_has <- (if t then contains host (global_names f) (VStr "__builtins__")
                 else ret false) ;;
       (if g_has
        then b0 <- getitem host (global_names f) (VStr "__builtins__") ;;
             setitem host (VRef a) (VStr "__builtins__") b0
        else setitem host (VRef a) (VStr "__builtins__") builtins)) vm0
      = (set_heap vm (heap vm ++ [ODict [(VStr "__builtins__", b)]]), Ok tt)).
    { rewrite (bind_ok _ _ _ _ _ (truthy_dict host _ _ _ _ Hg0)).
      destruct (Nat.eqb_spec (length dg) 0) as [Hz|Hnz]; cbn [negb].
      - rewrite bind_ret. subst b.
        rewrite (dict_get_empty_length _ _ Hz). apply Hstore.
      - rewrite (bind_ok _ _ _ _ _
                   (contains_dict host _ _ _ _ (VStr "__builtins__") Hg0 eq_refl)).
        unfold dict_mem. subst b.
        destruct (dict_get (VStr "__builtins__") dg) as [v|] eqn:Eg.
        + unfold bind at 1.
          rewrite (getitem_dict host _ _ _ _ (VStr "__builtins__") Hg0 eq_refl), Eg.
          apply Hstore.
        + apply Hstore. }
    rewrite (bind_ok _ _ _ _ _ Hset).
    set (vm1 := set_heap vm (heap vm ++ [ODict [(VStr "__builtins__", b)]])).
    assert (Hl1 : as_dict (heap vm1) (VRef a)
                  = Some (a, [(VStr "__builtins__", b)]))
      by apply as_dict_new.
    rewrite (bind_ok _ _ _ _ _ (update_dict host _ _ _ _ callargs Hl1)).
    rewrite bind_get. unfold vm1, a. cbn [heap set_heap].
    rewrite list_set_end.
    change (vm_frame (set_heap _ _)) with (vm_frame vm). rewrite Hf.
    reflexivity.
Qed.

Lemma make_frame_default_namespaces_witness :
  make_frame int_host (VRef 0) add_code_classic (str_items [("a", VInt 2)])
    None None (VirtualMachine_init test_heap)
  = (VirtualMachine_init
       (test_heap ++
        [ODict [(VStr "__builtins__", VRef 0); (VStr "__name__", VStr "__main__");
                (VStr "__doc__", VNone); (VStr "__package__", VNone);
                (VStr "a", VInt 2)]]),
     Ok (mkFrame add_code_classic (VRef 2) (VRef 2) [] [] (VInt 0) (VRef 0)))
  /\ make_frame int_host (VRef 0) add_code_classic [(VStr "a", VInt 2)]
       None None module_vm
     = (set_heap module_vm
          (test_heap ++
           [ODict [(VStr "__builtins__", VRef 0); (VStr "a", VInt 2)]]),
        Ok (mkFrame add_code_classic (VRef 1) (VRef 2) [] [] (VInt 0) (VRef 0))).
Proof.
  split.
  - exact (proj1 (make_frame_default_namespaces int_host (VRef 0) add_code_classic
                    (VirtualMachine_init test_heap))
             [("a", VInt 2)] 0 _ eq_refl eq_refl
             ltac:(repeat constructor; simpl; tauto)
             ltac:(simpl; intuition discriminate)).
  - exact (proj2 (make_frame_default_namespaces int_host (VRef 0) add_code_classic
                    module_vm)
             [(VStr "a", VInt 2)] _ 1 _ eq_refl eq_refl).
Defined.

(** ** Leaving a frame *)

Lemma vm_frame_entered vm f : vm_frame (set_frames vm (frames vm ++ [f])) = Some f.
Proof.
  unfold vm_frame. cbn [frames set_frames].
  destruct (frames vm ++ [f]) as [|x l] eqn:E; [now destruct (frames vm)|].
  rewrite <- (last_cons_default l x f), <- E. now rewrite last_last.
Qed.

Lemma with_frame_entered vm f g :
  with_frame (set_frames vm (frames vm ++ [f])) g = set_frames vm (frames vm ++ [g]).
Proof. unfold with_frame. cbn [frames set_frames]. now rewrite removelast_last. Qed.

Lemma return_handler host call :
  assoc "RETURN_VALUE" (byte_handlers host call)
  = Some (no_operand_why byte_RETURN_VALUE).
Proof. reflexivity. Qed.

Lemma pop_frame_entered vm f :
  pop_frame (set_frames vm (frames vm ++ [f])) = (vm, Ok tt).
Proof.
  unfold pop_frame. cbn [frames set_frames].
  destruct (frames vm ++ [f]) eqn:E; [now destruct (frames vm)|].
  rewrite <- E, removelast_last. now destruct vm.
Qed.

(** X19.  A frame without blocks whose instruction pointer is at or past the
    end of its code returns at once: [run_frame] returns the value on top of
    its operand stack, or [None] when that stack is empty, records it as
    [self.return_value], and leaves the call stack, the heap and the last
    exception as they were. *)
Theorem run_frame_returns_at_end_of_code
  (dis : Dis) (host : host_t) (call : Function -> list value -> M value)
  (frame : Frame) (vm : VirtualMachine) (p : Z) :
  last_instruction frame = VInt p ->
  (Z.of_nat (length (co_code (code_obj frame))) <= p)%Z ->
  block_stack frame = [] ->
  let v := last (stack frame) VNone in
  run_frame dis host call frame vm = (set_return_value vm v, Ok v).
Proof.
  intros Hp Hend Hblocks v.
  rewrite run_frame_leave. cbn [steps].
  set (entered := set_frames vm (frames vm ++ [frame])).
  assert (Hf : vm_frame entered = Some frame) by apply vm_frame_entered.
  assert (Hparse : parse_byte_and_args dis entered = (entered, Ok ("RETURN_VALUE", []))).
  { unfold parse_byte_and_args.
    rewrite (bind_ok _ _ _ _ _ (the_frame_ok _ _ Hf)). rewrite Hp. cbn [as_int].
    destruct (Z.leb_spec (Z.of_nat (length (co_code (code_obj frame)))) p);
      [reflexivity|lia]. }
  assert (Hret : exists frame',
    block_stack frame' = []
    /\ dispatch host call "RETURN_VALUE" [] entered
       = (set_return_value (set_frames vm (frames vm ++ [frame'])) v, Some WReturn)).
  { unfold dispatch, dispatch_try.
    change (String.eqb "RETURN_VALUE" "BEFORE_ASYNC_WITH") with false.
    cbn [andb]. rewrite return_handler. unfold no_operand_why, byte_RETURN_VALUE.
    rewrite (bind_ok _ _ _ _ _ (the_frame_ok _ _ Hf)).
    destruct (stack frame) as [|x l] eqn:Es.
    - exists frame. split; [exact Hblocks|]. reflexivity.
    - exists (set_stack frame (removelast (x :: l))). split; [exact Hblocks|].
      assert (Hs : stack frame = removelast (x :: l) ++ [last (x :: l) VNone])
        by (rewrite Es; apply app_removelast_last; discriminate).
      cbn [length Nat.eqb].
      unfold bind at 1. unfold bind at 1.
      rewrite (pop_eq _ _ _ _ Hf Hs).
      unfold entered. rewrite with_frame_entered. reflexivity. }
  destruct Hret as (frame' & Hb' & Hret).
  unfold step. rewrite Hparse, Hret.
  set (vm2 := set_return_value (set_frames vm (frames vm ++ [frame'])) v).
  assert (Hf2 : vm_frame vm2 = Some frame') by apply vm_frame_entered.
  rewrite unwind_signal_turn.
  rewrite (blocks_at_current (length (frames vm)) vm2 frame');
    [|unfold vm2; cbn [frames set_return_value set_frames];
      rewrite length_app; simpl; lia|exact Hf2].
  rewrite Hb'.
  unfold leave_frame.
  assert (Hpop : pop_frame vm2 = (set_return_value vm v, Ok tt)).
  { unfold vm2.
    change (set_return_value (set_frames vm (frames vm ++ [frame'])) v)
      with (set_frames (set_return_value vm v)
              (frames (set_return_value vm v) ++ [frame'])).
    apply pop_frame_entered. }
  rewrite (bind_ok _ _ _ _ _ Hpop). reflexivity.
Qed.

Lemma run_frame_returns_at_end_of_code_witness :
  run_frame dis_classic int_host no_calls
    (mkFrame (Code [] [] [] [] 0 "empty") VNone VNone [VInt 3] [] (VInt 0) VNone)
    (VirtualMachine_init [])
  = (mkVM [] (VInt 3) None [], Ok (VInt 3)).
Proof.
  exact (run_frame_returns_at_end_of_code dis_classic int_host no_calls
           (mkFrame (Code [] [] [] [] 0 "empty") VNone VNone [VInt 3] [] (VInt 0)
              VNone)
           (VirtualMachine_init []) 0 eq_refl ltac:(simpl; lia) eq_refl).
Defined.

(** X20.  A fault that no block of the frame catches leaves [run_frame] as a
    fault of the same class: when the loop ends on the signal [exception]
    with the last exception that [dispatch] records for a fault of class [c]
    with argument [e], [run_frame] pops the frame and raises [c]; the instance
    it raises is built anew from the recorded instance, which becomes its
    argument. *)
Theorem run_frame_raises_the_last_exception
  (dis : Dis) (host : host_t) (builtins : value) (depth : nat)
  (frame : Frame) (vm vm' : VirtualMachine) (n : nat) (c : exc_class) (e : value) :
  let call := call_function dis host builtins depth in
  let entered := set_frames vm (frames vm ++ [frame]) in
  run_loop dis host call (length (frames vm)) 0 entered
  = (vm', Ok (Some WException, n)) ->
  last_exception vm' = Some (VExcClass c, VExcInst c e, VNone) ->
  (forall tag, c <> HostError tag) ->
  run_frame dis host call frame vm
  = (set_frames vm' (removelast (frames vm')), Raise c (VExcInst c e)).
Proof.
  intros call entered Hrun Hexc Hc.
  rewrite (run_loop_is_steps dis host call (length (frames vm)) 101 0 entered)
    in Hrun by lia.
  rewrite run_frame_leave. fold entered. rewrite Hrun.
  apply (steps_keep dis host call (keeps_call_function dis host builtins depth))
    in Hrun.
  unfold entered in Hrun. cbn [frames set_frames] in Hrun.
  rewrite length_app in Hrun. simpl in Hrun.
  unfold leave_frame.
  assert (Hpop : pop_frame vm' = (set_frames vm' (removelast (frames vm')), Ok tt)).
  { unfold pop_frame. destruct (frames vm'); [simpl in Hrun; lia|reflexivity]. }
  rewrite (bind_ok _ _ _ _ _ Hpop). rewrite bind_get.
  change (last_exception (set_frames vm' (removelast (frames vm'))))
    with (last_exception vm').
  rewrite Hexc.
  destruct c; try reflexivity. now contradiction (Hc tag).
Qed.

Lemma run_frame_raises_the_last_exception_witness :
  run_frame dis_classic int_host (call_function dis_classic int_host (VRef 2) 10)
    undefined_frame (VirtualMachine_init scope_heap)
  = (mkVM [] VNone
       (Some (VExcClass NameError,
              VExcInst NameError (VStr "name 'q' is not defined"), VNone))
       scope_heap,
     Raise NameError (VExcInst NameError (VStr "name 'q' is not defined"))).
Proof.
  refine (run_frame_raises_the_last_exception dis_classic int_host (VRef 2) 10
            undefined_frame (VirtualMachine_init scope_heap)
            (mkVM [mkFrame (Code [101; 0; 0]%Z [] ["q"] [] 0 "undefined") (VRef 1)
                     (VRef 0) [] [] (VInt 3) (VRef 2)]
               VNone
               (Some (VExcClass NameError,
                      VExcInst NameError (VStr "name 'q' is not defined"), VNone))
               scope_heap)
            0 NameError (VStr "name 'q' is not defined") _ eq_refl _).
  - vm_compute. reflexivity.
  - intros tag. discriminate.
Defined.

(** X21.  [run_code] never leaves the machine with fewer frames on the call
    stack than it found, whether it returns or raises, whatever the code, the
    host and the depth of the calls it makes. *)
Theorem run_code_keeps_the_call_stack
  (dis : Dis) (host : host_t) (builtins : value) (depth : nat)
  (code : code) (callargs : list (value * value))
  (global_arg local_arg : option value)
  (vm vm' : VirtualMachine) (r : result value) :
  run_code dis host builtins depth code callargs global_arg local_arg vm = (vm', r) ->
  length (frames vm) <= length (frames vm').
Proof.
  revert vm vm' r. change (keeps_frames
    (run_code dis host builtins depth code callargs global_arg local_arg)).
  unfold run_code, run_code_with.
  apply keeps_bind.
  - apply keeps_make_frame.
  - intros frame. apply keeps_run_frame. apply keeps_call_function.
Qed.

Lemma run_code_keeps_the_call_stack_witness :
  length (frames module_vm)
  <= length (frames (fst (run_code dis_classic int_host (VRef 0) 10
                            add_code_classic add_args None None module_vm))).
Proof.
  apply (run_code_keeps_the_call_stack dis_classic int_host (VRef 0) 10
           add_code_classic add_args None None module_vm _
           (snd (run_code dis_classic int_host (VRef 0) 10
                   add_code_classic add_args None None module_vm))).
  apply surjective_pairing.
Defined.

(** ** Instructions on the stack and on containers *)

Lemma stack_from_top_eq vm f below v above :
  vm_frame vm = Some f ->
  stack f = below ++ v :: above ->
  stack_from_top (VInt (Z.of_nat (S (length above)))) vm = (vm, Ok v).
Proof.
  intros Hf Hs. unfold stack_from_top. cbn [as_int].
  rewrite (bind_ok _ _ _ _ _ (the_frame_ok _ _ Hf)).
  unfold py_index. rewrite Hs, length_app. cbn [length].
  destruct (Z.leb_spec 0 (- Z.of_nat (S (length above)))); [lia|].
  destruct (Z.leb_spec (- Z.of_nat (length below + S (length above)))
              (- Z.of_nat (S (length above)))); [|lia].
  replace (Z.to_nat (Z.of_nat (length below + S (length above))
                     + - Z.of_nat (S (length above))))
    with (length below) by lia.
  rewrite nth_error_app2, Nat.sub_diag by lia. reflexivity.
Qed.

Lemma removelast_two {A} (s : list A) (a b : A) :
  removelast (removelast (s ++ [a; b])) = s.
Proof.
  change (s ++ [a; b]) with (s ++ [a] ++ [b]).
  now rewrite app_assoc, !removelast_last.
Qed.

Lemma swap_eq vm f s a b :
  vm_frame vm = Some f -> stack f = s ++ [a; b] ->
  byte_SWAP (VInt 2) vm = (with_frame vm (set_stack f (s ++ [b; a])), Ok tt).
Proof.
  intros Hf Hs. unfold byte_SWAP. cbn [key_eqb Z.eqb Pos.eqb].
  rewrite (bind_ok _ _ _ _ _ (stack_from_top_eq vm f s a [b] Hf Hs)).
  assert (Hs' : stack f = (s ++ [a]) ++ b :: [])
    by (now rewrite <- app_assoc).
  rewrite (bind_ok _ _ _ _ _ (stack_from_top_eq vm f (s ++ [a]) b [] Hf Hs')).
  rewrite (bind_ok _ _ _ _ _ (the_frame_ok _ _ Hf)).
  now rewrite Hs, removelast_two.
Qed.

(** X22.  [SWAP 2] exchanges the two values on top of the stack, and applied
    twice it leaves the machine as it was.  For any other operand [SWAP] does
    nothing at all, and no fault is raised. *)
Theorem swap_exchanges_the_top_two
  (vm : VirtualMachine) (f : Frame) (s : list value) (a b : value) :
  vm_frame vm = Some f ->
  stack f = s ++ [a; b] ->
  byte_SWAP (VInt 2) vm = (with_frame vm (set_stack f (s ++ [b; a])), Ok tt)
  /\ (byte_SWAP (VInt 2) ;; byte_SWAP (VInt 2)) vm = (vm, Ok tt)
  /\ forall n, n <> 2%Z -> byte_SWAP (VInt n) vm = (vm, Ok tt).
Proof.
  intros Hf Hs. repeat split.
  - exact (swap_eq _ _ _ _ _ Hf Hs).
  - rewrite (bind_ok _ _ _ _ _ (swap_eq _ _ _ _ _ Hf Hs)).
    rewrite (swap_eq _ (set_stack f (s ++ [b; a])) s b a
               (vm_frame_with_frame _ _) eq_refl).
    rewrite with_frame_twice, set_stack_twice, <- Hs, set_stack_same.
    now rewrite (with_frame_same _ _ Hf).
  - intros n Hn. unfold byte_SWAP. cbn [key_eqb].
    destruct (Z.eqb_spec n 2); [contradiction|reflexivity].
Qed.

Lemma swap_exchanges_the_top_two_witness :
  byte_SWAP (VInt 2) five_vm
  = (one_frame (Code [] [] [] [] 0 "five") VNone VNone VNone
       [VInt 1; VInt 2; VInt 3; VInt 5; VInt 4] 0 [], Ok tt)
  /\ (byte_SWAP (VInt 2) ;; byte_SWAP (VInt 2)) five_vm = (five_vm, Ok tt)
  /\ byte_SWAP (VInt 3) five_vm = (five_vm, Ok tt).
Proof.
  pose proof (swap_exchanges_the_top_two five_vm _ [VInt 1; VInt 2; VInt 3]
                (VInt 4) (VInt 5) eq_refl eq_refl) as [H1 [H2 H3]].
  split; [exact H1|split; [exact H2|exact (H3 3%Z ltac:(lia))]].
Defined.

(** X23.  [COPY i] pushes a copy of the [i]-th value from the top of the
    stack, so that [COPY 1] duplicates the top.  [COPY 0] does not fault: as
    [stack[-0]] is [stack[0]], it pushes the value at the bottom of the stack.
    An operand larger than the stack is high raises [IndexError] and changes
    nothing. *)
Theorem copy_pushes_the_ith_from_top (vm : VirtualMachine) (f : Frame) :
  vm_frame vm = Some f ->
  let pushed v := (with_frame vm (set_stack f (stack f ++ [v])), Ok tt) in
  (forall below v above,
     stack f = below ++ v :: above ->
     byte_COPY (VInt (Z.of_nat (S (length above)))) vm = pushed v)
  /\ (forall v rest, stack f = v :: rest -> byte_COPY (VInt 0) vm = pushed v)
  /\ (forall i, length (stack f) < i ->
        byte_COPY (VInt (Z.of_nat i)) vm
        = (vm, Raise IndexError (VStr "list index out of range"))).
Proof.
  intros Hf pushed. repeat split.
  - intros below v above Hs. unfold byte_COPY.
    rewrite (bind_ok _ _ _ _ _ (stack_from_top_eq vm f below v above Hf Hs)).
    now rewrite (push_eq _ _ _ Hf).
  - intros v rest Hs. unfold byte_COPY, stack_from_top. cbn [as_int].
    unfold bind at 1. rewrite (bind_ok _ _ _ _ _ (the_frame_ok _ _ Hf)).
    rewrite Hs. cbn [py_index Z.opp Z.leb Z.compare Z.to_nat nth_error].
    unfold ret. now rewrite (push_eq _ _ _ Hf).
  - intros i Hi. unfold byte_COPY, stack_from_top. cbn [as_int].
    unfold bind at 1. rewrite (bind_ok _ _ _ _ _ (the_frame_ok _ _ Hf)).
    unfold py_index.
    destruct (Z.leb_spec 0 (- Z.of_nat i)); [lia|].
    destruct (Z.leb_spec (- Z.of_nat (length (stack f))) (- Z.of_nat i)); [lia|].
    reflexivity.
Qed.

Lemma copy_pushes_the_ith_from_top_witness :
  byte_COPY (VInt 2) five_vm
  = (one_frame (Code [] [] [] [] 0 "five") VNone VNone VNone
       [VInt 1; VInt 2; VInt 3; VInt 4; VInt 5; VInt 4] 0 [], Ok tt)
  /\ byte_COPY (VInt 0) five_vm
     = (one_frame (Code [] [] [] [] 0 "five") VNone VNone VNone
          [VInt 1; VInt 2; VInt 3; VInt 4; VInt 5; VInt 1] 0 [], Ok tt)
  /\ byte_COPY (VInt 6) five_vm
     = (five_vm, Raise IndexError (VStr "list index out of range")).
Proof.
  pose proof (copy_pushes_the_ith_from_top five_vm _ eq_refl) as [H1 [H2 H3]].
  split; [|split].
  - exact (H1 [VInt 1; VInt 2; VInt 3] (VInt 4) [VInt 5] eq_refl).
  - exact (H2 (VInt 1) [VInt 2; VInt 3; VInt 4; VInt 5] eq_refl).
  - exact (H3 6 ltac:(simpl; lia)).
Defined.

Lemma popn_exact vm f s elts :
  vm_frame vm = Some f -> stack f = s ++ elts ->
  popn (Z.of_nat (length elts)) vm = (with_frame vm (set_stack f s), Ok elts).
Proof.
  intros Hf Hs. destruct elts as [|x elts].
  - cbn. rewrite app_nil_r in Hs. rewrite <- Hs, set_stack_same.
    now rewrite (with_frame_same _ _ Hf).
  - rewrite (popn_eq _ _ _ Hf) by (simpl; lia).
    unfold py_slice_from, py_delete_from.
    rewrite slice_bound_neg by (simpl; lia).
    rewrite Hs, length_app, Nat.add_sub.
    rewrite firstn_app, firstn_all, Nat.sub_diag, skipn_app, skipn_all, Nat.sub_diag.
    simpl. now rewrite app_nil_r.
Qed.

Lemma build_list_eq host vm f s elts :
  vm_frame vm = Some f -> stack f = s ++ elts ->
  byte_BUILD_LIST host (VInt (Z.of_nat (length elts))) vm
  = (with_frame (set_heap vm (heap vm ++ [OList elts]))
       (set_stack f (s ++ [VRef (length (heap vm))])), Ok tt).
Proof.
  intros Hf Hs. unfold byte_BUILD_LIST, popn_value. cbn [as_int].
  rewrite (bind_ok _ _ _ _ _ (popn_exact _ _ _ _ Hf Hs)).
  unfold bind at 1, alloc.
  rewrite (push_eq _ (set_stack f s)) by apply vm_frame_with_frame.
  cbn [stack set_stack]. rewrite set_stack_twice.
  change (with_frame (set_heap (with_frame vm (set_stack f s)) ?h) ?g)
    with (set_heap (with_frame (with_frame vm (set_stack f s)) g) h).
  now rewrite with_frame_twice.
Qed.

(** X24.  [BUILD_LIST n] takes the [n] values on top of the stack, in stack
    order, into a new list and pushes a reference to it; [LIST_APPEND]
    appends through that reference.  After [BUILD_LIST n], a push of [v] and
    [LIST_APPEND 1], the stack is as [BUILD_LIST] left it and the list it
    refers to has [v] as its last element. *)
Theorem list_append_reaches_the_built_list
  (host : host_t) (vm : VirtualMachine) (f : Frame) (s elts : list value)
  (v : value) :
  vm_frame vm = Some f ->
  stack f = s ++ elts ->
  let n := VInt (Z.of_nat (length elts)) in
  let a := length (heap vm) in
  let built (l : list value) :=
    (with_frame (set_heap vm (heap vm ++ [OList l])) (set_stack f (s ++ [VRef a])),
     Ok tt) in
  byte_BUILD_LIST host n vm = built elts
  /\ (byte_BUILD_LIST host n ;; byte_LOAD_CONST v ;; byte_LIST_APPEND host (VInt 1)) vm
     = built (elts ++ [v]).
Proof.
  intros Hf Hs n a built. split; [exact (build_list_eq host _ _ _ _ Hf Hs)|].
  rewrite (bind_ok _ _ _ _ _ (build_list_eq host _ _ _ _ Hf Hs)).
  fold a.
  set (vm1 := set_heap vm (heap vm ++ [OList elts])).
  set (f1 := set_stack f (s ++ [VRef a])).
  unfold byte_LOAD_CONST.
  rewrite (bind_ok _ _ _ _ _ (push_eq _ f1 [v] (vm_frame_with_frame _ _))).
  rewrite with_frame_twice.
  unfold byte_LIST_APPEND.
  rewrite (bind_ok _ _ _ _ _
             (pop_eq _ (set_stack f1 (stack f1 ++ [v])) (stack f1) v
                (vm_frame_with_frame _ _) eq_refl)).
  rewrite with_frame_twice, set_stack_twice, set_stack_same.
  rewrite (bind_ok _ _ _ _ _
             (stack_from_top_eq (with_frame vm1 f1) f1 s (VRef a) []
                (vm_frame_with_frame _ _) eq_refl)).
  rewrite bind_get.
  change (heap (with_frame vm1 f1)) with (heap vm ++ [OList elts]).
  unfold a. rewrite nth_error_app2, Nat.sub_diag by lia. cbn [nth_error].
  unfold heap_store, built. cbn [heap with_frame set_frames set_heap vm1].
  now rewrite list_set_end.
Qed.

Lemma list_append_reaches_the_built_list_witness :
  (byte_BUILD_LIST int_host (VInt 2) ;; byte_LOAD_CONST (VInt 9) ;;
   byte_LIST_APPEND int_host (VInt 1)) five_vm
  = (one_frame (Code [] [] [] [] 0 "five") VNone VNone VNone
       [VInt 1; VInt 2; VInt 3; VRef 0] 0 [OList [VInt 4; VInt 5; VInt 9]],
     Ok tt).
Proof.
  exact (proj2 (list_append_reaches_the_built_list int_host five_vm _
                  [VInt 1; VInt 2; VInt 3] [VInt 4; VInt 5] (VInt 9)
                  eq_refl eq_refl)).
Defined.

(** X25.  [STORE_MAP] stores through the reference on the stack: on a stack
    that ends in a dictionary, a value and a key it writes the entry into the
    dictionary in the heap and leaves the dictionary alone on the stack.  With
    a key that cannot be hashed it raises [TypeError] after the three values
    have been popped: the dictionary is then no longer on the stack. *)
Theorem store_map_writes_through_the_reference
  (host : host_t) (vm : VirtualMachine) (f : Frame) (s : list value)
  (the_map val key : value) (a : nat) (d : list (value * value)) :
  vm_frame vm = Some f ->
  stack f = s ++ [the_map; val; key] ->
  as_dict (heap vm) the_map = Some (a, d) ->
  (hashable (heap vm) key = true ->
   byte_STORE_MAP host vm
   = (with_frame (set_heap vm (list_set (heap vm) a (ODict (dict_set key val d))))
        (set_stack f (s ++ [the_map])), Ok tt))
  /\
  (hashable (heap vm) key = false ->
   exists msg,
     byte_STORE_MAP host vm = (with_frame vm (set_stack f s), Raise TypeError msg)).
Proof.
  intros Hf Hs Hd. unfold byte_STORE_MAP.
  rewrite (bind_ok _ _ _ _ _
             (popn_exact vm f s [the_map; val; key] Hf Hs)).
  split; intros Hk.
  - rewrite (bind_ok _ _ _ _ _
               (setitem_dict host (with_frame vm (set_stack f s)) _ a d key val Hd Hk)).
    rewrite (push_eq _ (set_stack f s)) by apply vm_frame_with_frame.
    cbn [stack set_stack]. rewrite set_stack_twice.
    change (with_frame (set_heap (with_frame vm (set_stack f s)) ?h) ?g)
      with (set_heap (with_frame (with_frame vm (set_stack f s)) g) h).
    now rewrite with_frame_twice.
  - eexists. unfold bind at 1, setitem. rewrite bind_get.
    change (heap (with_frame vm (set_stack f s))) with (heap vm).
    rewrite Hd, Hk. reflexivity.
Qed.

Lemma store_map_writes_through_the_reference_witness :
  byte_STORE_MAP int_host
    (one_frame (Code [] [] [] [] 0 "map") VNone VNone VNone
       [VRef 0; VInt 1; VStr "k"] 0 [ODict []])
  = (one_frame (Code [] [] [] [] 0 "map") VNone VNone VNone
       [VRef 0] 0 [ODict [(VStr "k", VInt 1)]], Ok tt)
  /\ exists msg,
       byte_STORE_MAP int_host
         (one_frame (Code [] [] [] [] 0 "map") VNone VNone VNone
            [VRef 0; VInt 1; VRef 0] 0 [ODict []])
       = (one_frame (Code [] [] [] [] 0 "map") VNone VNone VNone [] 0 [ODict []],
          Raise TypeError msg).
Proof.
  split.
  - exact (proj1 (store_map_writes_through_the_reference int_host
                    (one_frame (Code [] [] [] [] 0 "map") VNone VNone VNone
                       [VRef 0; VInt 1; VStr "k"] 0 [ODict []])
                    _ [] (VRef 0) (VInt 1) (VStr "k") 0 [] eq_refl eq_refl eq_refl)
             eq_refl).
  - exact (proj2 (store_map_writes_through_the_reference int_host
                    (one_frame (Code [] [] [] [] 0 "map") VNone VNone VNone
                       [VRef 0; VInt 1; VRef 0] 0 [ODict []])
                    _ [] (VRef 0) (VInt 1) (VRef 0) 0 [] eq_refl eq_refl eq_refl)
             eq_refl).
Defined.

(** ** Subtraction in the two instruction formats *)



(** ** Operator opcodes and calls *)

Lemma substring_whole (s : string) : substring 0 (String.length s) s = s.
Proof. induction s as [|c s IH]; [reflexivity|]. simpl. now rewrite IH. Qed.

Lemma prefix_empty (s : string) : String.prefix "" s = true.
Proof. now destruct s. Qed.

Lemma binary_handler host call op :
  op <> "OP" -> assoc ("BINARY_" ++ op)%string (byte_handlers host call) = None.
Proof.
  intros Hop.
  change (assoc ("BINARY_" ++ op)%string (byte_handlers host call))
    with (if String.eqb "OP" op
          then Some (one_operand (byte_BINARY_OP host)) else None).
  destruct (String.eqb_spec "OP" op); [congruence|reflexivity].
Qed.

(** X27.  Opcodes without a method of their own are routed by their name:
    every [UNARY_<op>] goes to [unaryOperator] and every [BINARY_<op>] other
    than [BINARY_OP] to [binaryOperator], with [<op>] as the operator name
    and whatever argument list was decoded, which is ignored. *)
Theorem operator_opcodes_are_routed_by_name
  (host : host_t) (call : Function -> list value -> M value)
  (op : string) (argument : list value) (vm : VirtualMachine) :
  dispatch_try host call ("UNARY_" ++ op)%string argument vm
  = (unaryOperator host op ;; ret None) vm
  /\ (op <> "OP" ->
      dispatch_try host call ("BINARY_" ++ op)%string argument vm
      = (binaryOperator host op ;; ret None) vm).
Proof.
  split.
  - unfold dispatch_try.
    change (String.eqb ("UNARY_" ++ op)%string "BEFORE_ASYNC_WITH") with false.
    cbn [andb].
    change (assoc ("UNARY_" ++ op)%string (byte_handlers host call))
      with (@None method).
    change (String.prefix "UNARY_" ("UNARY_" ++ op)%string)
      with (String.prefix "" op).
    rewrite prefix_empty.
    unfold string_from.
    change (substring 6 (String.length ("UNARY_" ++ op)%string - 6) ("UNARY_" ++ op)%string)
      with (substring 0 (String.length op - 0) op).
    now rewrite Nat.sub_0_r, substring_whole.
  - intros Hop. unfold dispatch_try.
    change (String.eqb ("BINARY_" ++ op)%string "BEFORE_ASYNC_WITH") with false.
    cbn [andb]. rewrite (binary_handler host call op Hop).
    change (String.prefix "UNARY_" ("BINARY_" ++ op)%string) with false.
    change (String.prefix "BINARY_" ("BINARY_" ++ op)%string)
      with (String.prefix "" op).
    rewrite prefix_empty.
    unfold string_from.
    change (substring 7 (String.length ("BINARY_" ++ op)%string - 7) ("BINARY_" ++ op)%string)
      with (substring 0 (String.length op - 0) op).
    now rewrite Nat.sub_0_r, substring_whole.
Qed.

Lemma operator_opcodes_are_routed_by_name_witness :
  dispatch_try int_host no_calls "UNARY_NEGATIVE" [] five_vm
  = (unaryOperator int_host "NEGATIVE" ;; ret None) five_vm
  /\ dispatch_try int_host no_calls "BINARY_ADD" [VInt 0] five_vm
     = (binaryOperator int_host "ADD" ;; ret None) five_vm.
Proof.
  split.
  - exact (proj1 (operator_opcodes_are_routed_by_name int_host no_calls "NEGATIVE"
                    [] five_vm)).
  - exact (proj2 (operator_opcodes_are_routed_by_name int_host no_calls "ADD"
                    [VInt 0] five_vm) ltac:(discriminate)).
Defined.

(** X28.  [MAKE_FUNCTION n] pops a name, a code object and [n] default
    values, and pushes a reference to a new function: its globals are the
    globals of the running frame, its locals the locals of that frame, its
    defaults the [n] values in stack order, its documentation the first
    constant of the code (or [None]), and its name the popped name, or the
    name of the code when the popped name is the empty string. *)
Theorem make_function_builds_from_the_frame
  (host : host_t) (vm : VirtualMachine) (f : Frame) (s defaults : list value)
  (c : code) (nm : string) (ag : nat) (dg : list (value * value)) :
  vm_frame vm = Some f ->
  stack f = s ++ defaults ++ [VCode c; VStr nm] ->
  as_dict (heap vm) (f_globals f) = Some (ag, dg) ->
  let fn :=
    mkFunction c (VStr (if String.eqb nm "" then co_name c else nm)) defaults
      (f_globals f) (f_locals f) VNone
      (match co_consts c with [] => VNone | k :: _ => k end) in
  byte_MAKE_FUNCTION host (VInt (Z.of_nat (length defaults))) vm
  = (with_frame (set_heap vm (heap vm ++ [OFunction fn]))
       (set_stack f (s ++ [VRef (length (heap vm))])), Ok tt).
Proof.
  intros Hf Hs Hg fn. unfold byte_MAKE_FUNCTION.
  assert (Hs2 : stack f = ((s ++ defaults) ++ [VCode c]) ++ [VStr nm])
    by (now rewrite Hs, <- !app_assoc).
  rewrite (bind_ok _ _ _ _ _ (pop_eq _ _ _ _ Hf Hs2)).
  rewrite (bind_ok _ _ _ _ _
             (pop_eq _ (set_stack f ((s ++ defaults) ++ [VCode c])) (s ++ defaults)
                (VCode c) (vm_frame_with_frame _ _) eq_refl)).
  rewrite with_frame_twice, set_stack_twice.
  set (f1 := set_stack f (s ++ defaults)).
  unfold popn_value. cbn [as_int].
  rewrite (bind_ok _ _ _ _ _
             (popn_exact (with_frame vm f1) f1 s defaults
                (vm_frame_with_frame _ _) eq_refl)).
  unfold f1. rewrite with_frame_twice, set_stack_twice.
  rewrite (bind_ok _ _ _ _ _ (the_frame_ok _ _ (vm_frame_with_frame _ _))).
  assert (Hinit :
    Function_init host (VStr nm) (VCode c) (f_globals (set_stack f s)) defaults
      VNone (with_frame vm (set_stack f s))
    = (with_frame vm (set_stack f s), Ok fn)).
  { unfold Function_init. cbn [truthy]. rewrite bind_ret.
    assert (Hg1 : as_dict (heap (with_frame vm (set_stack f s)))
                    (f_globals (set_stack f s)) = Some (ag, dg)) by exact Hg.
    destruct (String.eqb nm ""); cbn [negb]; rewrite bind_ret;
      rewrite (bind_ok _ _ _ _ _ (the_frame_ok _ _ (vm_frame_with_frame _ _)));
      rewrite bind_get, Hg1; reflexivity. }
  rewrite (bind_ok _ _ _ _ _ Hinit).
  unfold bind at 1, alloc.
  rewrite (push_eq _ (set_stack f s)) by apply vm_frame_with_frame.
  cbn [stack set_stack]. rewrite set_stack_twice.
  change (with_frame (set_heap (with_frame vm (set_stack f s)) ?h) ?g)
    with (set_heap (with_frame (with_frame vm (set_stack f s)) g) h).
  now rewrite with_frame_twice.
Qed.

Lemma make_function_builds_from_the_frame_witness :
  byte_MAKE_FUNCTION int_host (VInt 1)
    (one_frame (Code [] [] [] [] 0 "<module>") (VRef 1) (VRef 1) (VRef 0)
       [VInt 1; VCode add_code_classic; VStr ""] 0 test_heap)
  = (one_frame (Code [] [] [] [] 0 "<module>") (VRef 1) (VRef 1) (VRef 0)
       [VRef 2] 0
       (test_heap ++
        [OFunction
           (mkFunction add_code_classic (VStr "test_addition") [VInt 1] (VRef 1)
              (VRef 1) VNone VNone)]),
     Ok tt).
Proof.
  exact (make_function_builds_from_the_frame int_host
           (one_frame (Code [] [] [] [] 0 "<module>") (VRef 1) (VRef 1) (VRef 0)
              [VInt 1; VCode add_code_classic; VStr ""] 0 test_heap)
           _ [] [VInt 1] add_code_classic "" 1 _ eq_refl eq_refl eq_refl).
Defined.

(** X29.  [CALL_FUNCTION] uses the low byte of its operand only: it pops
    that many positional arguments and then the callable, calls it, and pushes
    what the call returns; the count of keyword arguments in the high byte is
    ignored, and nothing is popped for it.  [CALL] with the number of
    arguments as its operand does the same. *)
Theorem call_function_uses_the_low_byte
  (host : host_t) (call : Function -> list value -> M value)
  (vm : VirtualMachine) (f : Frame) (s args : list value) (func : value)
  (lenKw : Z) :
  vm_frame vm = Some f ->
  stack f = s ++ func :: args ->
  length args < 256 ->
  let called :=
    (retval <- py_call host call func args ;; push [retval])
      (with_frame vm (set_stack f s)) in
  byte_CALL_FUNCTION host call (VInt (256 * lenKw + Z.of_nat (length args))) vm
  = called
  /\ byte_CALL host call (VInt (Z.of_nat (length args))) vm = called.
Proof.
  intros Hf Hs Hlen called.
  assert (Hs' : stack f = (s ++ [func]) ++ args)
    by (now rewrite <- app_assoc).
  assert (Hargs : popn (Z.of_nat (length args)) vm
                  = (with_frame vm (set_stack f (s ++ [func])), Ok args))
    by exact (popn_exact _ _ _ _ Hf Hs').
  assert (Hfunc : pop (with_frame vm (set_stack f (s ++ [func])))
                  = (with_frame vm (set_stack f s), Ok func)).
  { rewrite (pop_eq _ (set_stack f (s ++ [func])) s func
               (vm_frame_with_frame _ _) eq_refl).
    now rewrite with_frame_twice, set_stack_twice. }
  split.
  - unfold byte_CALL_FUNCTION. cbn [as_int].
    replace ((256 * lenKw + Z.of_nat (length args)) mod 256)%Z
      with (Z.of_nat (length args)).
    + rewrite (bind_ok _ _ _ _ _ Hargs). now rewrite (bind_ok _ _ _ _ _ Hfunc).
    + rewrite Z.add_comm, Z.mul_comm, Z.mod_add by lia.
      symmetry. apply Z.mod_small. lia.
  - unfold byte_CALL, popn_value. cbn [as_int].
    rewrite (bind_ok _ _ _ _ _ Hargs). now rewrite (bind_ok _ _ _ _ _ Hfunc).
Qed.

Lemma call_function_uses_the_low_byte_witness :
  byte_CALL_FUNCTION int_host no_calls (VInt 257)
    (one_frame (Code [] [] [] [] 0 "call") VNone VNone VNone
       [VInt 0; VExcClass KeyError; VStr "k"] 0 [])
  = (one_frame (Code [] [] [] [] 0 "call") VNone VNone VNone
       [VInt 0; VExcInst KeyError (VStr "k")] 0 [], Ok tt)
  /\ byte_CALL int_host no_calls (VInt 1)
       (one_frame (Code [] [] [] [] 0 "call") VNone VNone VNone
          [VInt 0; VExcClass KeyError; VStr "k"] 0 [])
     = (one_frame (Code [] [] [] [] 0 "call") VNone VNone VNone
          [VInt 0; VExcInst KeyError (VStr "k")] 0 [], Ok tt).
Proof.
  exact (call_function_uses_the_low_byte int_host no_calls
           (one_frame (Code [] [] [] [] 0 "call") VNone VNone VNone
              [VInt 0; VExcClass KeyError; VStr "k"] 0 [])
           _ [VInt 0] [VStr "k"] (VExcClass KeyError) 1 eq_refl eq_refl
           ltac:(simpl; lia)).
Defined.
